(** * AR viewer: camera acquisition, app initialization and chain switching

    A shallow embedding of the three pieces of control logic of the
    repository:

    - [CameraView.startCamera] / [CameraView.stopCamera]
      (src/components/CameraView.jsx),
    - [ARViewer.initializeApp] and its three sub-steps (the ARViewer
      component),
    - [BlockDAG.switchToBlockDAG] (src/config/blockdag-chain.js).

    The JavaScript is asynchronous but strictly sequential: every [await]
    suspends the one running function until the browser settles the
    promise.  The browser is therefore modelled as an oracle that fixes how
    each awaited call settles, component state is threaded explicitly, and
    every call into the outside world is appended to a chronological list
    of effects.  Where a call is made without [await] (the effect that
    starts the camera), the oracle also says what happens to the component
    while the called function is suspended. *)

From Stdlib Require Import List String Ascii Bool Arith ZArith NArith QArith Lia.
From Equations Require Import Equations.
Import ListNotations.

Local Open Scope string_scope.
Local Open Scope list_scope.
Local Open Scope nat_scope.

(** ** JavaScript values shared by the three components *)

(** An exception value.  [err_code] is the [code] property of a wallet
    provider error ([None] when the property is absent or not a number). *)
Record JsError := mkError {
  err_name : string;
  err_message : string;
  err_code : option Z
}.

Definition Error (msg : string) : JsError := mkError "Error" msg None.

(** How an awaited promise settles. *)
Inductive settled (A : Type) : Type :=
| Resolved (a : A)
| Rejected (e : JsError).
Arguments Resolved {A} a.
Arguments Rejected {A} e.

(** [s.includes(sub)] *)
Fixpoint includes (sub s : string) : bool :=
  if String.prefix sub s then true
  else match s with
       | EmptyString => false
       | String _ s' => includes sub s'
       end.

(** [s || d] on strings: the empty string is falsy. *)
Definition or_else (s d : string) : string :=
  match s with EmptyString => d | _ => s end.

(** ** State and exceptions

    [M S A] is a computation over a state [S] that either completes with a
    value or throws; the state reached is kept in both cases, as in
    JavaScript, where the writes made before a [throw] stay made. *)
Module Js.

Inductive completion (A : Type) : Type :=
| Normal (a : A)
| Throw (e : JsError).
Arguments Normal {A} a.
Arguments Throw {A} e.

Definition M (S A : Type) : Type := S -> completion A * S.

Section Ops.
Context {S : Type}.

Definition ret {A} (a : A) : M S A := fun s => (Normal a, s).

Definition bind {A B} (c : M S A) (k : A -> M S B) : M S B :=
  fun s => match c s with
           | (Normal a, s') => k a s'
           | (Throw e, s') => (Throw e, s')
           end.

Definition throw {A} (e : JsError) : M S A := fun s => (Throw e, s).

(** [try { body } catch (err) { handler }] *)
Definition try_catch {A} (body : M S A) (handler : JsError -> M S A) : M S A :=
  fun s => match body s with
           | (Normal a, s') => (Normal a, s')
           | (Throw e, s') => handler e s'
           end.

Definition gets {A} (f : S -> A) : M S A := fun s => (Normal (f s), s).

Definition modify (f : S -> S) : M S unit := fun s => (Normal tt, f s).

(** [if (c) { body }] *)
Definition when (c : bool) (body : M S unit) : M S unit :=
  if c then body else ret tt.

(** [xs.forEach(f)] *)
Fixpoint forEach {A} (xs : list A) (f : A -> M S unit) : M S unit :=
  match xs with
  | [] => ret tt
  | x :: xs' => bind (f x) (fun _ => forEach xs' f)
  end.

(** [await p] for a promise whose outcome the oracle fixed. *)
Definition await {A} (p : settled A) : M S A :=
  match p with
  | Resolved a => ret a
  | Rejected e => throw e
  end.
End Ops.

End Js.

Import Js.

Declare Scope js_scope.
Delimit Scope js_scope with js.
Notation "x <- c1 ;; c2" := (bind c1 (fun x => c2))
  (at level 61, c1 at next level, right associativity) : js_scope.
Notation "c1 ;; c2" := (bind c1 (fun _ => c2))
  (at level 61, right associativity) : js_scope.
Local Open Scope js_scope.

(** ** The camera component *)
Module CameraView.

Inductive FacingMode := user | environment.

(** [{ ideal: n, max: m }]; an absent property is [None]. *)
Record Range := mkRange {
  ideal : option nat;
  max : option nat
}.

(** The [video: { ... }] object of a constraint set. *)
Record TrackConstraints := mkTrack {
  facingMode : option FacingMode;
  width : option Range;
  height : option Range;
  frameRate : option Range
}.

Inductive VideoConstraint :=
| VideoBool (b : bool)
| VideoObject (t : TrackConstraints).

Record Constraints := mkConstraints {
  video : VideoConstraint;
  audio : bool
}.

(** The array literal of [getConstraints]; [cameraFacing] is the state
    variable captured by the closure. *)
Definition constraintLevels (cameraFacing : FacingMode) : list Constraints :=
  [ (* Level 0: Most basic - just video *)
    mkConstraints (VideoBool true) false;
    (* Level 1: Basic with facing mode *)
    mkConstraints
      (VideoObject (mkTrack (Some cameraFacing) None None None)) false;
    (* Level 2: Add basic resolution *)
    mkConstraints
      (VideoObject (mkTrack (Some cameraFacing)
                      (Some (mkRange (Some 640) None))
                      (Some (mkRange (Some 480) None))
                      None)) false;
    (* Level 3: Higher resolution *)
    mkConstraints
      (VideoObject (mkTrack (Some cameraFacing)
                      (Some (mkRange (Some 1280) None))
                      (Some (mkRange (Some 720) None))
                      None)) false;
    (* Level 4: Full constraints (original) *)
    mkConstraints
      (VideoObject (mkTrack (Some cameraFacing)
                      (Some (mkRange (Some 1280) (Some 1920)))
                      (Some (mkRange (Some 720) (Some 1080)))
                      (Some (mkRange (Some 30) (Some 60))))) false ].

(** [constraintLevels[Math.min(level, constraintLevels.length - 1)]];
    indexing a JavaScript array out of bounds yields [undefined], here
    [None]. *)
Definition getConstraints (cameraFacing : FacingMode) (level : nat)
  : option Constraints :=
  nth_error (constraintLevels cameraFacing)
            (Nat.min level (List.length (constraintLevels cameraFacing) - 1)).

(** *** Comparing constraint sets

    [relaxes a b]: the set [a] asks for nothing that [b] does not ask for
    as well, so every camera acceptable under [b] is treated the same or
    better under [a].  An [ideal] target is kept or dropped; a [max]
    bound is dropped or raised. *)
Definition facing_eqb (x y : FacingMode) : bool :=
  match x, y with
  | user, user | environment, environment => true
  | _, _ => false
  end.

Definition relaxes_ideal (a b : option nat) : bool :=
  match a, b with
  | None, _ => true
  | Some x, Some y => x =? y
  | Some _, None => false
  end.

Definition relaxes_max (a b : option nat) : bool :=
  match a, b with
  | None, _ => true
  | Some x, Some y => y <=? x
  | Some _, None => false
  end.

Definition relaxes_range (a b : option Range) : bool :=
  match a, b with
  | None, _ => true
  | Some x, Some y =>
      relaxes_ideal (ideal x) (ideal y) && relaxes_max (max x) (max y)
  | Some x, None =>
      match ideal x, max x with None, None => true | _, _ => false end
  end.

Definition relaxes_facing (a b : option FacingMode) : bool :=
  match a, b with
  | None, _ => true
  | Some x, Some y => facing_eqb x y
  | Some _, None => false
  end.

Definition relaxes_track (a b : TrackConstraints) : bool :=
  relaxes_facing (facingMode a) (facingMode b)
  && relaxes_range (width a) (width b)
  && relaxes_range (height a) (height b)
  && relaxes_range (frameRate a) (frameRate b).

(** [video: true] asks for any camera: it is the empty track constraint. *)
Definition noTrackConstraint : TrackConstraints := mkTrack None None None None.

Definition relaxes_video (a b : VideoConstraint) : bool :=
  match a, b with
  | VideoBool x, VideoBool y => Bool.eqb x y
  | VideoBool true, VideoObject _ => true
  | VideoBool false, VideoObject _ => false
  | VideoObject t, VideoBool true => relaxes_track t noTrackConstraint
  | VideoObject _, VideoBool false => false
  | VideoObject t, VideoObject u => relaxes_track t u
  end.

Definition relaxes (a b : Constraints) : bool :=
  relaxes_video (video a) (video b) && Bool.eqb (audio a) (audio b).

(** The same comparison on what [getConstraints] returns. *)
Definition relaxes_opt (a b : option Constraints) : bool :=
  match a, b with
  | Some x, Some y => relaxes x y
  | _, _ => false
  end.

(** *** Streams, the video element and component state *)

Record MediaStreamTrack := mkMediaTrack {
  track_id : string;
  kind : string;
  label : string
}.

Record MediaStream := mkStream {
  getTracks : list MediaStreamTrack
}.

Record HTMLVideoElement := mkVideo {
  srcObject : option MediaStream
}.

(** Calls that leave the component, in the order they are made.
    [Activation] marks the entry of one activation of [startCamera];
    [Sleep ms] is [await new Promise(resolve => setTimeout(resolve, ms))]. *)
Inductive Effect :=
| Activation (constraintLevel attempt : nat)
| TrackStop (track : MediaStreamTrack)
| Sleep (ms : nat)
| GetUserMedia (constraints : option Constraints)
| SetError (message : option string)
| OnError (err : JsError).

(** The refs and state variables of the component.  [videoRef] is written
    by React alone (when the [<video>] element mounts or unmounts); the
    functions below read it and write the element's [srcObject]. *)
Record State := mkState {
  streamRef : option MediaStream;
  videoRef : option HTMLVideoElement;
  isStreaming : bool;
  error : option string;
  retryCount : nat;
  isRetrying : bool;
  effects : list Effect
}.

(** What one render of the component closes over. *)
Record Render := mkRender {
  cameraFacing : FacingMode;
  onError : bool   (* whether the [onError] prop was passed *)
}.

(** How the video element reacts once a stream is attached: the first of
    the four events that settles the promise of lines 143-174. *)
Inductive VideoLoad :=
| loadedmetadata   (* resolve *)
| videoError       (* reject: 'Video element failed to load stream' *)
| loadTimeout      (* reject after 5000 ms: 'Video load timeout' *)
| playRejected.    (* [video.play()] rejected: resolve all the same *)

(** What the browser answers during one activation of [startCamera]. *)
Record Attempt := mkAttempt {
  userMedia : settled (option MediaStream);
  videoLoad : VideoLoad
}.

Definition setStreamRef (v : option MediaStream) : M State unit :=
  modify (fun s => mkState v (videoRef s) (isStreaming s) (error s)
                           (retryCount s) (isRetrying s) (effects s)).

Definition setSrcObject (v : option MediaStream) : M State unit :=
  modify (fun s => mkState (streamRef s) (Some (mkVideo v)) (isStreaming s)
                           (error s) (retryCount s) (isRetrying s) (effects s)).

Definition setIsStreaming (v : bool) : M State unit :=
  modify (fun s => mkState (streamRef s) (videoRef s) v (error s)
                           (retryCount s) (isRetrying s) (effects s)).

Definition setRetryCount (v : nat) : M State unit :=
  modify (fun s => mkState (streamRef s) (videoRef s) (isStreaming s) (error s)
                           v (isRetrying s) (effects s)).

Definition setIsRetrying (v : bool) : M State unit :=
  modify (fun s => mkState (streamRef s) (videoRef s) (isStreaming s) (error s)
                           (retryCount s) v (effects s)).

Definition emit (e : Effect) : M State unit :=
  modify (fun s => mkState (streamRef s) (videoRef s) (isStreaming s) (error s)
                           (retryCount s) (isRetrying s) (effects s ++ [e])).

Definition setError (v : option string) : M State unit :=
  emit (SetError v) ;;
  modify (fun s => mkState (streamRef s) (videoRef s) (isStreaming s) v
                           (retryCount s) (isRetrying s) (effects s)).

Definition sleep (ms : nat) : M State unit := emit (Sleep ms).

(** [if (streamRef.current) { getTracks().forEach(track => track.stop());
    streamRef.current = null }] (lines 102-109, 185-188 and 221-227). *)
Definition releaseStream : M State unit :=
  current <- gets streamRef ;;
  match current with
  | Some stream =>
      forEach (getTracks stream) (fun track => emit (TrackStop track)) ;;
      setStreamRef None
  | None => ret tt
  end.

(** [if (videoRef.current) { videoRef.current.srcObject = null }]
    (lines 112-114, 190-192 and 229-231). *)
Definition clearVideo : M State unit :=
  v <- gets videoRef ;;
  match v with
  | Some _ => setSrcObject None
  | None => ret tt
  end.

(** [navigator.mediaDevices.getUserMedia(constraints)], in a browser that
    has [navigator.mediaDevices]: the call is made and its promise settles
    as the browser decides. *)
Definition getUserMedia (answer : settled (option MediaStream))
    (constraints : option Constraints) : M State (option MediaStream) :=
  emit (GetUserMedia constraints) ;;
  await answer.

(** The promise of lines 143-174, by the event that settles it.  How long
    the browser takes to raise that event is not recorded; the guard of
    lines 144-146 bounds it by 5000 ms, and [loadTimeout] is that guard
    firing. *)
Definition waitForVideo (load : VideoLoad) : M State unit :=
  match load with
  | loadedmetadata => ret tt
  | videoError => throw (Error "Video element failed to load stream")
  | loadTimeout => throw (Error "Video load timeout")
  | playRejected => ret tt
  end.

Definition getCameraErrorMessage (err : JsError) : string :=
  if String.eqb (err_name err) "NotAllowedError" then
    "Camera access denied. Please allow camera permissions and refresh the page."
  else if String.eqb (err_name err) "NotFoundError" then
    "No camera found. Please connect a camera and try again."
  else if String.eqb (err_name err) "NotSupportedError" then
    "Camera not supported by this browser. Try using Chrome or Firefox."
  else if String.eqb (err_name err) "NotReadableError"
          || includes "already in use" (err_message err) then
    "Camera is busy. Please close other apps using the camera and try again."
  else if String.eqb (err_name err) "OverconstrainedError" then
    "Camera settings not supported. Trying with basic settings..."
  else if includes "Video element failed" (err_message err) then
    "Video display error. Please refresh the page and try again."
  else
    String.append "Camera error: "
      (or_else (err_message err) "Please refresh the page and try again.").

Definition maxAttempts : nat := 3.
Definition maxConstraintLevels : nat := 5.

(** [attempt > 1 ? 500 + (attempt * 200) : 100] *)
Definition delay (attempt : nat) : nat :=
  if 1 <? attempt then 500 + attempt * 200 else 100.

(** The [try] block of [startCamera] (lines 96-179). *)
Definition startCamera_try (r : Render) (browser : Attempt)
    (constraintLevel attempt : nat) : M State unit :=
  emit (Activation constraintLevel attempt) ;;
  setError None ;;
  setIsRetrying (1 <? attempt) ;;
  (* Stop existing stream if any *)
  releaseStream ;;
  (* Clear video element *)
  clearVideo ;;
  (* Wait longer between attempts *)
  sleep (delay attempt) ;;
  (* Get constraints for this level *)
  let constraints := getConstraints (cameraFacing r) constraintLevel in
  (* Request camera access *)
  stream <- getUserMedia (userMedia browser) constraints ;;
  match stream with
  | None => throw (Error "No camera stream received")
  | Some st =>
      if List.length (getTracks st) =? 0
      then throw (Error "No camera stream received")
      else
        setStreamRef (Some st) ;;
        (* Attach stream to video element *)
        v <- gets videoRef ;;
        match v with
        | None => throw (Error "Video element not available")
        | Some _ =>
            setSrcObject (Some st) ;;
            waitForVideo (videoLoad browser) ;;
            setIsStreaming true ;;
            setRetryCount 0 ;;
            setIsRetrying false
        end
  end.

(** The last branch of the [catch] block (lines 206-212). *)
Definition allAttemptsFailed (r : Render) (err : JsError) : M State unit :=
  let errorMessage := getCameraErrorMessage err in
  setError (Some errorMessage) ;;
  setIsStreaming false ;;
  setRetryCount 0 ;;
  setIsRetrying false ;;
  when (onError r) (emit (OnError err)).

(** Activations still possible after the one at [(constraintLevel, attempt)]. *)
Definition remaining (constraintLevel attempt : nat) : nat :=
  (maxConstraintLevels - 1 - constraintLevel) * (maxAttempts + 1)
  + (maxAttempts - attempt).

(** [startCamera(constraintLevel = 0, attempt = 1)].  [browser i] is what the
    browser answers during the [i]-th activation from this one on.  The
    recursion of the [catch] block is well founded: a retry raises
    [attempt] towards [maxAttempts], a fallback raises [constraintLevel]
    towards [maxConstraintLevels - 1]. *)
Equations? startCamera (r : Render) (browser : nat -> Attempt)
    (constraintLevel attempt : nat) : M State unit
  by wf (remaining constraintLevel attempt) lt :=
startCamera r browser constraintLevel attempt :=
  try_catch (startCamera_try r (browser 0) constraintLevel attempt)
    (fun err =>
       (* Clean up on error *)
       releaseStream ;;
       clearVideo ;;
       (* Retry logic *)
       match lt_dec attempt maxAttempts with
       | left _ =>
           setRetryCount attempt ;;
           sleep 1000 ;;
           startCamera r (fun i => browser (S i)) constraintLevel (attempt + 1)
       | right _ =>
           match lt_dec constraintLevel (maxConstraintLevels - 1) with
           | left _ =>
               setRetryCount 0 ;;
               sleep 1000 ;;
               startCamera r (fun i => browser (S i)) (constraintLevel + 1) 1
           | right _ =>
               (* All attempts failed *)
               allAttemptsFailed r err
           end
       end).
Proof.
  all: unfold remaining, maxAttempts, maxConstraintLevels in *; lia.
Qed.

(** [stopCamera] (lines 218-235). *)
Definition stopCamera : M State unit :=
  releaseStream ;;
  clearVideo ;;
  setIsStreaming false.

(** *** Reading a run

    The states a failed activation passes through, and projections of the
    effect list. *)

(** The tracks of the stream held in [streamRef.current], if any. *)
Definition heldTracks (s : State) : list MediaStreamTrack :=
  match streamRef s with
  | Some stream => getTracks stream
  | None => []
  end.

(** After the clean-up at the head of the [catch] block. *)
Definition cleaned (s : State) : State :=
  snd ((releaseStream ;; clearVideo) s).

(** After [setRetryCount(n)] and the wait that precede a recursive call. *)
Definition retrying (n : nat) (s : State) : State :=
  snd ((setRetryCount n ;; sleep 1000) (cleaned s)).

(** After the last branch of the [catch] block. *)
Definition failed (r : Render) (err : JsError) (s : State) : State :=
  snd (allAttemptsFailed r err (cleaned s)).

(** One run of [startCamera] from state [s] to state [s'], activation by
    activation. *)
Inductive Run (r : Render)
  : (nat -> Attempt) -> nat -> nat -> State -> State -> Prop :=
| Run_success browser constraintLevel attempt s s1 :
    startCamera_try r (browser 0) constraintLevel attempt s = (Normal tt, s1) ->
    Run r browser constraintLevel attempt s s1
| Run_retry browser constraintLevel attempt s err s1 s' :
    startCamera_try r (browser 0) constraintLevel attempt s = (Throw err, s1) ->
    attempt < maxAttempts ->
    Run r (fun i => browser (S i)) constraintLevel (attempt + 1)
        (retrying attempt s1) s' ->
    Run r browser constraintLevel attempt s s'
| Run_fallback browser constraintLevel attempt s err s1 s' :
    startCamera_try r (browser 0) constraintLevel attempt s = (Throw err, s1) ->
    ~ attempt < maxAttempts ->
    constraintLevel < maxConstraintLevels - 1 ->
    Run r (fun i => browser (S i)) (constraintLevel + 1) 1 (retrying 0 s1) s' ->
    Run r browser constraintLevel attempt s s'
| Run_failure browser constraintLevel attempt s err s1 :
    startCamera_try r (browser 0) constraintLevel attempt s = (Throw err, s1) ->
    ~ attempt < maxAttempts ->
    ~ constraintLevel < maxConstraintLevels - 1 ->
    Run r browser constraintLevel attempt s (failed r err s1).

(** The effects made on the way from [s] to [s'] ([effects] only grows). *)
Definition since (s s' : State) : list Effect :=
  skipn (List.length (effects s)) (effects s').

(** The effects of one [try] block entered in state [s]: the entry, the
    clearing of [error], the release of a stream still held, the
    pre-attempt delay and the one request to the browser. *)
Definition tryEffects (r : Render) (constraintLevel attempt : nat) (s : State)
  : list Effect :=
  Activation constraintLevel attempt :: SetError None
    :: map TrackStop (heldTracks s)
    ++ [Sleep (delay attempt);
        GetUserMedia (getConstraints (cameraFacing r) constraintLevel)].

(** The effects of one failed activation after its entry, up to and
    including the wait before the next activation. *)
Definition failedBody (r : Render) (level attempt : nat) (s s1 : State)
  : list Effect :=
  SetError None :: map TrackStop (heldTracks s)
    ++ Sleep (delay attempt)
    :: GetUserMedia (getConstraints (cameraFacing r) level)
    :: map TrackStop (heldTracks s1) ++ [Sleep 1000].

Definition isGetUserMedia (e : Effect) : bool :=
  match e with GetUserMedia _ => true | _ => false end.

Definition isActivation (e : Effect) : bool :=
  match e with Activation _ _ => true | _ => false end.

Definition atLevel (level : nat) (e : Effect) : bool :=
  match e with Activation l _ => l =? level | _ => false end.

(** [setError] with a message, or the [onError] callback. *)
Definition isReport (e : Effect) : bool :=
  match e with
  | SetError (Some _) | OnError _ => true
  | _ => false
  end.

Definition count (p : Effect -> bool) (l : list Effect) : nat :=
  List.length (filter p l).

(** The constraint levels of the activations, in order. *)
Definition levelsTried (l : list Effect) : list nat :=
  flat_map (fun e => match e with Activation level _ => [level] | _ => [] end) l.

(** The arguments of the [getUserMedia] calls, in order. *)
Definition requested (l : list Effect) : list (option Constraints) :=
  flat_map (fun e => match e with GetUserMedia c => [c] | _ => [] end) l.

(** The element [videoRef.current], when there is one, shows no stream. *)
Definition videoCleared (s : State) : Prop :=
  match videoRef s with
  | Some element => srcObject element = None
  | None => True
  end.

(** [s'] was reached from [s] without [setError(message)] or [onError]. *)
Definition silent (s s' : State) : Prop :=
  error s' = None /\
  exists tr, effects s' = effects s ++ tr /\ count isReport tr = 0.

End CameraView.

(** ** The viewer component: app initialization *)
Module ARViewer.

(** A geographic fix as [rtkLocationService] reports it.  Coordinates are
    only copied, never computed with, so decimal literals are kept as
    exact rationals; a property the service may leave out is an option. *)
Record Location := mkLocation {
  latitude : Q;
  longitude : Q;
  altitude : option Q;
  accuracy : option Q;
  timestamp : Z;
  isFallback : bool;
  isRTKEnhanced : option bool;
  source : option string
}.

Record RtkStatus := mkRtkStatus {
  rtk_isRTKEnhanced : bool;
  rtk_source : string;
  rtk_accuracy : option Q;
  rtk_altitude : option Q
}.

(** The functions awaited by [initializeApp]. *)
Inductive Step :=
| InitializeLocation
| InitializeCamera
| RefreshConnection
| LoadNearbyObjects.

(** Calls that leave the component, and the entry and completion (by
    return or by exception) of each awaited step, in order. *)
Inductive Effect :=
| Enter (f : Step)
| Leave (f : Step)
| SetInitializationStep (n : nat)
| GetEnhancedLocation
| GetUserMedia (video : CameraView.TrackConstraints)
| TrackStop (track : CameraView.MediaStreamTrack)
| GetNearbyObjects (latitude longitude : Q) (radius_meters limit : nat)
| Sleep (ms : nat).

Section Component.

(** A row of the objects table; the component stores and counts rows
    and never looks inside one. *)
Variable NearbyObject : Type.

Record State := mkState {
  currentLocation : option Location;
  locationError : option string;
  initializationStep : nat;
  isInitialized : bool;
  nearbyObjects : list NearbyObject;
  cameraActive : bool;
  rtkStatus : RtkStatus;
  isMountedRef : bool;
  effects : list Effect
}.

(** What the outside world does during one run of [initializeApp].
    [mountedAfter i] is the value of [isMountedRef.current] when the
    function resumes from its [i]-th [await] (counted from 0 in program
    order): the ref is written by the effect cleanup only, which can
    run only while the function is suspended. *)
Record Browser := mkBrowser {
  enhancedLocation : settled (option Location);
  now : Z;
  cameraPermission : settled (option CameraView.MediaStream);
  connection : settled unit;
  objects : settled (option (list NearbyObject));
  mountedAfter : nat -> bool
}.

Variable b : Browser.

Definition setCurrentLocation (v : option Location) : M State unit :=
  modify (fun s => mkState v (locationError s) (initializationStep s)
            (isInitialized s) (nearbyObjects s) (cameraActive s)
            (rtkStatus s) (isMountedRef s) (effects s)).

Definition setLocationError (v : option string) : M State unit :=
  modify (fun s => mkState (currentLocation s) v (initializationStep s)
            (isInitialized s) (nearbyObjects s) (cameraActive s)
            (rtkStatus s) (isMountedRef s) (effects s)).

Definition emit (e : Effect) : M State unit :=
  modify (fun s => mkState (currentLocation s) (locationError s)
            (initializationStep s) (isInitialized s) (nearbyObjects s)
            (cameraActive s) (rtkStatus s) (isMountedRef s)
            (effects s ++ [e])).

Definition setInitializationStep (v : nat) : M State unit :=
  emit (SetInitializationStep v) ;;
  modify (fun s => mkState (currentLocation s) (locationError s) v
            (isInitialized s) (nearbyObjects s) (cameraActive s)
            (rtkStatus s) (isMountedRef s) (effects s)).

Definition setIsInitialized (v : bool) : M State unit :=
  modify (fun s => mkState (currentLocation s) (locationError s)
            (initializationStep s) v (nearbyObjects s) (cameraActive s)
            (rtkStatus s) (isMountedRef s) (effects s)).

Definition setNearbyObjects (v : list NearbyObject) : M State unit :=
  modify (fun s => mkState (currentLocation s) (locationError s)
            (initializationStep s) (isInitialized s) v (cameraActive s)
            (rtkStatus s) (isMountedRef s) (effects s)).

Definition setCameraActive (v : bool) : M State unit :=
  modify (fun s => mkState (currentLocation s) (locationError s)
            (initializationStep s) (isInitialized s) (nearbyObjects s) v
            (rtkStatus s) (isMountedRef s) (effects s)).

Definition setRtkStatus (v : RtkStatus) : M State unit :=
  modify (fun s => mkState (currentLocation s) (locationError s)
            (initializationStep s) (isInitialized s) (nearbyObjects s)
            (cameraActive s) v (isMountedRef s) (effects s)).

(** The function is suspended at its [i]-th [await]; when it resumes
    the ref holds what the outside world left there. *)
Definition suspend (i : nat) : M State unit :=
  modify (fun s => mkState (currentLocation s) (locationError s)
            (initializationStep s) (isInitialized s) (nearbyObjects s)
            (cameraActive s) (rtkStatus s) (mountedAfter b i) (effects s)).

Definition awaitAt {A} (i : nat) (p : settled A) : M State A :=
  suspend i ;; await p.

(** [await new Promise(resolve => setTimeout(resolve, ms))] *)
Definition sleep (i ms : nat) : M State unit :=
  emit (Sleep ms) ;; suspend i.

(** A call of one of the awaited steps, bracketed in the effect list. *)
Definition call {A} (f : Step) (body : M State A) : M State A :=
  emit (Enter f) ;;
  try_catch (a <- body ;; emit (Leave f) ;; ret a)
            (fun e => emit (Leave f) ;; throw e).

Definition typeError (property : string) : JsError :=
  mkError "TypeError"
    (String.append "Cannot read properties of null (reading '"
       (String.append property "')")) None.

(** Use fallback location (San Francisco) as last resort *)
Definition fallbackLocation : Location :=
  mkLocation (377749 # 10000) (- 1224194 # 10000) (Some (52 # 1))
             (Some (1000 # 1)) (now b) true None (Some "Fallback Location").

(** [location.isRTKEnhanced || false] *)
Definition truthy (v : option bool) : bool :=
  match v with Some true => true | _ => false end.

(** [location.source || 'Standard GPS'] *)
Definition source_or (v : option string) (d : string) : string :=
  match v with Some s => or_else s d | None => d end.

Definition initializeLocation : M State Location :=
  call InitializeLocation
    (try_catch
       (setInitializationStep 1 ;;
        (* Use RTK location service for enhanced accuracy *)
        emit GetEnhancedLocation ;;
        location <- awaitAt 0 (enhancedLocation b) ;;
        setCurrentLocation location ;;
        setLocationError None ;;
        match location with
        | None => throw (typeError "isRTKEnhanced")
        | Some loc =>
            setRtkStatus (mkRtkStatus (truthy (isRTKEnhanced loc))
                            (source_or (source loc) "Standard GPS")
                            (accuracy loc) (altitude loc)) ;;
            ret loc
        end)
       (fun error =>
          (* [error.message]; what is thrown in this model is an error
             object, whose message is a string *)
          setLocationError (Some (err_message error)) ;;
          setCurrentLocation (Some fallbackLocation) ;;
          setRtkStatus (mkRtkStatus false "Fallback Location"
                          (Some (1000 # 1)) (Some (52 # 1))) ;;
          ret fallbackLocation)).

(** [{ facingMode: 'environment', width: { ideal: 1280 },
      height: { ideal: 720 } }] *)
Definition permissionConstraints : CameraView.TrackConstraints :=
  CameraView.mkTrack (Some CameraView.environment)
    (Some (CameraView.mkRange (Some 1280) None))
    (Some (CameraView.mkRange (Some 720) None)) None.

Definition initializeCamera : M State bool :=
  call InitializeCamera
    (try_catch
       (setInitializationStep 2 ;;
        emit (GetUserMedia permissionConstraints) ;;
        stream <- awaitAt 2 (cameraPermission b) ;;
        match stream with
        | None => throw (typeError "getTracks")
        | Some st =>
            (* Stop the stream immediately as we just needed permission *)
            forEach (CameraView.getTracks st)
                    (fun track => emit (TrackStop track)) ;;
            setCameraActive true ;;
            ret true
        end)
       (fun error =>
          setCameraActive false ;;
          ret false)).

(** [refreshConnection] of the [useDatabase] hook: an awaited call that
    resolves or rejects. *)
Definition refreshConnection : M State unit :=
  call RefreshConnection (awaitAt 4 (connection b)).

(** [objects || []] *)
Definition or_empty (v : option (list NearbyObject)) : list NearbyObject :=
  match v with Some l => l | None => [] end.

Definition loadNearbyObjects (location : Location)
  : M State (option (list NearbyObject)) :=
  call LoadNearbyObjects
    (try_catch
       (setInitializationStep 3 ;;
        emit (GetNearbyObjects (latitude location) (longitude location)
                               100 10) ;;
        objs <- awaitAt 5 (objects b) ;;
        setNearbyObjects (or_empty objs) ;;
        ret objs)
       (fun error =>
          setNearbyObjects [] ;;
          ret (Some []))).

(** The [try] block of [initializeApp] (lines 721-753).  An early
    [return] ends the block normally. *)
Definition initializeApp_try : M State unit :=
  mounted <- gets isMountedRef ;;
  if negb mounted then ret tt else
  (* Step 1: Location *)
  location <- initializeLocation ;;
  mounted <- gets isMountedRef ;;
  if negb mounted then ret tt else
  sleep 1 1000 ;;
  (* Step 2: Camera *)
  mounted <- gets isMountedRef ;;
  when mounted (_ <- initializeCamera ;; ret tt) ;;
  mounted <- gets isMountedRef ;;
  if negb mounted then ret tt else
  sleep 3 1000 ;;
  (* Step 3: Database and objects *)
  mounted <- gets isMountedRef ;;
  when mounted (refreshConnection ;;
                _ <- loadNearbyObjects location ;;
                ret tt) ;;
  mounted <- gets isMountedRef ;;
  if negb mounted then ret tt else
  sleep 6 800 ;;
  (* Step 4: Complete *)
  mounted <- gets isMountedRef ;;
  when mounted (setInitializationStep 4 ;;
                setIsInitialized true).

(** Full initialization sequence (lines 719-761). *)
Definition initializeApp : M State unit :=
  try_catch initializeApp_try
    (fun error =>
       mounted <- gets isMountedRef ;;
       (* Allow app to continue with fallbacks *)
       when mounted (setIsInitialized true)).

(** The location [initializeLocation] hands to the later steps: the
    service's fix, or the fallback when the service fails. *)
Definition located : Location :=
  match enhancedLocation b with
  | Resolved (Some loc) => loc
  | _ => fallbackLocation
  end.

(** The state created by the [useState] and [useRef] calls, after the
    mount effect has run [isMountedRef.current = true]. *)
Definition mountState : State :=
  mkState None None 0 false [] false
          (mkRtkStatus false "Standard GPS" None None) true [].

(** The values [setInitializationStep] was called with, in order. *)
Definition steps (l : list Effect) : list nat :=
  flat_map (fun e => match e with
                     | SetInitializationStep n => [n]
                     | _ => []
                     end) l.

(** The effects made on the way from [s] to [s']. *)
Definition since (s s' : State) : list Effect :=
  skipn (List.length (effects s)) (effects s').

(** The order of a complete run: location, camera, database connection
    and nearby objects, ready. *)
Definition fullSequence : list Effect :=
  [Enter InitializeLocation; SetInitializationStep 1;
   Leave InitializeLocation;
   Enter InitializeCamera; SetInitializationStep 2;
   Leave InitializeCamera;
   Enter RefreshConnection; Leave RefreshConnection;
   Enter LoadNearbyObjects; SetInitializationStep 3;
   Leave LoadNearbyObjects;
   SetInitializationStep 4].

(** The browser never unmounts the component during the run. *)
Definition staysMounted : Prop := forall i, mountedAfter b i = true.

(** The entries, completions and step changes of a run, in order. *)
Definition isProgress (e : Effect) : bool :=
  match e with
  | Enter _ | Leave _ | SetInitializationStep _ => true
  | _ => false
  end.

Definition progress (l : list Effect) : list Effect :=
  filter isProgress l.

End Component.

Arguments mkState {NearbyObject}.
Arguments mkBrowser {NearbyObject}.
Arguments currentLocation {NearbyObject}.
Arguments locationError {NearbyObject}.
Arguments initializationStep {NearbyObject}.
Arguments isInitialized {NearbyObject}.
Arguments nearbyObjects {NearbyObject}.
Arguments cameraActive {NearbyObject}.
Arguments rtkStatus {NearbyObject}.
Arguments isMountedRef {NearbyObject}.
Arguments effects {NearbyObject}.
Arguments enhancedLocation {NearbyObject}.
Arguments now {NearbyObject}.
Arguments cameraPermission {NearbyObject}.
Arguments connection {NearbyObject}.
Arguments objects {NearbyObject}.
Arguments mountedAfter {NearbyObject}.
Arguments fallbackLocation {NearbyObject}.
Arguments located {NearbyObject}.
Arguments initializeLocation {NearbyObject}.
Arguments initializeCamera {NearbyObject}.
Arguments refreshConnection {NearbyObject}.
Arguments loadNearbyObjects {NearbyObject}.
Arguments sleep {NearbyObject}.
Arguments initializeApp_try {NearbyObject}.
Arguments initializeApp {NearbyObject}.
Arguments since {NearbyObject}.
Arguments staysMounted {NearbyObject}.
Arguments mountState {NearbyObject}.

End ARViewer.

(** ** Chain configuration and chain switching *)
Module BlockDAG.

Record NativeCurrency := mkCurrency {
  currency_name : string;
  symbol : string;
  decimals : nat
}.

Record Explorer := mkExplorer {
  explorer_name : string;
  url : string;
  standard : string
}.

(** The properties of [BlockDAGTestnet] that [switchToBlockDAG] reads. *)
Record Chain := mkChain {
  chainId : N;
  name : string;
  nativeCurrency : NativeCurrency;
  rpc : list string;
  explorers : list Explorer
}.

Definition BlockDAGTestnet : Chain :=
  mkChain 1043 "BlockDAG Primordial Testnet"
    (mkCurrency "BDAG" "BDAG" 18)
    ["https://test-rpc.primordial.bdagscan.com/"]
    [mkExplorer "BlockDAG Explorer" "https://explorer-testnet.blockdag.org"
                "EIP3091"].

Definition hexDigit (d : N) : ascii :=
  match d with
  | 0 => "0" | 1 => "1" | 2 => "2" | 3 => "3" | 4 => "4" | 5 => "5"
  | 6 => "6" | 7 => "7" | 8 => "8" | 9 => "9" | 10 => "a" | 11 => "b"
  | 12 => "c" | 13 => "d" | 14 => "e" | _ => "f"
  end%N%char.

Fixpoint toHex (fuel : nat) (n : N) (acc : string) : string :=
  let acc' := String (hexDigit (n mod 16)) acc in
  match fuel with
  | O => acc'
  | S fuel' => if (n / 16 =? 0)%N then acc' else toHex fuel' (n / 16)%N acc'
  end.

(** [n.toString(16)] for a non-negative integer [n] (the only numbers the
    source applies it to are chain ids, here the literal 1043): the usual
    positional notation, which has at most as many hexadecimal digits as
    binary ones. *)
Definition toString16 (n : N) : string :=
  toHex (N.to_nat (N.size n)) n "".

(** [`0x${BlockDAGTestnet.chainId.toString(16)}`] *)
Definition chainIdHex : string :=
  String.append "0x" (toString16 (chainId BlockDAGTestnet)).

(** The calls of [window.ethereum.request], by [method] and [params]. *)
Inductive Request :=
| wallet_switchEthereumChain (chainId : string)
| wallet_addEthereumChain (chainId chainName : string)
    (nativeCurrency : NativeCurrency) (rpcUrls blockExplorerUrls : list string).

(** What a promise can be rejected with, and what [catch] then binds.
    EIP-1193 asks providers for an error object with a numeric [code], but
    JavaScript lets a promise be rejected with any value.  [undefined] and
    [null] are the two values whose properties cannot be read; of every
    other value [switchToBlockDAG] reads the [code] property only, which
    is [err_code] ([None] when the value has no such property, or one that
    is not a number). *)
Inductive Reason :=
| undefined
| null
| errorObject (e : JsError).

(** How a promise settles. *)
Inductive outcome (A : Type) : Type :=
| Fulfilled (a : A)
| Failed (why : Reason).
Arguments Fulfilled {A} a.
Arguments Failed {A} why.

(** An asynchronous computation that sends requests to the provider: the
    state is the list of requests sent so far. *)
Definition Wallet (A : Type) : Type := list Request -> outcome A * list Request.

Definition resolve {A} (a : A) : Wallet A := fun log => (Fulfilled a, log).

Definition reject {A} (why : Reason) : Wallet A := fun log => (Failed why, log).

Definition andThen {A B} (c : Wallet A) (k : A -> Wallet B) : Wallet B :=
  fun log => match c log with
             | (Fulfilled a, log') => k a log'
             | (Failed why, log') => (Failed why, log')
             end.

(** [try { body } catch (err) { handler }] *)
Definition tryCatch {A} (body : Wallet A) (handler : Reason -> Wallet A)
  : Wallet A :=
  fun log => match body log with
             | (Fulfilled a, log') => (Fulfilled a, log')
             | (Failed why, log') => handler why log'
             end.

(** An injected wallet provider: how it settles each of the two
    requests. *)
Record Provider := mkProvider {
  switchChain : outcome unit;
  addChain : outcome unit
}.

(** [await window.ethereum.request(r)] *)
Definition request (r : Request) (answer : outcome unit) : Wallet unit :=
  fun log => (answer, log ++ [r]).

Definition propertyOfNullish (property : string) : JsError :=
  mkError "TypeError"
    (String.append "Cannot read properties of null (reading '"
       (String.append property "')")) None.

(** [value.code]: a TypeError when [value] is [undefined] or [null]. *)
Definition readCode (value : Reason) : Wallet (option Z) :=
  match value with
  | undefined | null => reject (errorObject (propertyOfNullish "code"))
  | errorObject e => resolve (err_code e)
  end.

(** [code === 4902] *)
Definition isUnrecognizedChain (code : option Z) : bool :=
  match code with
  | Some c => (c =? 4902)%Z
  | None => false
  end.

(** [switchToBlockDAG]; [ethereum] is [window.ethereum] ([None] when
    [window] or the provider is missing).  The [catch] of line 88 binds
    whatever the switch request was rejected with, and line 90 reads its
    [code] outside any [try]. *)
Definition switchToBlockDAG (ethereum : option Provider) : Wallet bool :=
  match ethereum with
  | Some provider =>
      tryCatch
        ((* Try to switch to BlockDAG network *)
         andThen (request (wallet_switchEthereumChain chainIdHex)
                          (switchChain provider))
                 (fun _ => resolve true))
        (fun switchError =>
           (* If network doesn't exist, add it *)
           andThen (readCode switchError) (fun code =>
           if isUnrecognizedChain code then
             tryCatch
               (andThen (request (wallet_addEthereumChain chainIdHex
                                    (name BlockDAGTestnet)
                                    (nativeCurrency BlockDAGTestnet)
                                    (rpc BlockDAGTestnet)
                                    (map url (explorers BlockDAGTestnet)))
                                 (addChain provider))
                        (fun _ => resolve true))
               (fun addError => resolve false)
           else resolve false))
  | None => resolve false
  end.

(** The switch request, if rejected, is rejected with a value whose
    properties can be read (anything but [undefined] and [null]), as the
    error objects of EIP-1193 are. *)
Definition switchErrorReadable (ethereum : option Provider) : bool :=
  match ethereum with
  | Some provider =>
      match switchChain provider with
      | Failed undefined | Failed null => false
      | _ => true
      end
  | None => true
  end.

Definition isAddChain (r : Request) : bool :=
  match r with
  | wallet_addEthereumChain _ _ _ _ _ => true
  | wallet_switchEthereumChain _ => false
  end.

(** The two requests [switchToBlockDAG] can send. *)
Definition switchRequest : Request := wallet_switchEthereumChain chainIdHex.

Definition addRequest : Request :=
  wallet_addEthereumChain chainIdHex (name BlockDAGTestnet)
    (nativeCurrency BlockDAGTestnet) (rpc BlockDAGTestnet)
    (map url (explorers BlockDAGTestnet)).

End BlockDAG.

(** ** The controls of the camera component

    The handlers around [startCamera] and [stopCamera]: the toggle button,
    the switch button, and the call of [startCamera] that the effect on
    the [isActive] prop makes without awaiting it, with the clean-up on
    unmount that can run under it. *)
Module CameraControls.
Import CameraView.

(** What the handlers of one render close over, besides [Render]. *)
Record Handlers := mkHandlers {
  view : Render;
  streamingSeen : bool;   (* [isStreaming] as this render saw it *)
  isActive : bool;        (* the [isActive] prop *)
  onToggle : bool         (* whether the [onToggle] prop was passed *)
}.

(** The camera state, the state variable [cameraFacing] as the next render
    will see it, and the calls of the [onToggle] prop, in order. *)
Record Component := mkComponent {
  camera : State;
  facing : FacingMode;
  toggles : list bool
}.

(** A computation on the camera state, run inside the component. *)
Definition lift {A} (c : M State A) : M Component A :=
  fun k => let (result, s) := c (camera k) in
           (result, mkComponent s (facing k) (toggles k)).

Definition setCameraFacing (v : FacingMode) : M Component unit :=
  modify (fun k => mkComponent (camera k) v (toggles k)).

(** [if (onToggle) onToggle(v)] *)
Definition callOnToggle (h : Handlers) (v : bool) : M Component unit :=
  when (onToggle h)
       (modify (fun k => mkComponent (camera k) (facing k) (toggles k ++ [v]))).

(** Toggle camera on/off (lines 238-246). *)
Definition toggleCamera (h : Handlers) (browser : nat -> Attempt)
  : M Component unit :=
  if streamingSeen h then
    lift stopCamera ;;
    callOnToggle h false
  else
    lift (startCamera (view h) browser 0 1) ;;
    callOnToggle h true.

(** Switch camera (front/back) (lines 249-265).  The [startCamera] called
    at the end is the function of the render that created this handler: it
    reads the [cameraFacing] of that render. *)
Definition switchCamera (h : Handlers) (browser : nat -> Attempt)
  : M Component unit :=
  let newFacing :=
    if facing_eqb (cameraFacing (view h)) environment then user
    else environment in
  setCameraFacing newFacing ;;
  if streamingSeen h then
    (* Stop current stream *)
    lift stopCamera ;;
    (* Wait a bit longer for cleanup *)
    lift (sleep 300) ;;
    (* Start with new camera *)
    lift (startCamera (view h) browser 0 1)
  else ret tt.

(** *** A call that nobody awaits

    The effect of lines 291-297 calls [startCamera()] and does not await
    it.  The function then goes on by itself, from timer to promise, while
    the component lives on; the component can be unmounted while the
    function is suspended at one of its awaits. *)

(** The awaits of one activation of [startCamera]. *)
Inductive Await :=
| delayWait      (* line 118, before the request *)
| requestWait    (* line 125, [getUserMedia] pending *)
| videoWait      (* line 143, the video element loading *)
| retryWait.     (* lines 198 and 203, before the next activation *)

Definition setVideoRef (v : option HTMLVideoElement) : M State unit :=
  modify (fun s => mkState (streamRef s) v (isStreaming s) (error s)
                           (retryCount s) (isRetrying s) (effects s)).

(** React unmounts the component: the clean-up of lines 300-304 runs
    [stopCamera], and the [<video>] element (rendered in every state of
    the component) is detached, which sets [videoRef.current] to null. *)
Definition unmount : M State unit :=
  stopCamera ;;
  setVideoRef None.

(** The function is suspended at an await; [unmounted] says whether the
    component is unmounted before it resumes. *)
Definition suspended (unmounted : bool) : M State unit :=
  when unmounted unmount.

(** The [try] block of [startCamera] (lines 96-179) when the call is not
    awaited: [startCamera_try] with what can happen at each await. *)
Definition startCamera_try_unawaited (r : Render) (browser : Attempt)
    (unmounted : Await -> bool) (constraintLevel attempt : nat)
  : M State unit :=
  emit (Activation constraintLevel attempt) ;;
  setError None ;;
  setIsRetrying (1 <? attempt) ;;
  releaseStream ;;
  clearVideo ;;
  sleep (delay attempt) ;;
  suspended (unmounted delayWait) ;;
  let constraints := getConstraints (cameraFacing r) constraintLevel in
  emit (GetUserMedia constraints) ;;
  suspended (unmounted requestWait) ;;
  stream <- await (userMedia browser) ;;
  match stream with
  | None => throw (Error "No camera stream received")
  | Some st =>
      if List.length (getTracks st) =? 0
      then throw (Error "No camera stream received")
      else
        setStreamRef (Some st) ;;
        v <- gets videoRef ;;
        match v with
        | None => throw (Error "Video element not available")
        | Some _ =>
            setSrcObject (Some st) ;;
            suspended (unmounted videoWait) ;;
            waitForVideo (videoLoad browser) ;;
            setIsStreaming true ;;
            setRetryCount 0 ;;
            setIsRetrying false
        end
  end.

(** [startCamera()] not awaited.  [unmounted i w] says whether the
    component is unmounted while the [i]-th activation from this one on
    is suspended at its await [w]. *)
Equations? startCamera_unawaited (r : Render) (browser : nat -> Attempt)
    (unmounted : nat -> Await -> bool) (constraintLevel attempt : nat)
  : M State unit
  by wf (remaining constraintLevel attempt) lt :=
startCamera_unawaited r browser unmounted constraintLevel attempt :=
  try_catch
    (startCamera_try_unawaited r (browser 0) (unmounted 0)
       constraintLevel attempt)
    (fun err =>
       (* Clean up on error *)
       releaseStream ;;
       clearVideo ;;
       (* Retry logic *)
       match lt_dec attempt maxAttempts with
       | left _ =>
           setRetryCount attempt ;;
           sleep 1000 ;;
           suspended (unmounted 0 retryWait) ;;
           startCamera_unawaited r (fun i => browser (S i))
             (fun i => unmounted (S i)) constraintLevel (attempt + 1)
       | right _ =>
           match lt_dec constraintLevel (maxConstraintLevels - 1) with
           | left _ =>
               setRetryCount 0 ;;
               sleep 1000 ;;
               suspended (unmounted 0 retryWait) ;;
               startCamera_unawaited r (fun i => browser (S i))
                 (fun i => unmounted (S i)) (constraintLevel + 1) 1
           | right _ =>
               (* All attempts failed *)
               allAttemptsFailed r err
           end
       end).
Proof.
  all: unfold remaining, maxAttempts, maxConstraintLevels in *; lia.
Qed.

(** The state in which the next activation starts: after the clean-up, the
    wait of 1000 ms and whatever happened to the component meanwhile. *)
Definition resumed (unmounted : bool) (n : nat) (s : State) : State :=
  snd (suspended unmounted (retrying n s)).

(** One run of the unawaited call from [s] to [s'], activation by
    activation. *)
Inductive RunUnawaited (r : Render)
  : (nat -> Attempt) -> (nat -> Await -> bool) -> nat -> nat
    -> State -> State -> Prop :=
| Unawaited_success browser unmounted constraintLevel attempt s s1 :
    startCamera_try_unawaited r (browser 0) (unmounted 0)
      constraintLevel attempt s = (Normal tt, s1) ->
    RunUnawaited r browser unmounted constraintLevel attempt s s1
| Unawaited_retry browser unmounted constraintLevel attempt s err s1 s' :
    startCamera_try_unawaited r (browser 0) (unmounted 0)
      constraintLevel attempt s = (Throw err, s1) ->
    attempt < maxAttempts ->
    RunUnawaited r (fun i => browser (S i)) (fun i => unmounted (S i))
      constraintLevel (attempt + 1)
      (resumed (unmounted 0 retryWait) attempt s1) s' ->
    RunUnawaited r browser unmounted constraintLevel attempt s s'
| Unawaited_fallback browser unmounted constraintLevel attempt s err s1 s' :
    startCamera_try_unawaited r (browser 0) (unmounted 0)
      constraintLevel attempt s = (Throw err, s1) ->
    ~ attempt < maxAttempts ->
    constraintLevel < maxConstraintLevels - 1 ->
    RunUnawaited r (fun i => browser (S i)) (fun i => unmounted (S i))
      (constraintLevel + 1) 1
      (resumed (unmounted 0 retryWait) 0 s1) s' ->
    RunUnawaited r browser unmounted constraintLevel attempt s s'
| Unawaited_failure browser unmounted constraintLevel attempt s err s1 :
    startCamera_try_unawaited r (browser 0) (unmounted 0)
      constraintLevel attempt s = (Throw err, s1) ->
    ~ attempt < maxAttempts ->
    ~ constraintLevel < maxConstraintLevels - 1 ->
    RunUnawaited r browser unmounted constraintLevel attempt s
      (failed r err s1).

(** The facing mode a constraint set asks for, if any. *)
Definition requestedFacing (c : option Constraints) : option FacingMode :=
  match c with
  | Some (mkConstraints (VideoObject t) _) => facingMode t
  | _ => None
  end.

(** The browser hands out no usable stream in this activation: the request
    is rejected, or it resolves with no stream or with a stream without
    tracks.  Such an activation leaves the [try] block at line 125 or 128,
    before the video element is given a stream. *)
Definition refuses (a : Attempt) : bool :=
  match userMedia a with
  | Rejected _ | Resolved None => true
  | Resolved (Some stream) => List.length (getTracks stream) =? 0
  end.

(** The time spent in [await new Promise(resolve => setTimeout(resolve, ms))]
    (lines 118, 198, 203 and 260).  The wait for the video element (lines
    143-174) is not a wait of this kind and is not counted. *)
Fixpoint slept (l : list Effect) : N :=
  match l with
  | [] => 0
  | Sleep ms :: rest => N.of_nat ms + slept rest
  | _ :: rest => slept rest
  end%N.

End CameraControls.

(** ** The agent and payment modals of the camera component *)
Module AgentModals.

Inductive Action := click | payment_complete.

Section Handlers.

(** An agent shown in the overlay, and what a completed payment reports. *)
Variables Agent PaymentData : Type.

(** The three state variables of lines 39-41 and the calls of the
    [onAgentInteraction] prop, in order. *)
Record State := mkState {
  selectedAgent : option Agent;
  showAgentModal : bool;
  showPaymentModal : bool;
  interactions : list (Agent * Action * option PaymentData)
}.

(** Whether the [onAgentInteraction] prop was passed. *)
Variable onAgentInteraction : bool.

Definition report (a : Agent) (what : Action) (data : option PaymentData)
    (l : list (Agent * Action * option PaymentData)) :=
  if onAgentInteraction then l ++ [(a, what, data)] else l.

(** Handle agent click (lines 328-336). *)
Definition handleAgentClick (agent : Agent) (s : State) : State :=
  mkState (Some agent) true (showPaymentModal s)
          (report agent click None (interactions s)).

(** Handle payment request (lines 339-344). *)
Definition handlePaymentRequest (agent : Agent) (s : State) : State :=
  mkState (Some agent) false true (interactions s).

(** Handle payment completion (lines 347-355). *)
Definition handlePaymentComplete (agent : Agent) (paymentData : PaymentData)
    (s : State) : State :=
  mkState (selectedAgent s) true false
          (report agent payment_complete (Some paymentData) (interactions s)).

(** Close modals (lines 358-362). *)
Definition closeModals (s : State) : State :=
  mkState None false false (interactions s).

(** The [useState] initial values. *)
Definition closed : State := mkState None false false [].

(** What the user and the two modals can ask of the component. *)
Inductive Event :=
| AgentClick (agent : Agent)
| PaymentRequest (agent : Agent)
| PaymentComplete (agent : Agent) (paymentData : PaymentData)
| CloseModals.

Definition handle (e : Event) (s : State) : State :=
  match e with
  | AgentClick agent => handleAgentClick agent s
  | PaymentRequest agent => handlePaymentRequest agent s
  | PaymentComplete agent paymentData =>
      handlePaymentComplete agent paymentData s
  | CloseModals => closeModals s
  end.

(** A modal calls back only while it is open: the agent modal asks for a
    payment, the payment modal reports its completion. *)
Definition fromOpenModal (e : Event) (s : State) : bool :=
  match e with
  | PaymentRequest _ => showAgentModal s
  | PaymentComplete _ _ => showPaymentModal s
  | AgentClick _ | CloseModals => true
  end.

Fixpoint replay (events : list Event) (s : State) : State :=
  match events with
  | [] => s
  | e :: rest => replay rest (handle e s)
  end.

Fixpoint allFromOpenModal (events : list Event) (s : State) : bool :=
  match events with
  | [] => true
  | e :: rest => fromOpenModal e s && allFromOpenModal rest (handle e s)
  end.

(** A modal that is open has an agent to show. *)
Definition modalHasAgent (s : State) : Prop :=
  showAgentModal s = true \/ showPaymentModal s = true ->
  selectedAgent s <> None.

End Handlers.

Arguments mkState {Agent PaymentData}.
Arguments selectedAgent {Agent PaymentData}.
Arguments showAgentModal {Agent PaymentData}.
Arguments showPaymentModal {Agent PaymentData}.
Arguments interactions {Agent PaymentData}.
Arguments handleAgentClick {Agent PaymentData}.
Arguments handlePaymentRequest {Agent PaymentData}.
Arguments handlePaymentComplete {Agent PaymentData}.
Arguments closeModals {Agent PaymentData}.
Arguments closed {Agent PaymentData}.
Arguments AgentClick {Agent PaymentData}.
Arguments PaymentRequest {Agent PaymentData}.
Arguments PaymentComplete {Agent PaymentData}.
Arguments CloseModals {Agent PaymentData}.
Arguments handle {Agent PaymentData}.
Arguments fromOpenModal {Agent PaymentData}.
Arguments replay {Agent PaymentData}.
Arguments allFromOpenModal {Agent PaymentData}.
Arguments modalHasAgent {Agent PaymentData}.

End AgentModals.

(** ** Sanity checks of the embedding on concrete runs *)
Module Scenarios.
Import CameraView.

Definition idle : State :=
  mkState None (Some (mkVideo None)) false None 0 false [].

Definition busy : JsError := mkError "NotReadableError" "Device in use" None.

Definition backCamera : MediaStream :=
  mkStream [mkMediaTrack "t0" "video" "Back Camera"].

Definition view : Render := mkRender environment true.

(** The camera is on. *)
Definition streaming : State :=
  mkState (Some backCamera) (Some (mkVideo (Some backCamera))) true None 0
          false [].

Definition frontCamera : MediaStream :=
  mkStream [mkMediaTrack "t1" "video" "Front Camera"].

(** Every request is granted, and the video element then fails to load. *)
Definition unloadable (i : nat) : Attempt :=
  mkAttempt (Resolved (Some frontCamera)) videoError.

(** The browser resolves with no stream. *)
Definition streamless : Attempt := mkAttempt (Resolved None) loadedmetadata.

(** Every request is refused. *)
Definition refusing (i : nat) : Attempt := mkAttempt (Rejected busy) loadedmetadata.

(** The fifth request is granted. *)
Definition fifth (i : nat) : Attempt :=
  if i <? 4 then mkAttempt (Rejected busy) loadedmetadata
  else mkAttempt (Resolved (Some backCamera)) loadedmetadata.

(** No location service, no camera permission, no objects; the database
    connection is refreshed and the component stays mounted. *)
Definition denied : JsError := mkError "NotAllowedError" "Permission denied" None.

Definition offline : ARViewer.Browser string :=
  ARViewer.mkBrowser (Rejected denied) 1700000000000%Z (Rejected denied)
                     (Resolved tt) (Rejected denied) (fun _ => true).

(** The database connection cannot be refreshed. *)
Definition disconnected : ARViewer.Browser string :=
  ARViewer.mkBrowser (Rejected denied) 1700000000000%Z (Rejected denied)
                     (Rejected denied) (Rejected denied) (fun _ => true).

(** A wallet that does not know the chain and accepts to add it. *)
Definition unrecognized : JsError :=
  mkError "Error" "Unrecognized chain ID" (Some 4902%Z).

Definition freshWallet : BlockDAG.Provider :=
  BlockDAG.mkProvider (BlockDAG.Failed (BlockDAG.errorObject unrecognized))
                      (BlockDAG.Fulfilled tt).

(** The user rejects the switch (EIP-1193 code 4001). *)
Definition rejected : JsError :=
  mkError "Error" "User rejected the request" (Some 4001%Z).

Definition refusingWallet : BlockDAG.Provider :=
  BlockDAG.mkProvider (BlockDAG.Failed (BlockDAG.errorObject rejected))
                      (BlockDAG.Fulfilled tt).

(** A provider that rejects the switch with [null]. *)
Definition carelessWallet : BlockDAG.Provider :=
  BlockDAG.mkProvider (BlockDAG.Failed BlockDAG.null) (BlockDAG.Fulfilled tt).

Example chainIdHex_value : BlockDAG.chainIdHex = "0x413".
Proof. reflexivity. Qed.

Example toString16_255 : BlockDAG.toString16 255 = "ff".
Proof. reflexivity. Qed.

Example toString16_0 : BlockDAG.toString16 0 = "0".
Proof. reflexivity. Qed.

Example delay_values : map delay [1; 2; 3] = [100; 900; 1100].
Proof. reflexivity. Qed.

Example fifth_request_granted :
  let '(_, s) := startCamera view fifth 0 1 idle in
  isStreaming s = true /\ error s = None /\ streamRef s = Some backCamera
  /\ videoRef s = Some (mkVideo (Some backCamera))
  /\ filter (fun e => match e with Activation _ _ => true | _ => false end)
            (effects s)
     = [Activation 0 1; Activation 0 2; Activation 0 3; Activation 1 1;
        Activation 1 2].
Proof. vm_compute. repeat split; reflexivity. Qed.

Example busy_message :
  getCameraErrorMessage busy
  = "Camera is busy. Please close other apps using the camera and try again.".
Proof. reflexivity. Qed.

Example other_message :
  getCameraErrorMessage (Error "")
  = "Camera error: Please refresh the page and try again.".
Proof. reflexivity. Qed.

Example offline_run :
  let '(result, s) := ARViewer.initializeApp offline ARViewer.mountState in
  result = Normal tt
  /\ ARViewer.steps (ARViewer.effects s) = [1; 2; 3; 4]
  /\ ARViewer.isInitialized s = true
  /\ ARViewer.cameraActive s = false
  /\ ARViewer.currentLocation s = Some (ARViewer.fallbackLocation offline)
  /\ In (ARViewer.GetNearbyObjects (377749 # 10000) (-1224194 # 10000) 100 10)
        (ARViewer.effects s).
Proof. vm_compute. repeat split; try reflexivity. tauto. Qed.

Example disconnected_run :
  let '(result, s) := ARViewer.initializeApp disconnected ARViewer.mountState in
  result = Normal tt
  /\ ARViewer.steps (ARViewer.effects s) = [1; 2]
  /\ ARViewer.initializationStep s = 2
  /\ ARViewer.isInitialized s = true.
Proof. vm_compute. repeat split; reflexivity. Qed.

(** The component is unmounted while the camera permission is pending. *)
Definition leaving : ARViewer.Browser string :=
  ARViewer.mkBrowser (Rejected denied) 1700000000000%Z (Rejected denied)
                     (Resolved tt) (Rejected denied) (fun i => i <? 2).

Example leaving_run :
  let '(result, s) := ARViewer.initializeApp leaving ARViewer.mountState in
  result = Normal tt
  /\ ARViewer.steps (ARViewer.effects s) = [1; 2]
  /\ ARViewer.isInitialized s = false.
Proof. vm_compute. repeat split; reflexivity. Qed.

Example fresh_wallet_run :
  BlockDAG.switchToBlockDAG (Some freshWallet) []
  = (BlockDAG.Fulfilled true,
     [BlockDAG.wallet_switchEthereumChain "0x413";
      BlockDAG.wallet_addEthereumChain "0x413" "BlockDAG Primordial Testnet"
        (BlockDAG.mkCurrency "BDAG" "BDAG" 18)
        ["https://test-rpc.primordial.bdagscan.com/"]
        ["https://explorer-testnet.blockdag.org"]]).
Proof. reflexivity. Qed.

Example refusing_wallet_run :
  BlockDAG.switchToBlockDAG (Some refusingWallet) []
  = (BlockDAG.Fulfilled false, [BlockDAG.wallet_switchEthereumChain "0x413"]).
Proof. reflexivity. Qed.

Example no_wallet_run :
  BlockDAG.switchToBlockDAG None [] = (BlockDAG.Fulfilled false, []).
Proof. reflexivity. Qed.

(** The component is unmounted while the fifth request is pending. *)
Definition leavingAtFifth (i : nat) (w : CameraControls.Await) : bool :=
  (i =? 4) && match w with CameraControls.requestWait => true | _ => false end.

Example leaving_at_fifth_run :
  let '(_, s) := CameraControls.startCamera_unawaited view fifth
                   leavingAtFifth 0 1 idle in
  streamRef s = None /\ videoRef s = None
  /\ count isGetUserMedia (effects s) = 15
  /\ count isReport (effects s) = 2.
Proof. vm_compute. repeat split; reflexivity. Qed.

Example stopCamera_run_streaming :
  stopCamera streaming
  = (Normal tt,
     mkState None (Some (mkVideo None)) false None 0 false
             [TrackStop (mkMediaTrack "t0" "video" "Back Camera")]).
Proof. reflexivity. Qed.

End Scenarios.

(** ** Properties of the camera component *)
Module CameraViewProofs.
Import CameraView.

(** Right-nest every append. *)
Ltac reassoc :=
  unfold tryEffects, failedBody;
  do 3 (repeat rewrite <- app_assoc; cbn [app]).

(** *** One activation *)

Lemma forEach_stop (tracks : list MediaStreamTrack) (s : State) :
  forEach tracks (fun track => emit (TrackStop track)) s
  = (Normal tt,
     mkState (streamRef s) (videoRef s) (isStreaming s) (error s)
             (retryCount s) (isRetrying s)
             (effects s ++ map TrackStop tracks)).
Proof.
  revert s; induction tracks as [|t tracks IH]; intros [sr vr st er rc rt ef].
  - simpl. unfold ret. now rewrite app_nil_r.
  - simpl. unfold bind, emit, modify. rewrite IH. simpl.
    now rewrite <- app_assoc.
Qed.

Lemma releaseStream_run (s : State) :
  releaseStream s
  = (Normal tt,
     mkState None (videoRef s) (isStreaming s) (error s) (retryCount s)
             (isRetrying s) (effects s ++ map TrackStop (heldTracks s))).
Proof.
  destruct s as [[stream|] vr st er rc rt ef];
    unfold releaseStream, heldTracks, bind, gets; simpl.
  - rewrite forEach_stop. reflexivity.
  - unfold ret. now rewrite app_nil_r.
Qed.

Lemma cleaned_eq (s : State) :
  cleaned s
  = mkState None
      (match videoRef s with Some _ => Some (mkVideo None) | None => None end)
      (isStreaming s) (error s) (retryCount s) (isRetrying s)
      (effects s ++ map TrackStop (heldTracks s)).
Proof.
  unfold cleaned, bind. rewrite releaseStream_run.
  destruct s as [sr [v|] st er rc rt ef]; reflexivity.
Qed.

Lemma retrying_eq (n : nat) (s : State) :
  retrying n s
  = mkState None
      (match videoRef s with Some _ => Some (mkVideo None) | None => None end)
      (isStreaming s) (error s) n (isRetrying s)
      (effects s ++ map TrackStop (heldTracks s) ++ [Sleep 1000]).
Proof.
  unfold retrying. rewrite cleaned_eq. simpl. now rewrite <- app_assoc.
Qed.

Lemma failed_eq (r : Render) (err : JsError) (s : State) :
  failed r err s
  = mkState None
      (match videoRef s with Some _ => Some (mkVideo None) | None => None end)
      false (Some (getCameraErrorMessage err)) 0 false
      (effects s ++ map TrackStop (heldTracks s)
         ++ SetError (Some (getCameraErrorMessage err))
         :: (if onError r then [OnError err] else [])).
Proof.
  unfold failed. rewrite cleaned_eq.
  destruct r as [f [|]]; simpl; rewrite <- !app_assoc; simpl; try reflexivity.
Qed.

(** Everything one [try] block does, read off its result. *)
Lemma startCamera_try_inv r browser level attempt s res s1 :
  startCamera_try r browser level attempt s = (res, s1) ->
  effects s1
  = effects s ++ Activation level attempt :: SetError None
      :: map TrackStop (heldTracks s)
      ++ [Sleep (delay attempt);
          GetUserMedia (getConstraints (cameraFacing r) level)]
  /\ error s1 = None
  /\ (videoRef s1 = None <-> videoRef s = None)
  /\ match res with
     | Normal _ =>
         isStreaming s1 = true
         /\ exists stream,
             userMedia browser = Resolved (Some stream)
             /\ getTracks stream <> []
             /\ streamRef s1 = Some stream
             /\ videoRef s1 = Some (mkVideo (Some stream))
     | Throw e =>
         isStreaming s1 = isStreaming s
         /\ heldTracks s1
            = match userMedia browser with
              | Resolved (Some stream) => getTracks stream
              | _ => []
              end
         /\ (userMedia browser = Resolved None
             \/ (exists stream, userMedia browser = Resolved (Some stream)
                                /\ getTracks stream = []) ->
             e = Error "No camera stream received" /\ streamRef s1 = None)
     end.
Proof.
  unfold startCamera_try, bind at 1 2 3 4.
  unfold setError, emit, bind, modify, setIsRetrying. simpl.
  rewrite releaseStream_run. simpl.
  unfold clearVideo, gets, sleep, emit, getUserMedia, bind, modify. simpl.
  rewrite <- !app_assoc. simpl.
  destruct browser as [[[[tracks]|]|e] load]; simpl;
    destruct s as [sr vr st er rc rt ef]; simpl;
    destruct vr as [v|]; simpl.
  all: try (destruct tracks as [|t tracks]; simpl).
  all: try (destruct load; simpl).
  all: intros H; inversion H; subst; clear H; simpl.
  all: unfold heldTracks; simpl.
  all: repeat split; try reflexivity; try discriminate; try tauto.
  all: try (repeat (rewrite <- app_assoc; simpl); reflexivity).
  all: try (eexists; repeat split; try reflexivity; discriminate).
  all: match goal with
       | H : _ \/ _ |- _ =>
           destruct H as [H|[stream [H H']]]; try discriminate;
           inversion H; subst; simpl in *; discriminate
       end.
Qed.

(** *** The recursion, one activation at a time *)

Lemma startCamera_step r browser level attempt s :
  startCamera r browser level attempt s
  = match startCamera_try r (browser 0) level attempt s with
    | (Normal u, s1) => (Normal u, s1)
    | (Throw err, s1) =>
        if attempt <? maxAttempts then
          startCamera r (fun i => browser (S i)) level (attempt + 1)
                      (retrying attempt s1)
        else if level <? maxConstraintLevels - 1 then
          startCamera r (fun i => browser (S i)) (level + 1) 1 (retrying 0 s1)
        else (Normal tt, failed r err s1)
    end.
Proof.
  rewrite startCamera_equation_1. unfold try_catch.
  destruct (startCamera_try r (browser 0) level attempt s) as [[u|err] s1];
    [reflexivity|].
  unfold bind at 1. rewrite releaseStream_run.
  unfold bind at 1.
  assert (Hc : forall s0, clearVideo s0
               = (Normal tt,
                  mkState (streamRef s0)
                    (match videoRef s0 with
                     | Some _ => Some (mkVideo None) | None => None end)
                    (isStreaming s0) (error s0) (retryCount s0)
                    (isRetrying s0) (effects s0)))
    by (intros [sr [v|] st er rc rt ef]; reflexivity).
  rewrite Hc; simpl.
  change (maxConstraintLevels - 1) with 4.
  destruct (lt_dec attempt maxAttempts) as [Ha|Ha].
  - apply Nat.ltb_lt in Ha. rewrite Ha.
    rewrite retrying_eq. unfold bind, setRetryCount, sleep, emit, modify; simpl.
    now rewrite <- app_assoc.
  - apply Nat.ltb_nlt in Ha. rewrite Ha.
    destruct (lt_dec level 4) as [Hl|Hl].
    + apply Nat.ltb_lt in Hl. rewrite Hl.
      rewrite retrying_eq. unfold bind, setRetryCount, sleep, emit, modify; simpl.
      now rewrite <- app_assoc.
    + apply Nat.ltb_nlt in Hl. rewrite Hl.
      unfold failed. rewrite cleaned_eq.
      destruct (allAttemptsFailed r err _) as [c s2] eqn:E.
      assert (c = Normal tt) as ->.
      { revert E. unfold allAttemptsFailed, when, bind, setError, emit,
                    setIsStreaming, setRetryCount, setIsRetrying, modify, ret.
        simpl. destruct (onError r); intros E; now inversion E. }
      reflexivity.
Qed.

(** [startCamera] always returns, and what it does is a [Run]. *)
Lemma startCamera_Run r browser level attempt s :
  exists s', startCamera r browser level attempt s = (Normal tt, s')
             /\ Run r browser level attempt s s'.
Proof.
  remember (remaining level attempt) as n eqn:Hn.
  revert browser level attempt s Hn.
  induction n as [n IH] using lt_wf_ind; intros browser level attempt s Hn.
  rewrite startCamera_step.
  destruct (startCamera_try r (browser 0) level attempt s) as [[[]|err] s1] eqn:E.
  - exists s1. split; [reflexivity|]. now apply Run_success.
  - destruct (attempt <? maxAttempts) eqn:Ha.
    + apply Nat.ltb_lt in Ha.
      destruct (IH (remaining level (attempt + 1))) with
        (browser := fun i => browser (S i)) (level := level)
        (attempt := attempt + 1) (s := retrying attempt s1)
        as [s' [Hs' HR]]; [|reflexivity|].
      { subst n. unfold remaining, maxAttempts, maxConstraintLevels in *. lia. }
      exists s'. split; [exact Hs'|]. eapply Run_retry; eauto.
    + apply Nat.ltb_nlt in Ha.
      destruct (level <? maxConstraintLevels - 1) eqn:Hl.
      * apply Nat.ltb_lt in Hl.
        destruct (IH (remaining (level + 1) 1)) with
          (browser := fun i => browser (S i)) (level := level + 1)
          (attempt := 1) (s := retrying 0 s1)
          as [s' [Hs' HR]]; [|reflexivity|].
        { subst n. unfold remaining, maxAttempts, maxConstraintLevels in *. lia. }
        exists s'. split; [exact Hs'|]. eapply Run_fallback; eauto.
      * apply Nat.ltb_nlt in Hl.
        exists (failed r err s1). split; [reflexivity|].
        now apply Run_failure.
Qed.

(** *** The effects of a run *)

Lemma since_app (s s' : State) (tr : list Effect) :
  effects s' = effects s ++ tr -> since s s' = tr.
Proof.
  intros H. unfold since. rewrite H.
  rewrite skipn_app, skipn_all, Nat.sub_diag. reflexivity.
Qed.

Lemma try_effects r browser level attempt s res s1 :
  startCamera_try r browser level attempt s = (res, s1) ->
  effects s1 = effects s ++ tryEffects r level attempt s.
Proof. intros H. apply startCamera_try_inv in H. apply H. Qed.

Lemma retry_effects r browser level attempt s err s1 n s' :
  startCamera_try r browser level attempt s = (Throw err, s1) ->
  effects s' = effects (retrying n s1) ++ since (retrying n s1) s' ->
  effects s'
  = effects s ++ tryEffects r level attempt s
      ++ map TrackStop (heldTracks s1) ++ Sleep 1000 :: since (retrying n s1) s'.
Proof.
  intros Ht Hs. rewrite Hs. rewrite retrying_eq at 1. simpl.
  rewrite (try_effects _ _ _ _ _ _ _ Ht).
  unfold tryEffects. now reassoc.
Qed.

Lemma failure_effects r browser level attempt s err s1 :
  startCamera_try r browser level attempt s = (Throw err, s1) ->
  effects (failed r err s1)
  = effects s ++ tryEffects r level attempt s
      ++ map TrackStop (heldTracks s1)
      ++ SetError (Some (getCameraErrorMessage err))
      :: (if onError r then [OnError err] else []).
Proof.
  intros Ht. rewrite failed_eq. simpl.
  rewrite (try_effects _ _ _ _ _ _ _ Ht).
  unfold tryEffects. now reassoc.
Qed.

Lemma Run_effects r browser level attempt s s' :
  Run r browser level attempt s s' ->
  effects s' = effects s ++ since s s'.
Proof.
  induction 1 as [b l a s s1 Ht | b l a s err s1 s' Ht Ha HR IH
                 | b l a s err s1 s' Ht Ha Hl HR IH | b l a s err s1 Ht Ha Hl].
  - pose proof (try_effects _ _ _ _ _ _ _ Ht) as E.
    now rewrite (since_app _ _ _ E).
  - pose proof (retry_effects _ _ _ _ _ _ _ _ _ Ht IH) as E.
    now rewrite (since_app _ _ _ E).
  - pose proof (retry_effects _ _ _ _ _ _ _ _ _ Ht IH) as E.
    now rewrite (since_app _ _ _ E).
  - pose proof (failure_effects _ _ _ _ _ _ _ Ht) as E.
    now rewrite (since_app _ _ _ E).
Qed.

Lemma since_success r browser level attempt s s1 :
  startCamera_try r browser level attempt s = (Normal tt, s1) ->
  since s s1 = tryEffects r level attempt s.
Proof. intros Ht. apply since_app. eapply try_effects; eauto. Qed.

Lemma since_retry r b level attempt s err s1 n l' a' s' :
  startCamera_try r (b 0) level attempt s = (Throw err, s1) ->
  Run r (fun i => b (S i)) l' a' (retrying n s1) s' ->
  since s s'
  = tryEffects r level attempt s
      ++ map TrackStop (heldTracks s1) ++ Sleep 1000 :: since (retrying n s1) s'.
Proof.
  intros Ht HR. apply since_app.
  eapply retry_effects; eauto using Run_effects.
Qed.

Lemma since_failure r browser level attempt s err s1 :
  startCamera_try r browser level attempt s = (Throw err, s1) ->
  since s (failed r err s1)
  = tryEffects r level attempt s
      ++ map TrackStop (heldTracks s1)
      ++ SetError (Some (getCameraErrorMessage err))
      :: (if onError r then [OnError err] else []).
Proof. intros Ht. apply since_app. eapply failure_effects; eauto. Qed.

(** *** Counting effects *)

Lemma count_app p (l1 l2 : list Effect) :
  count p (l1 ++ l2) = count p l1 + count p l2.
Proof. unfold count. now rewrite filter_app, length_app. Qed.

Lemma count_cons p (e : Effect) (l : list Effect) :
  count p (e :: l) = (if p e then 1 else 0) + count p l.
Proof. unfold count. simpl. now destruct (p e). Qed.

Lemma count_nil p : count p [] = 0.
Proof. reflexivity. Qed.

Lemma count_stops p (tracks : list MediaStreamTrack) :
  (forall t, p (TrackStop t) = false) ->
  count p (map TrackStop tracks) = 0.
Proof.
  intros H. induction tracks as [|t tracks IH]; [reflexivity|].
  simpl. rewrite count_cons, H, IH. reflexivity.
Qed.

Lemma count_zero_In p (l : list Effect) (e : Effect) :
  count p l = 0 -> In e l -> p e = false.
Proof.
  intros H Hin. destruct (p e) eqn:E; [|reflexivity].
  assert (In e (filter p l)) as Hf by (apply filter_In; auto).
  unfold count in H. destruct (filter p l); [destruct Hf|discriminate].
Qed.

Ltac count_stops :=
  repeat match goal with
    | |- context [count ?p (map TrackStop ?t)] =>
        rewrite (count_stops p t) by reflexivity
    | H : context [count ?p (map TrackStop ?t)] |- _ =>
        rewrite (count_stops p t) in H by reflexivity
    end.

Ltac counting :=
  unfold tryEffects in *;
  repeat (rewrite count_app in * || rewrite count_cons in *
          || rewrite count_nil in *);
  count_stops;
  cbn [isGetUserMedia isActivation isReport atLevel] in *.

Lemma levelsTried_app (l1 l2 : list Effect) :
  levelsTried (l1 ++ l2) = levelsTried l1 ++ levelsTried l2.
Proof. apply flat_map_app. Qed.

Lemma levelsTried_stops (tracks : list MediaStreamTrack) :
  levelsTried (map TrackStop tracks) = [].
Proof. induction tracks; simpl; auto. Qed.

Lemma levelsTried_try r level attempt s :
  levelsTried (tryEffects r level attempt s) = [level].
Proof.
  unfold tryEffects. cbn [levelsTried flat_map app].
  change (flat_map _ ?l) with (levelsTried l).
  now rewrite levelsTried_app, levelsTried_stops.
Qed.

Lemma atLevel_levelsTried (l : nat) (tr : list Effect) :
  ~ In l (levelsTried tr) -> count (atLevel l) tr = 0.
Proof.
  induction tr as [|e tr IH]; [reflexivity|].
  intros Hn. rewrite count_cons.
  change (levelsTried (e :: tr))
    with ((match e with Activation lv _ => [lv] | _ => [] end)
            ++ levelsTried tr) in Hn.
  rewrite IH by (intros Hin; apply Hn, in_or_app; now right).
  destruct e; simpl; try reflexivity.
  destruct (Nat.eqb_spec constraintLevel l); [|reflexivity].
  exfalso. apply Hn. subst. now left.
Qed.

(** *** Bounds on a run *)

Lemma Run_bounds r browser level attempt s s' :
  Run r browser level attempt s s' ->
  count isGetUserMedia (since s s')
  <= Nat.max 1 (maxAttempts + 1 - attempt)
     + maxAttempts * (maxConstraintLevels - 1 - level)
  /\ (forall l, count (atLevel l) (since s s')
                <= if l =? level then Nat.max 1 (maxAttempts + 1 - attempt)
                   else maxAttempts)
  /\ (forall l, In l (levelsTried (since s s')) ->
                l = level \/ level < l <= maxConstraintLevels - 1).
Proof.
  unfold maxAttempts, maxConstraintLevels.
  induction 1 as [b l a s s1 Ht | b l a s err s1 s' Ht Ha HR IH
                 | b l a s err s1 s' Ht Ha Hl HR IH | b l a s err s1 Ht Ha Hl].
  - rewrite (since_success _ _ _ _ _ _ Ht). rewrite levelsTried_try.
    repeat split.
    + counting. lia.
    + intros l0. counting. rewrite (Nat.eqb_sym l0 l).
      destruct (l =? l0); lia.
    + intros l0 [<-|[]]. now left.
  - rewrite (since_retry _ _ _ _ _ _ _ _ _ _ _ Ht HR).
    destruct IH as (IH1 & IH2 & IH3). unfold maxAttempts in Ha.
    rewrite !levelsTried_app, levelsTried_try, levelsTried_stops.
    repeat split.
    + counting. lia.
    + intros l0. specialize (IH2 l0). counting. rewrite (Nat.eqb_sym l0 l) in *.
      destruct (l =? l0); lia.
    + simpl. intros l0 [<-|Hin]; [now left|]. apply IH3 in Hin. lia.
  - rewrite (since_retry _ _ _ _ _ _ _ _ _ _ _ Ht HR).
    destruct IH as (IH1 & IH2 & IH3).
    unfold maxAttempts in Ha. unfold maxConstraintLevels in Hl.
    rewrite !levelsTried_app, levelsTried_try, levelsTried_stops.
    repeat split.
    + counting. lia.
    + intros l0. specialize (IH2 l0). counting.
      destruct (Nat.eqb_spec l l0) as [<-|Hne].
      * rewrite atLevel_levelsTried
          by (intros Hin; apply IH3 in Hin; lia).
        rewrite Nat.eqb_refl. lia.
      * destruct (Nat.eqb_spec l0 (l + 1)), (Nat.eqb_spec l0 l); lia.
    + simpl. intros l0 [<-|Hin]; [now left|]. apply IH3 in Hin. lia.
  - rewrite (since_failure _ _ _ _ _ _ _ Ht).
    rewrite !levelsTried_app, levelsTried_try, levelsTried_stops.
    repeat split.
    + counting. destruct (onError r); counting; lia.
    + intros l0. counting. rewrite (Nat.eqb_sym l0 l).
      destruct (onError r); counting; destruct (l =? l0); lia.
    + simpl. destruct (onError r); simpl; intros l0 [<-|[]]; now left.
Qed.

(** *** How a run ends *)

Lemma Run_outcome r browser level attempt s s' :
  Run r browser level attempt s s' ->
  (isStreaming s' = true /\ error s' = None
   /\ count isReport (since s s') = 0)
  \/ (isStreaming s' = false /\ error s' <> None
      /\ streamRef s' = None /\ videoCleared s'
      /\ count isReport (since s s') <> 0).
Proof.
  induction 1 as [b l a s s1 Ht | b l a s err s1 s' Ht Ha HR IH
                 | b l a s err s1 s' Ht Ha Hl HR IH | b l a s err s1 Ht Ha Hl].
  - left. rewrite (since_success _ _ _ _ _ _ Ht).
    apply startCamera_try_inv in Ht. destruct Ht as (_ & He & _ & Hs & _).
    repeat split; auto. now counting.
  - rewrite (since_retry _ _ _ _ _ _ _ _ _ _ _ Ht HR).
    destruct IH as [(H1 & H2 & H3)|(H1 & H2 & H3 & H4 & H5)]; [left|right];
      repeat split; auto; now counting.
  - rewrite (since_retry _ _ _ _ _ _ _ _ _ _ _ Ht HR).
    destruct IH as [(H1 & H2 & H3)|(H1 & H2 & H3 & H4 & H5)]; [left|right];
      repeat split; auto; now counting.
  - right. rewrite (since_failure _ _ _ _ _ _ _ Ht). rewrite failed_eq.
    unfold videoCleared. simpl. repeat split; try discriminate.
    + now destruct (videoRef s1).
    + counting. lia.
Qed.

Lemma Run_last_attempt r browser level attempt s s' :
  Run r browser level attempt s s' ->
  level <= maxConstraintLevels - 1 -> attempt <= maxAttempts ->
  error s' <> None \/ count isReport (since s s') <> 0 ->
  exists pre post,
    since s s'
    = pre ++ Activation (maxConstraintLevels - 1) maxAttempts :: post
    /\ count isActivation post = 0.
Proof.
  unfold maxAttempts, maxConstraintLevels.
  induction 1 as [b l a s s1 Ht | b l a s err s1 s' Ht Ha HR IH
                 | b l a s err s1 s' Ht Ha Hl HR IH | b l a s err s1 Ht Ha Hl];
    intros Hlv Hat Hrep.
  - exfalso. rewrite (since_success _ _ _ _ _ _ Ht) in Hrep.
    apply startCamera_try_inv in Ht. destruct Ht as (_ & He & _).
    destruct Hrep as [Hrep|Hrep]; [now apply Hrep|]. now counting.
  - unfold maxAttempts in Ha.
    rewrite (since_retry _ _ _ _ _ _ _ _ _ _ _ Ht HR) in *.
    destruct IH as (pre & post & E & Hp); [lia|lia| |].
    { destruct Hrep as [Hrep|Hrep]; [now left|right]. now counting. }
    rewrite E.
    exists (tryEffects r l a s ++ map TrackStop (heldTracks s1)
              ++ Sleep 1000 :: pre), post.
    split; [now reassoc|exact Hp].
  - unfold maxConstraintLevels in Hl.
    rewrite (since_retry _ _ _ _ _ _ _ _ _ _ _ Ht HR) in *.
    destruct IH as (pre & post & E & Hp); [lia|lia| |].
    { destruct Hrep as [Hrep|Hrep]; [now left|right]. now counting. }
    rewrite E.
    exists (tryEffects r l a s ++ map TrackStop (heldTracks s1)
              ++ Sleep 1000 :: pre), post.
    split; [now reassoc|exact Hp].
  - unfold maxAttempts in Ha. unfold maxConstraintLevels in Hl.
    assert (l = 4) as -> by lia. assert (a = 3) as -> by lia.
    rewrite (since_failure _ _ _ _ _ _ _ Ht).
    exists []. eexists. split; [reflexivity|].
    counting. destruct (onError r); now counting.
Qed.

Lemma Run_requests r browser level attempt s s' :
  Run r browser level attempt s s' ->
  count isGetUserMedia (since s s') = count isActivation (since s s').
Proof.
  induction 1 as [b l a s s1 Ht | b l a s err s1 s' Ht Ha HR IH
                 | b l a s err s1 s' Ht Ha Hl HR IH | b l a s err s1 Ht Ha Hl].
  - rewrite (since_success _ _ _ _ _ _ Ht). now counting.
  - rewrite (since_retry _ _ _ _ _ _ _ _ _ _ _ Ht HR). counting. lia.
  - rewrite (since_retry _ _ _ _ _ _ _ _ _ _ _ Ht HR). counting. lia.
  - rewrite (since_failure _ _ _ _ _ _ _ Ht). counting.
    destruct (onError r); now counting.
Qed.

(** *** Releasing the camera *)

Lemma Run_release r browser level attempt s s' :
  Run r browser level attempt s s' ->
  error s' <> None ->
  (forall t, In t (heldTracks s) -> In (TrackStop t) (since s s'))
  /\ (forall i stream t,
         i < count isActivation (since s s') ->
         userMedia (browser i) = Resolved (Some stream) ->
         In t (getTracks stream) ->
         In (TrackStop t) (since s s')).
Proof.
  induction 1 as [b l a s s1 Ht | b l a s err s1 s' Ht Ha HR IH
                 | b l a s err s1 s' Ht Ha Hl HR IH | b l a s err s1 Ht Ha Hl];
    intros Herr.
  - exfalso. apply startCamera_try_inv in Ht. now apply Herr, Ht.
  - rewrite (since_retry _ _ _ _ _ _ _ _ _ _ _ Ht HR).
    destruct (IH Herr) as [_ IH2]. split.
    + intros t Hin. unfold tryEffects. apply in_or_app. left.
      right. right. apply in_or_app. left. now apply in_map.
    + intros i stream t Hi Hu Hin. counting.
      apply in_or_app. right. apply in_or_app.
      destruct i as [|j].
      * left. apply startCamera_try_inv in Ht.
        destruct Ht as (_ & _ & _ & _ & Hh & _). rewrite Hh, Hu.
        now apply in_map.
      * right. right. apply (IH2 j stream t); auto. lia.
  - rewrite (since_retry _ _ _ _ _ _ _ _ _ _ _ Ht HR).
    destruct (IH Herr) as [_ IH2]. split.
    + intros t Hin. unfold tryEffects. apply in_or_app. left.
      right. right. apply in_or_app. left. now apply in_map.
    + intros i stream t Hi Hu Hin. counting.
      apply in_or_app. right. apply in_or_app.
      destruct i as [|j].
      * left. apply startCamera_try_inv in Ht.
        destruct Ht as (_ & _ & _ & _ & Hh & _). rewrite Hh, Hu.
        now apply in_map.
      * right. right. apply (IH2 j stream t); auto. lia.
  - rewrite (since_failure _ _ _ _ _ _ _ Ht). split.
    + intros t Hin. unfold tryEffects. apply in_or_app. left.
      right. right. apply in_or_app. left. now apply in_map.
    + intros i stream t Hi Hu Hin.
      assert (i = 0) as -> by (counting; destruct (onError r); counting; lia).
      apply in_or_app. right. apply in_or_app. left.
      apply startCamera_try_inv in Ht.
      destruct Ht as (_ & _ & _ & _ & Hh & _). rewrite Hh, Hu.
      now apply in_map.
Qed.

(** *** Where the activations sit in the effect list *)

Lemma no_activation_split (B tr pre post : list Effect) (e : Effect) :
  count isActivation B = 0 -> isActivation e = true ->
  B ++ tr = pre ++ e :: post ->
  exists pre', pre = B ++ pre' /\ tr = pre' ++ e :: post.
Proof.
  revert pre. induction B as [|x B IH]; intros pre Hc He E.
  - exists pre. now split.
  - rewrite count_cons in Hc.
    destruct pre as [|y pre]; simpl in E; inversion E; subst.
    + rewrite He in Hc. discriminate.
    + destruct (IH pre) as (pre' & -> & ->); auto.
      { destruct (isActivation y); [discriminate|exact Hc]. }
      exists pre'. now split.
Qed.

Lemma no_activation_after (B pre post : list Effect) (e : Effect) :
  count isActivation B = 0 -> isActivation e = true ->
  B <> pre ++ e :: post.
Proof.
  intros Hc He E. subst B. rewrite count_app, count_cons, He in Hc. lia.
Qed.

Lemma failedBody_eq r level attempt s s1 tr :
  tryEffects r level attempt s ++ map TrackStop (heldTracks s1)
    ++ Sleep 1000 :: tr
  = Activation level attempt :: failedBody r level attempt s s1 ++ tr.
Proof. unfold tryEffects, failedBody. now reassoc. Qed.

Lemma failedBody_quiet r level attempt s s1 :
  count isActivation (failedBody r level attempt s s1) = 0.
Proof. unfold failedBody. now counting. Qed.

Lemma Run_activation_shape r browser level attempt s s' :
  Run r browser level attempt s s' ->
  forall pre l a post,
    since s s' = pre ++ Activation l a :: post ->
    ((pre = [] /\ l = level /\ a = attempt)
     \/ exists pre', pre = pre' ++ [Sleep 1000])
    /\ exists stops rest,
        post = SetError None :: map TrackStop stops
                 ++ Sleep (delay a)
                 :: GetUserMedia (getConstraints (cameraFacing r) l) :: rest.
Proof.
  induction 1 as [b l a s s1 Ht | b l a s err s1 s' Ht Ha HR IH
                 | b l a s err s1 s' Ht Ha Hl HR IH | b l a s err s1 Ht Ha Hl];
    intros pre l0 a0 post E.
  - rewrite (since_success _ _ _ _ _ _ Ht) in E. unfold tryEffects in E.
    destruct pre as [|x pre]; simpl in E; inversion E; subst.
    + split; [now left|]. now exists (heldTracks s), [].
    + exfalso. eapply no_activation_after; [| |eassumption];
        [now counting|reflexivity].
  - rewrite (since_retry _ _ _ _ _ _ _ _ _ _ _ Ht HR), failedBody_eq in E.
    destruct pre as [|x pre]; cbn [app] in E; inversion E as [[E1 E2]];
      subst; clear E.
    + split; [now left|]. exists (heldTracks s). eexists.
      unfold failedBody. reassoc. reflexivity.
    + destruct (no_activation_split (failedBody r l a s s1) _ pre post
                  (Activation l0 a0) (failedBody_quiet _ _ _ _ _)
                  eq_refl E2) as (pre' & -> & E').
      destruct (IH _ _ _ _ E') as [[(-> & _)|(p & ->)] Hpost];
        (split; [right|exact Hpost]).
      * exists (Activation l a :: SetError None
                  :: map TrackStop (heldTracks s)
                  ++ Sleep (delay a)
                  :: GetUserMedia (getConstraints (cameraFacing r) l)
                  :: map TrackStop (heldTracks s1)).
        unfold failedBody. rewrite app_nil_r. now reassoc.
      * exists (Activation l a :: failedBody r l a s s1 ++ p).
        now reassoc.
  - rewrite (since_retry _ _ _ _ _ _ _ _ _ _ _ Ht HR), failedBody_eq in E.
    destruct pre as [|x pre]; cbn [app] in E; inversion E as [[E1 E2]];
      subst; clear E.
    + split; [now left|]. exists (heldTracks s). eexists.
      unfold failedBody. reassoc. reflexivity.
    + destruct (no_activation_split (failedBody r l a s s1) _ pre post
                  (Activation l0 a0) (failedBody_quiet _ _ _ _ _)
                  eq_refl E2) as (pre' & -> & E').
      destruct (IH _ _ _ _ E') as [[(-> & _)|(p & ->)] Hpost];
        (split; [right|exact Hpost]).
      * exists (Activation l a :: SetError None
                  :: map TrackStop (heldTracks s)
                  ++ Sleep (delay a)
                  :: GetUserMedia (getConstraints (cameraFacing r) l)
                  :: map TrackStop (heldTracks s1)).
        unfold failedBody. rewrite app_nil_r. now reassoc.
      * exists (Activation l a :: failedBody r l a s s1 ++ p).
        now reassoc.
  - rewrite (since_failure _ _ _ _ _ _ _ Ht) in E. unfold tryEffects in E.
    destruct pre as [|x pre]; simpl in E; inversion E; subst.
    + split; [now left|]. exists (heldTracks s). eexists.
      reassoc. reflexivity.
    + exfalso. eapply no_activation_after; [| |eassumption];
        [|reflexivity].
      counting. destruct (onError r); now counting.
Qed.

(** *** The claims about the camera component *)

(** C9. [getConstraints] is total and clamps its argument: every level
    yields a constraint set (the index never leaves the array), and every
    level from 4 on yields the set of level 4. *)
Theorem getConstraints_total_clamped (cameraFacing : FacingMode) (level : nat) :
  (exists c, getConstraints cameraFacing level = Some c)
  /\ (4 <= level ->
      getConstraints cameraFacing level = getConstraints cameraFacing 4).
Proof.
  split.
  - do 5 (destruct level as [|level]; [eexists; reflexivity|]).
    eexists; reflexivity.
  - intros H. unfold getConstraints.
    change (List.length (constraintLevels cameraFacing) - 1) with 4.
    rewrite Nat.min_r by exact H. reflexivity.
Qed.

Lemma getConstraints_total_clamped_witness :
  4 <= 9 /\ getConstraints user 9 = getConstraints user 4.
Proof.
  split; [lia|].
  apply (proj2 (getConstraints_total_clamped user 9)). lia.
Defined.

(** C2. Every invocation of [startCamera] (the attempt counter starts at 1
    or above) returns: it makes at most 3 activations per constraint
    level, tries at most 5 levels, hence calls [getUserMedia] at most 15
    times, and ends either streaming or with [error] set. *)
Theorem startCamera_bounded r browser level attempt s :
  1 <= attempt ->
  exists s',
    startCamera r browser level attempt s = (Normal tt, s')
    /\ count isGetUserMedia (since s s') <= maxAttempts * maxConstraintLevels
    /\ (forall l, count (atLevel l) (since s s') <= maxAttempts)
    /\ (forall l, In l (levelsTried (since s s')) ->
                  l = level \/ level < l <= maxConstraintLevels - 1)
    /\ List.length (nodup Nat.eq_dec (levelsTried (since s s')))
       <= maxConstraintLevels
    /\ ((isStreaming s' = true /\ error s' = None)
        \/ (isStreaming s' = false /\ error s' <> None)).
Proof.
  intros Ha.
  destruct (startCamera_Run r browser level attempt s) as (s' & E & HR).
  exists s'. split; [exact E|].
  destruct (Run_bounds _ _ _ _ _ _ HR) as (B1 & B2 & B3).
  unfold maxAttempts, maxConstraintLevels in *.
  repeat split.
  - lia.
  - intros l. specialize (B2 l). destruct (l =? level); lia.
  - exact B3.
  - transitivity (List.length (level :: seq (S level) (4 - level))).
    + apply NoDup_incl_length; [apply NoDup_nodup|].
      intros l Hin. apply nodup_In in Hin. apply B3 in Hin.
      destruct Hin as [->|Hin]; [now left|right].
      apply in_seq. lia.
    + cbn [List.length]. rewrite length_seq. lia.
  - destruct (Run_outcome _ _ _ _ _ _ HR) as [(H1 & H2 & _)|(H1 & H2 & _)];
      [left|right]; now split.
Qed.

Lemma startCamera_bounded_witness :
  1 <= 1 /\
  exists s',
    startCamera Scenarios.view Scenarios.refusing 0 1 Scenarios.idle
    = (Normal tt, s')
    /\ count isGetUserMedia (since Scenarios.idle s') <= 15.
Proof.
  split; [lia|].
  destruct (startCamera_bounded Scenarios.view Scenarios.refusing 0 1
              Scenarios.idle (le_n 1)) as (s' & E & B & _).
  exists s'. split; [exact E|exact B].
Defined.

Lemma retrying_silent r browser level attempt s err s1 n :
  startCamera_try r browser level attempt s = (Throw err, s1) ->
  silent s (retrying n s1).
Proof.
  intros Ht. split.
  - rewrite retrying_eq. simpl. apply startCamera_try_inv in Ht. apply Ht.
  - exists (tryEffects r level attempt s
              ++ map TrackStop (heldTracks s1) ++ [Sleep 1000]).
    split; [|now counting].
    rewrite retrying_eq. simpl.
    rewrite (try_effects _ _ _ _ _ _ _ Ht). now reassoc.
Qed.

(** C4. [startCamera] reports only after the last attempt at the last
    level.  When the [try] block of an activation throws: with
    [attempt < 3] the same level is tried again with [attempt + 1]; with
    [attempt = 3] and [level < 4] the next level is tried with the
    counter back at 1; in both cases neither [setError(message)] nor
    [onError] has been called.  With [attempt = 3] and [level = 4] the
    message is stored in [error] and [onError], when given, is called.
    Over a whole run (from a level up to 4 and an attempt up to 3), a
    report implies that the run ended not streaming and that its last
    activation was attempt 3 at level 4. *)
Theorem startCamera_reports_last r browser level attempt s :
  (forall err s1,
      startCamera_try r (browser 0) level attempt s = (Throw err, s1) ->
      (attempt < maxAttempts ->
       startCamera r browser level attempt s
       = startCamera r (fun i => browser (S i)) level (attempt + 1)
                     (retrying attempt s1)
       /\ silent s (retrying attempt s1))
      /\ (attempt = maxAttempts -> level < maxConstraintLevels - 1 ->
          startCamera r browser level attempt s
          = startCamera r (fun i => browser (S i)) (level + 1) 1
                        (retrying 0 s1)
          /\ silent s (retrying 0 s1))
      /\ (attempt = maxAttempts -> level = maxConstraintLevels - 1 ->
          startCamera r browser level attempt s
          = (Normal tt, failed r err s1)
          /\ error (failed r err s1) = Some (getCameraErrorMessage err)
          /\ In (SetError (Some (getCameraErrorMessage err)))
                (since s (failed r err s1))
          /\ (onError r = true ->
              In (OnError err) (since s (failed r err s1)))))
  /\ (level <= maxConstraintLevels - 1 -> attempt <= maxAttempts ->
      forall s',
        startCamera r browser level attempt s = (Normal tt, s') ->
        error s' <> None \/ count isReport (since s s') <> 0 ->
        isStreaming s' = false
        /\ exists pre post,
            since s s'
            = pre ++ Activation (maxConstraintLevels - 1) maxAttempts :: post
            /\ count isActivation post = 0).
Proof.
  split.
  - intros err s1 Ht. rewrite startCamera_step, Ht. repeat split.
    + apply Nat.ltb_lt in H. now rewrite H.
    + eapply retrying_silent; eauto.
    + eapply retrying_silent; eauto.
    + subst attempt. rewrite Nat.ltb_irrefl.
      apply Nat.ltb_lt in H0. now rewrite H0.
    + eapply retrying_silent; eauto.
    + eapply retrying_silent; eauto.
    + subst. reflexivity.
    + now rewrite failed_eq.
    + rewrite (since_failure _ _ _ _ _ _ _ Ht).
      apply in_or_app; right. apply in_or_app; right. now left.
    + intros Hon. rewrite (since_failure _ _ _ _ _ _ _ Ht), Hon.
      apply in_or_app; right. apply in_or_app; right. right. now left.
  - intros Hl Ha s' E Hrep.
    destruct (startCamera_Run r browser level attempt s) as (s2 & E2 & HR).
    rewrite E in E2. inversion E2; subst s2. split.
    + destruct (Run_outcome _ _ _ _ _ _ HR) as [(H1 & H2 & H3)|(H1 & _)];
        [|exact H1].
      exfalso. destruct Hrep as [Hrep|Hrep]; auto.
    + eapply Run_last_attempt; eauto.
Qed.

Lemma startCamera_reports_last_witness :
  exists s',
    (0 <= maxConstraintLevels - 1 /\ 1 <= maxAttempts
     /\ startCamera Scenarios.view Scenarios.refusing 0 1 Scenarios.idle
        = (Normal tt, s')
     /\ (error s' <> None \/ count isReport (since Scenarios.idle s') <> 0))
    /\ isStreaming s' = false
    /\ exists pre post,
        since Scenarios.idle s'
        = pre ++ Activation (maxConstraintLevels - 1) maxAttempts :: post
        /\ count isActivation post = 0.
Proof.
  eexists.
  assert (H1 : 0 <= maxConstraintLevels - 1) by (unfold maxConstraintLevels; lia).
  assert (H2 : 1 <= maxAttempts) by (unfold maxAttempts; lia).
  assert (H3 : startCamera Scenarios.view Scenarios.refusing 0 1 Scenarios.idle
               = (Normal tt, _)) by (vm_compute; reflexivity).
  match type of H3 with
  | _ = (_, ?s') =>
      assert (H4 : error s' <> None \/ count isReport (since Scenarios.idle s') <> 0)
        by (left; discriminate)
  end.
  split; [exact (conj H1 (conj H2 (conj H3 H4)))|].
  exact (proj2 (startCamera_reports_last Scenarios.view Scenarios.refusing
                  0 1 Scenarios.idle) H1 H2 _ H3 H4).
Defined.

(** C6. Every activation of [startCamera] calls [getUserMedia] exactly
    once.  One activation, entered in any state, makes exactly the effects
    [tryEffects], the last of which is its single request; when the
    browser resolves it with no stream or with a stream without tracks
    the [try] block throws 'No camera stream received' and no stream is
    kept.  Over a run there are as many requests as activations, and each
    activation is followed by its request before anything else happens to
    the camera. *)
Theorem one_request_per_activation r browser level attempt s :
  (forall answers res s1,
      startCamera_try r answers level attempt s = (res, s1) ->
      since s s1 = tryEffects r level attempt s
      /\ count isGetUserMedia (since s s1) = 1
      /\ (userMedia answers = Resolved None
          \/ (exists stream, userMedia answers = Resolved (Some stream)
                             /\ getTracks stream = []) ->
          res = Throw (Error "No camera stream received")
          /\ streamRef s1 = None))
  /\ exists s',
      startCamera r browser level attempt s = (Normal tt, s')
      /\ count isGetUserMedia (since s s') = count isActivation (since s s')
      /\ forall pre l a post,
          since s s' = pre ++ Activation l a :: post ->
          exists stops rest,
            post = SetError None :: map TrackStop stops
                     ++ Sleep (delay a)
                     :: GetUserMedia (getConstraints (cameraFacing r) l)
                     :: rest.
Proof.
  split.
  - intros answers res s1 Ht.
    pose proof (since_app _ _ _ (try_effects _ _ _ _ _ _ _ Ht)) as E.
    rewrite E. repeat split.
    + now counting.
    + apply startCamera_try_inv in Ht. destruct Ht as (_ & _ & _ & Hres).
      destruct res as [u|e].
      * exfalso. destruct Hres as (_ & stream & Hu & Hne & _).
        destruct H as [H|(st & H & Hnil)]; rewrite Hu in H; inversion H.
        subst. now apply Hne.
      * destruct Hres as (_ & _ & Hno). now destruct (Hno H) as [-> _].
    + apply startCamera_try_inv in Ht. destruct Ht as (_ & _ & _ & Hres).
      destruct res as [u|e].
      * exfalso. destruct Hres as (_ & stream & Hu & Hne & _).
        destruct H as [H|(st & H & Hnil)]; rewrite Hu in H; inversion H.
        subst. now apply Hne.
      * destruct Hres as (_ & _ & Hno). now destruct (Hno H).
  - destruct (startCamera_Run r browser level attempt s) as (s' & E & HR).
    exists s'. split; [exact E|]. split.
    + eapply Run_requests; eauto.
    + intros pre l a post Hs.
      now destruct (Run_activation_shape _ _ _ _ _ _ HR _ _ _ _ Hs).
Qed.

Lemma one_request_per_activation_witness :
  exists res s1,
    (startCamera_try Scenarios.view Scenarios.streamless 0 1 Scenarios.idle
     = (res, s1)
     /\ (userMedia Scenarios.streamless = Resolved None
         \/ exists stream,
             userMedia Scenarios.streamless = Resolved (Some stream)
             /\ getTracks stream = []))
    /\ res = Throw (Error "No camera stream received")
    /\ streamRef s1 = None.
Proof.
  do 2 eexists.
  assert (H1 : startCamera_try Scenarios.view Scenarios.streamless 0 1
                 Scenarios.idle = (_, _)) by (vm_compute; reflexivity).
  assert (H2 : userMedia Scenarios.streamless = Resolved None
               \/ exists stream,
                   userMedia Scenarios.streamless = Resolved (Some stream)
                   /\ getTracks stream = []) by (left; reflexivity).
  split; [exact (conj H1 H2)|].
  exact (proj2 (proj2
           (proj1 (one_request_per_activation Scenarios.view Scenarios.refusing
                     0 1 Scenarios.idle) Scenarios.streamless _ _ H1)) H2).
Defined.

Lemma delay_monotone n m : n <= m -> delay n <= delay m.
Proof.
  intros H. unfold delay.
  destruct (Nat.ltb_spec 1 n), (Nat.ltb_spec 1 m); lia.
Qed.

(** C7. The retry loop backs off.  The pre-attempt delay is 100 ms for
    attempt 1 and 500 + 200 * attempt ms for every later attempt, and does
    not decrease as the attempt number grows.  In a run, every activation
    waits [delay attempt] before its request, and every activation but
    the first (every retry and every fallback) comes right after a wait of
    1000 ms. *)
Theorem startCamera_backs_off r browser level attempt s :
  delay 1 = 100
  /\ (forall n, 1 < n -> delay n = 500 + 200 * n)
  /\ (forall n m, n <= m -> delay n <= delay m)
  /\ exists s',
      startCamera r browser level attempt s = (Normal tt, s')
      /\ forall pre l a post,
          since s s' = pre ++ Activation l a :: post ->
          ((pre = [] /\ l = level /\ a = attempt)
           \/ exists pre', pre = pre' ++ [Sleep 1000])
          /\ exists stops rest,
              post = SetError None :: map TrackStop stops
                       ++ Sleep (delay a)
                       :: GetUserMedia (getConstraints (cameraFacing r) l)
                       :: rest.
Proof.
  split; [reflexivity|]. split.
  { intros n Hn. unfold delay. apply Nat.ltb_lt in Hn. rewrite Hn. lia. }
  split; [exact delay_monotone|].
  destruct (startCamera_Run r browser level attempt s) as (s' & E & HR).
  exists s'. split; [exact E|].
  exact (Run_activation_shape _ _ _ _ _ _ HR).
Qed.

Lemma startCamera_backs_off_witness :
  (1 < 2 /\ delay 2 = 500 + 200 * 2) /\ (2 <= 3 /\ delay 2 <= delay 3).
Proof.
  pose proof (startCamera_backs_off Scenarios.view Scenarios.refusing 0 1
                Scenarios.idle) as (_ & H2 & H3 & _).
  split; (split; [lia|]).
  - apply H2. lia.
  - apply H3. lia.
Defined.

Lemma stopCamera_run (s : State) :
  stopCamera s
  = (Normal tt,
     mkState None
       (match videoRef s with Some _ => Some (mkVideo None) | None => None end)
       false (error s) (retryCount s) (isRetrying s)
       (effects s ++ map TrackStop (heldTracks s))).
Proof.
  unfold stopCamera, bind. rewrite releaseStream_run.
  destruct s as [sr [v|] st er rc rt ef]; reflexivity.
Qed.

(** C10. The camera is released on every stop and failure path.
    [stopCamera] returns with [streamRef.current] null, the video element
    (when there is one) showing no stream, [isStreaming] false, and it
    has called [stop()] on exactly the tracks of the stream it held.
    When [startCamera] ends with [error] set, the same three facts hold,
    [stop()] has been called on every track of the stream held on entry
    and on every track of every stream the browser handed out during the
    run. *)
Theorem camera_released r browser level attempt s :
  (exists s',
      stopCamera s = (Normal tt, s')
      /\ streamRef s' = None /\ videoCleared s' /\ isStreaming s' = false
      /\ since s s' = map TrackStop (heldTracks s))
  /\ (forall s',
         startCamera r browser level attempt s = (Normal tt, s') ->
         error s' <> None ->
         streamRef s' = None /\ videoCleared s' /\ isStreaming s' = false
         /\ (forall t, In t (heldTracks s) -> In (TrackStop t) (since s s'))
         /\ (forall i stream t,
                i < count isGetUserMedia (since s s') ->
                userMedia (browser i) = Resolved (Some stream) ->
                In t (getTracks stream) ->
                In (TrackStop t) (since s s'))).
Proof.
  split.
  - eexists. split; [apply stopCamera_run|].
    unfold videoCleared. simpl. repeat split.
    + now destruct (videoRef s).
    + now apply since_app.
  - intros s' E Herr.
    destruct (startCamera_Run r browser level attempt s) as (s2 & E2 & HR).
    rewrite E in E2. inversion E2; subst s2.
    destruct (Run_outcome _ _ _ _ _ _ HR)
      as [(_ & H2 & _)|(H1 & _ & H3 & H4 & _)]; [now elim Herr|].
    destruct (Run_release _ _ _ _ _ _ HR Herr) as [R1 R2].
    repeat split; auto.
    intros i stream t Hi. rewrite (Run_requests _ _ _ _ _ _ HR) in Hi.
    now apply R2.
Qed.

Lemma camera_released_witness :
  exists s',
    (startCamera Scenarios.view Scenarios.unloadable 0 1 Scenarios.streaming
     = (Normal tt, s')
     /\ error s' <> None)
    /\ streamRef s' = None /\ videoCleared s' /\ isStreaming s' = false
    /\ (forall t, In t (heldTracks Scenarios.streaming) ->
                  In (TrackStop t) (since Scenarios.streaming s')).
Proof.
  eexists.
  assert (H1 : startCamera Scenarios.view Scenarios.unloadable 0 1
                 Scenarios.streaming = (Normal tt, _))
    by (vm_compute; reflexivity).
  match type of H1 with
  | _ = (_, ?s') => assert (H2 : error s' <> None) by discriminate
  end.
  split; [exact (conj H1 H2)|].
  destruct (proj2 (camera_released Scenarios.view Scenarios.unloadable 0 1
                     Scenarios.streaming) _ H1 H2) as (A & B & C & D & _).
  exact (conj A (conj B (conj C D))).
Defined.

Lemma relaxes_range_refl (a : option Range) : relaxes_range a a = true.
Proof.
  destruct a as [[[i|] [m|]]|]; simpl;
    rewrite ?Nat.eqb_refl, ?Nat.leb_refl; reflexivity.
Qed.

Lemma relaxes_refl (c : Constraints) : relaxes c c = true.
Proof.
  destruct c as [[[|]|[[[|]|] w h f]] [|]];
    unfold relaxes, relaxes_video, relaxes_track; simpl;
    rewrite ?relaxes_range_refl; reflexivity.
Qed.

Lemma relaxes_range_trans (a b c : option Range) :
  relaxes_range a b = true -> relaxes_range b c = true ->
  relaxes_range a c = true.
Proof.
  destruct a as [[[ia|] [ma|]]|], b as [[[ib|] [mb|]]|], c as [[[ic|] [mc|]]|];
    simpl; rewrite ?andb_true_iff, ?Nat.eqb_eq, ?Nat.leb_le;
    intros; try reflexivity; try discriminate; intuition (try discriminate; lia).
Qed.

Lemma relaxes_facing_trans (a b c : option FacingMode) :
  relaxes_facing a b = true -> relaxes_facing b c = true ->
  relaxes_facing a c = true.
Proof.
  destruct a as [[|]|], b as [[|]|], c as [[|]|]; simpl;
    intros; try reflexivity; discriminate.
Qed.

Lemma relaxes_track_trans (a b c : TrackConstraints) :
  relaxes_track a b = true -> relaxes_track b c = true ->
  relaxes_track a c = true.
Proof.
  unfold relaxes_track. rewrite !andb_true_iff.
  intros (((F1 & W1) & H1) & R1) (((F2 & W2) & H2) & R2).
  repeat split;
    eauto using relaxes_facing_trans, relaxes_range_trans.
Qed.

(** [relaxes] is a preorder: it compares constraint sets by what they ask
    for. *)
Lemma relaxes_trans (a b c : Constraints) :
  relaxes a b = true -> relaxes b c = true -> relaxes a c = true.
Proof.
  unfold relaxes. rewrite !andb_true_iff.
  intros [V1 A1] [V2 A2]. split.
  - destruct (video a) as [[|]|ta], (video b) as [[|]|tb],
      (video c) as [[|]|tc]; simpl in *;
      try reflexivity; try discriminate;
      eauto using relaxes_track_trans.
  - apply eqb_prop in A1, A2. rewrite A1, A2. apply eqb_reflx.
Qed.

(** C1. The fallback of [startCamera] does not relax the constraints: it
    goes from level [k] to level [k + 1], and for each of the four steps
    the set of level [k + 1] asks for something the set of level [k] does
    not (a facing mode, a resolution target, another resolution target,
    upper bounds), so it is no relaxation of it; three of the four steps
    go the other way, level [k] relaxing level [k + 1].  A run in which
    the browser refuses every request tries the levels 0, 1, 2, 3, 4 in
    this order, three times each, ending on the full constraint set. *)
Theorem fallback_adds_constraints :
  (forall f,
      relaxes_opt (getConstraints f 1) (getConstraints f 0) = false
      /\ relaxes_opt (getConstraints f 2) (getConstraints f 1) = false
      /\ relaxes_opt (getConstraints f 3) (getConstraints f 2) = false
      /\ relaxes_opt (getConstraints f 4) (getConstraints f 3) = false)
  /\ (forall f,
         relaxes_opt (getConstraints f 0) (getConstraints f 1) = true
         /\ relaxes_opt (getConstraints f 1) (getConstraints f 2) = true
         /\ relaxes_opt (getConstraints f 3) (getConstraints f 4) = true)
  /\ exists s',
      startCamera Scenarios.view Scenarios.refusing 0 1 Scenarios.idle
      = (Normal tt, s')
      /\ levelsTried (effects s')
         = [0; 0; 0; 1; 1; 1; 2; 2; 2; 3; 3; 3; 4; 4; 4]
      /\ requested (effects s')
         = flat_map (fun l => repeat (getConstraints environment l) 3)
                    [0; 1; 2; 3; 4].
Proof.
  split; [intros [|]; repeat split; reflexivity|].
  split; [intros [|]; repeat split; reflexivity|].
  eexists. split; [vm_compute; reflexivity|].
  split; reflexivity.
Qed.

End CameraViewProofs.

(** ** Properties of the initialization sequence *)
Module ARViewerProofs.
Import ARViewer.

(** Run the state monad by value: every state is reduced to a record of
    values before the next step reads it. *)
Ltac run :=
  cbv beta iota zeta delta
    [initializeLocation initializeCamera refreshConnection loadNearbyObjects
     located call try_catch bind ret throw gets modify when await
     setInitializationStep setCurrentLocation setLocationError setRtkStatus
     setIsInitialized setNearbyObjects setCameraActive emit awaitAt suspend
     sleep or_empty
     enhancedLocation now cameraPermission connection objects mountedAfter
     currentLocation locationError initializationStep isInitialized
     nearbyObjects cameraActive rtkStatus isMountedRef effects].

Section Steps.
Context {NearbyObject : Type}.
Variable b : Browser NearbyObject.

Lemma stop_granted_tracks (tracks : list CameraView.MediaStreamTrack) (s : State NearbyObject) :
  forEach tracks (fun track => emit NearbyObject (TrackStop track)) s
  = (Normal tt,
     mkState (currentLocation s) (locationError s) (initializationStep s)
             (isInitialized s) (nearbyObjects s) (cameraActive s)
             (rtkStatus s) (isMountedRef s)
             (effects s ++ map TrackStop tracks)).
Proof.
  revert s; induction tracks as [|t tracks IH]; intros [cl le st ii no ca rs mo ef].
  - simpl. unfold ret. now rewrite app_nil_r.
  - simpl. unfold bind, emit, modify. rewrite IH. simpl.
    now rewrite <- app_assoc.
Qed.

Lemma initializeLocation_run (s : State NearbyObject) :
  exists s1,
    initializeLocation b s = (Normal (located b), s1)
    /\ effects s1
       = effects s ++ [Enter InitializeLocation; SetInitializationStep 1;
                       GetEnhancedLocation; Leave InitializeLocation]
    /\ isMountedRef s1 = mountedAfter b 0
    /\ isInitialized s1 = isInitialized s
    /\ currentLocation s1 = Some (located b)
    /\ locationError s1
       = match enhancedLocation b with
         | Resolved (Some _) => None
         | Resolved None => Some (err_message (typeError "isRTKEnhanced"))
         | Rejected e => Some (err_message e)
         end.
Proof.
  destruct s as [cl le st ii no ca rs mo ef].
  destruct b as [[[loc|]|e] nw cp cn ob ma]; run;
    (eexists; split; [reflexivity|]); run;
    rewrite <- ?app_assoc; repeat split; reflexivity.
Qed.

Lemma initializeCamera_run (s : State NearbyObject) :
  exists granted s1,
    initializeCamera b s = (Normal granted, s1)
    /\ effects s1
       = effects s ++ [Enter InitializeCamera; SetInitializationStep 2;
                       GetUserMedia permissionConstraints]
           ++ map TrackStop
                (match cameraPermission b with
                 | Resolved (Some stream) => CameraView.getTracks stream
                 | _ => []
                 end)
           ++ [Leave InitializeCamera]
    /\ isMountedRef s1 = mountedAfter b 2
    /\ isInitialized s1 = isInitialized s
    /\ cameraActive s1 = granted
    /\ granted = match cameraPermission b with
                 | Resolved (Some _) => true
                 | _ => false
                 end.
Proof.
  destruct s as [cl le st ii no ca rs mo ef].
  destruct b as [el nw [[[tracks]|]|e] cn ob ma]; run;
    rewrite ?stop_granted_tracks; run;
    (do 2 eexists; split; [reflexivity|]); run;
    cbn [map app CameraView.getTracks];
    rewrite <- ?app_assoc; repeat split; reflexivity.
Qed.

Lemma refreshConnection_run (s : State NearbyObject) :
  exists s1,
    refreshConnection b s
    = (match connection b with
       | Resolved u => Normal u
       | Rejected e => Throw e
       end, s1)
    /\ effects s1
       = effects s ++ [Enter RefreshConnection; Leave RefreshConnection]
    /\ isMountedRef s1 = mountedAfter b 4
    /\ isInitialized s1 = isInitialized s.
Proof.
  destruct s as [cl le st ii no ca rs mo ef].
  destruct b as [el nw cp [[]|e] ob ma]; run;
    (eexists; split; [reflexivity|]); run;
    rewrite <- ?app_assoc; repeat split; reflexivity.
Qed.

Lemma loadNearbyObjects_run (location : Location) (s : State NearbyObject) :
  exists objs s1,
    loadNearbyObjects b location s = (Normal objs, s1)
    /\ effects s1
       = effects s ++ [Enter LoadNearbyObjects; SetInitializationStep 3;
                       GetNearbyObjects (latitude location)
                                        (longitude location) 100 10;
                       Leave LoadNearbyObjects]
    /\ isMountedRef s1 = mountedAfter b 5
    /\ isInitialized s1 = isInitialized s.
Proof.
  destruct s as [cl le st ii no ca rs mo ef].
  destruct b as [el nw cp cn [[objs|]|e] ma]; run;
    (do 2 eexists; split; [reflexivity|]); run;
    rewrite <- ?app_assoc; repeat split; reflexivity.
Qed.

Lemma sleep_run (i ms : nat) (s : State NearbyObject) :
  exists s1,
    sleep b i ms s = (Normal tt, s1)
    /\ effects s1 = effects s ++ [Sleep ms]
    /\ isMountedRef s1 = mountedAfter b i
    /\ isInitialized s1 = isInitialized s.
Proof.
  destruct s as [cl le st ii no ca rs mo ef].
  eexists. split; [reflexivity|]. repeat split; reflexivity.
Qed.

Lemma complete_run (s : State NearbyObject) :
  exists s1,
    (setInitializationStep NearbyObject 4 ;; setIsInitialized NearbyObject true) s
    = (Normal tt, s1)
    /\ effects s1 = effects s ++ [SetInitializationStep 4]
    /\ isInitialized s1 = true
    /\ initializationStep s1 = 4.
Proof.
  destruct s as [cl le st ii no ca rs mo ef].
  eexists. split; [reflexivity|]. repeat split; reflexivity.
Qed.

Lemma setIsInitialized_run (s : State NearbyObject) :
  exists s1,
    setIsInitialized NearbyObject true s = (Normal tt, s1)
    /\ effects s1 = effects s
    /\ isInitialized s1 = true.
Proof.
  destruct s as [cl le st ii no ca rs mo ef].
  eexists. split; [reflexivity|]. split; reflexivity.
Qed.

(** *** Stepping through a sequence of binds *)

Lemma bind_gets {A B} (f : State NearbyObject -> A)
    (k : A -> M (State NearbyObject) B) s :
  bind (gets f) k s = k (f s) s.
Proof. reflexivity. Qed.

Lemma bind_normal {A B} (c : M (State NearbyObject) A)
    (k : A -> M (State NearbyObject) B) s a s1 :
  c s = (Normal a, s1) -> bind c k s = k a s1.
Proof. intros H. unfold bind. now rewrite H. Qed.

Lemma bind_throw {A B} (c : M (State NearbyObject) A)
    (k : A -> M (State NearbyObject) B) s e s1 :
  c s = (Throw e, s1) -> bind c k s = (Throw e, s1).
Proof. intros H. unfold bind. now rewrite H. Qed.

Lemma bind_bind {A B C} (c : M (State NearbyObject) A)
    (k1 : A -> M (State NearbyObject) B)
    (k2 : B -> M (State NearbyObject) C) s :
  bind (bind c k1) k2 s = bind c (fun a => bind (k1 a) k2) s.
Proof. unfold bind. destruct (c s) as [[a|e] s1]; reflexivity. Qed.

Lemma bind_ret {A B} (a : A) (k : A -> M (State NearbyObject) B) s :
  bind (ret a) k s = k a s.
Proof. reflexivity. Qed.

Lemma since_append (s s' : State NearbyObject) (tr : list Effect) :
  effects s' = effects s ++ tr -> since s s' = tr.
Proof.
  intros H. unfold since. rewrite H.
  rewrite skipn_app, skipn_all, Nat.sub_diag. reflexivity.
Qed.

Lemma progress_app (l1 l2 : list Effect) :
  progress (l1 ++ l2) = progress l1 ++ progress l2.
Proof. apply filter_app. Qed.

Lemma progress_cons (e : Effect) (l : list Effect) :
  progress (e :: l) = (if isProgress e then [e] else []) ++ progress l.
Proof. unfold progress. simpl. now destruct (isProgress e). Qed.

Lemma progress_stops (tracks : list CameraView.MediaStreamTrack) :
  progress (map TrackStop tracks) = [].
Proof. induction tracks; simpl; auto. Qed.

Lemma steps_app (l1 l2 : list Effect) :
  steps (l1 ++ l2) = steps l1 ++ steps l2.
Proof. apply flat_map_app. Qed.

Lemma steps_progress (l : list Effect) : steps (progress l) = steps l.
Proof.
  induction l as [|e l IH]; [reflexivity|].
  destruct e; simpl; rewrite ?IH; reflexivity.
Qed.

End Steps.

(** Follow the control flow of a block of binds along the equations and
    ref values in the context. *)
Ltac walk :=
  repeat first
    [ rewrite bind_gets
    | rewrite bind_bind
    | rewrite bind_ret
    | match goal with
      | H : ?c ?s = (Normal ?a, ?s1) |- context [bind ?c ?k ?s] =>
          rewrite (bind_normal c k s a s1 H)
      | H : ?c ?s = (Throw ?e, ?s1) |- context [bind ?c ?k ?s] =>
          rewrite (bind_throw c k s e s1 H)
      | H : isMountedRef ?s = _ |- context [isMountedRef ?s] => rewrite H
      end
    | progress cbn [negb when] ].

(** Collect the effects made since [s] from the equations in the
    context. *)
Ltac collect :=
  repeat match goal with
    | H : effects ?x = _ |- context [effects ?x] => rewrite H
    end;
  rewrite <- ?app_assoc; cbn [app]; rewrite <- ?app_assoc;
  try reflexivity.

Ltac normalize_progress :=
  repeat first [ rewrite progress_cons | rewrite progress_app
               | rewrite progress_stops ];
  change (progress []) with (@nil Effect);
  cbn [isProgress app].

Ltac prefix_of_fullSequence :=
  normalize_progress;
  first [ exists 0; reflexivity | exists 3; reflexivity
        | exists 6; reflexivity | exists 8; reflexivity
        | exists 11; reflexivity | exists 12; reflexivity ].

Lemma initializeApp_run {NearbyObject} (b : Browser NearbyObject)
    (s : State NearbyObject) :
  exists s',
    initializeApp b s = (Normal tt, s')
    /\ (exists n, progress (since s s') = firstn n fullSequence)
    /\ (isMountedRef s = true -> staysMounted b ->
        isInitialized s' = true
        /\ (connection b = Resolved tt ->
            progress (since s s') = fullSequence
            /\ initializationStep s' = 4
            /\ In (GetNearbyObjects (latitude (located b))
                                    (longitude (located b)) 100 10)
                  (since s s'))
        /\ (forall e, connection b = Rejected e ->
                      progress (since s s') = firstn 8 fullSequence)).
Proof.
  unfold initializeApp, try_catch, initializeApp_try.
  destruct (isMountedRef s) eqn:M0.
  2: { walk. exists s. split; [reflexivity|]. split.
       - rewrite (since_append s s []) by now rewrite app_nil_r. now exists 0.
       - discriminate. }
  destruct (initializeLocation_run b s) as (s1 & E1 & F1 & M1 & I1 & _).
  destruct (mountedAfter b 0) eqn:B0.
  2: { walk. exists s1. split; [reflexivity|].
       rewrite (since_append s s1 _ ltac:(collect)). split.
       - prefix_of_fullSequence.
       - intros _ Hm. rewrite Hm in B0. discriminate. }
  destruct (sleep_run b 1 1000 s1) as (s2 & E2 & F2 & M2 & I2).
  destruct (mountedAfter b 1) eqn:B1.
  2: { walk. exists s2. split; [reflexivity|].
       rewrite (since_append s s2 _ ltac:(collect)). split.
       - prefix_of_fullSequence.
       - intros _ Hm. rewrite Hm in B1. discriminate. }
  destruct (initializeCamera_run b s2) as (g & s3 & E3 & F3 & M3 & I3 & _).
  destruct (mountedAfter b 2) eqn:B2.
  2: { walk. exists s3. split; [reflexivity|].
       rewrite (since_append s s3 _ ltac:(collect)). split.
       - prefix_of_fullSequence.
       - intros _ Hm. rewrite Hm in B2. discriminate. }
  destruct (sleep_run b 3 1000 s3) as (s4 & E4 & F4 & M4 & I4).
  destruct (mountedAfter b 3) eqn:B3.
  2: { walk. exists s4. split; [reflexivity|].
       rewrite (since_append s s4 _ ltac:(collect)). split.
       - prefix_of_fullSequence.
       - intros _ Hm. rewrite Hm in B3. discriminate. }
  destruct (refreshConnection_run b s4) as (s5 & E5 & F5 & M5 & I5).
  destruct (connection b) as [[]|e] eqn:C.
  2: { walk. destruct (mountedAfter b 4) eqn:B4; walk.
       - destruct (setIsInitialized_run s5) as (s6 & E6 & F6 & I6).
         rewrite E6. exists s6. split; [reflexivity|].
         rewrite (since_append s s6 _ ltac:(collect)).
         split; [prefix_of_fullSequence|].
         intros _ _. split; [exact I6|]. split; [discriminate|].
         intros _ _. normalize_progress. reflexivity.
       - exists s5. split; [reflexivity|].
         rewrite (since_append s s5 _ ltac:(collect)). split.
         + prefix_of_fullSequence.
         + intros _ Hm. rewrite Hm in B4. discriminate. }
  destruct (loadNearbyObjects_run b (located b) s5)
    as (o & s6 & E6 & F6 & M6 & I6).
  destruct (mountedAfter b 5) eqn:B5.
  2: { walk. exists s6. split; [reflexivity|].
       rewrite (since_append s s6 _ ltac:(collect)). split.
       - prefix_of_fullSequence.
       - intros _ Hm. rewrite Hm in B5. discriminate. }
  destruct (sleep_run b 6 800 s6) as (s7 & E7 & F7 & M7 & I7).
  destruct (mountedAfter b 6) eqn:B6.
  2: { walk. exists s7. split; [reflexivity|].
       rewrite (since_append s s7 _ ltac:(collect)). split.
       - prefix_of_fullSequence.
       - intros _ Hm. rewrite Hm in B6. discriminate. }
  destruct (complete_run s7) as (s8 & E8 & F8 & I8 & St8).
  walk. rewrite E8. exists s8. split; [reflexivity|].
  rewrite (since_append s s8 _ ltac:(collect)). split.
  - prefix_of_fullSequence.
  - intros _ _. split; [exact I8|]. split; [|discriminate].
    intros _. split; [|split; [exact St8|]].
    + normalize_progress. reflexivity.
    + do 8 apply in_cons. apply in_or_app; right.
      cbn [In]. repeat (first [left; reflexivity | right]).
Qed.

Lemma steps_prefix (n : nat) :
  exists m, steps (firstn n fullSequence) = firstn m [1; 2; 3; 4].
Proof.
  do 12 (destruct n as [|n];
         [first [ now exists 0 | now exists 1 | now exists 2
                | now exists 3 | now exists 4 ]|]).
  destruct n; now exists 4.
Qed.

(** *** The claims about the initialization sequence *)





End ARViewerProofs.

(** ** Properties of chain switching *)
Module BlockDAGProofs.
Import BlockDAG.

Lemma isUnrecognizedChain_spec (code : option Z) :
  isUnrecognizedChain code = true <-> code = Some 4902%Z.
Proof.
  unfold isUnrecognizedChain. destruct code as [c|].
  - rewrite Z.eqb_eq. split; [now intros ->|now intros [= ->]].
  - split; discriminate.
Qed.

(** The run of [switchToBlockDAG] for each behaviour of the provider. *)
Lemma switchToBlockDAG_run (p : Provider) (log : list Request) :
  switchToBlockDAG (Some p) log
  = match switchChain p with
    | Fulfilled _ => (Fulfilled true, log ++ [switchRequest])
    | Failed (errorObject e) =>
        if isUnrecognizedChain (err_code e) then
          (match addChain p with
           | Fulfilled _ => Fulfilled true
           | Failed _ => Fulfilled false
           end, log ++ [switchRequest; addRequest])
        else (Fulfilled false, log ++ [switchRequest])
    | Failed _ =>
        (Failed (errorObject (propertyOfNullish "code")),
         log ++ [switchRequest])
    end.
Proof.
  unfold switchToBlockDAG, tryCatch, andThen, request, resolve.
  destruct p as [[[]|[| |e]] ad]; cbn [switchChain addChain readCode reject];
    try reflexivity.
  unfold resolve. destruct (isUnrecognizedChain (err_code e)); [|reflexivity].
  rewrite <- app_assoc. now destruct ad.
Qed.

(** C8, amended.  Whenever the value the switch request is rejected with
    is not [undefined] or [null], [switchToBlockDAG] resolves to a boolean
    and does not throw.  It resolves [false] without any request when
    there is no provider, [false] when the switch fails with a code other
    than 4902 (or with no code) and when the add-chain request fails
    (with any value), [true] when the switch succeeds and when the
    add-chain request succeeds; and it sends [wallet_addEthereumChain]
    exactly when the switch has failed with code 4902. *)
Theorem switchToBlockDAG_total (ethereum : option Provider)
    (log : list Request) :
  switchErrorReadable ethereum = true ->
  exists result sent,
    switchToBlockDAG ethereum log = (Fulfilled result, log ++ sent)
    /\ (ethereum = None -> result = false /\ sent = [])
    /\ (forall p, ethereum = Some p ->
          (switchChain p = Fulfilled tt -> result = true)
          /\ (forall e, switchChain p = Failed (errorObject e) ->
                (err_code e <> Some 4902%Z -> result = false)
                /\ (err_code e = Some 4902%Z ->
                    (addChain p = Fulfilled tt -> result = true)
                    /\ (forall why, addChain p = Failed why ->
                                    result = false))))
    /\ (existsb isAddChain sent = true <->
        exists p e, ethereum = Some p
                    /\ switchChain p = Failed (errorObject e)
                    /\ err_code e = Some 4902%Z).
Proof.
  intros Hr. destruct ethereum as [p|].
  2: { exists false, []. split; [unfold switchToBlockDAG, resolve;
                                 now rewrite app_nil_r|].
       split; [now split|]. split; [discriminate|].
       simpl. split; [discriminate|]. intros (p & e & H & _). discriminate. }
  rewrite switchToBlockDAG_run.
  destruct p as [[[]|[| |e]] ad]; cbn [switchErrorReadable switchChain] in Hr;
    try discriminate; cbn [switchChain addChain].
  - exists true. eexists. split; [reflexivity|]. split; [discriminate|]. split.
    + intros p [= <-]. cbn [switchChain]. split; [reflexivity|discriminate].
    + simpl. split; [discriminate|]. intros (p & e & [= <-] & H & _).
      discriminate.
  - destruct (isUnrecognizedChain (err_code e)) eqn:U.
    + apply isUnrecognizedChain_spec in U.
      destruct ad as [[]|why].
      * exists true. eexists. split; [reflexivity|].
        split; [discriminate|]. split.
        -- intros p [= <-]. cbn [switchChain addChain]. split; [discriminate|].
           intros e0 [= <-]. split; [congruence|]. intros _.
           split; [reflexivity|discriminate].
        -- simpl. split; [|reflexivity]. intros _.
           now exists (mkProvider (Failed (errorObject e)) (Fulfilled tt)), e.
      * exists false. eexists. split; [reflexivity|].
        split; [discriminate|]. split.
        -- intros p [= <-]. cbn [switchChain addChain]. split; [discriminate|].
           intros e0 [= <-]. split; [reflexivity|]. intros _.
           split; [discriminate|reflexivity].
        -- simpl. split; [|reflexivity]. intros _.
           now exists (mkProvider (Failed (errorObject e)) (Failed why)), e.
    + exists false. eexists. split; [reflexivity|].
      split; [discriminate|]. split.
      * intros p [= <-]. cbn [switchChain]. split; [discriminate|].
        intros e0 [= <-]. split; [reflexivity|]. intros H.
        apply isUnrecognizedChain_spec in H. congruence.
      * simpl. split; [discriminate|].
        intros (p & e0 & [= <-] & [= <-] & H).
        apply isUnrecognizedChain_spec in H. congruence.
Qed.

Lemma switchToBlockDAG_total_witness :
  exists result sent,
    (switchErrorReadable (Some Scenarios.freshWallet) = true
     /\ switchChain Scenarios.freshWallet
        = Failed (errorObject Scenarios.unrecognized)
     /\ err_code Scenarios.unrecognized = Some 4902%Z
     /\ addChain Scenarios.freshWallet = Fulfilled tt)
    /\ switchToBlockDAG (Some Scenarios.freshWallet) []
       = (Fulfilled result, sent)
    /\ result = true.
Proof.
  assert (H0 : switchErrorReadable (Some Scenarios.freshWallet) = true)
    by reflexivity.
  destruct (switchToBlockDAG_total (Some Scenarios.freshWallet) [] H0)
    as (result & sent & E & _ & H & _).
  exists result, sent.
  assert (H1 : switchChain Scenarios.freshWallet
               = Failed (errorObject Scenarios.unrecognized)) by reflexivity.
  assert (H2 : err_code Scenarios.unrecognized = Some 4902%Z) by reflexivity.
  assert (H3 : addChain Scenarios.freshWallet = Fulfilled tt) by reflexivity.
  split; [exact (conj H0 (conj H1 (conj H2 H3)))|]. split; [exact E|].
  exact (proj1 (proj2 (proj2 (H _ eq_refl) _ H1) H2) H3).
Defined.

(** C8 as stated fails.  A provider that rejects the switch request with
    [null] makes [switchToBlockDAG] throw: the request is sent, reading
    [switchError.code] raises a TypeError, and nothing catches it.  So it
    is not true that the function resolves to a boolean for every
    provider. *)
Lemma switchToBlockDAG_throws_on_null :
  switchToBlockDAG (Some Scenarios.carelessWallet) []
  = (Failed (errorObject (propertyOfNullish "code")),
     [wallet_switchEthereumChain "0x413"])
  /\ err_name (propertyOfNullish "code") = "TypeError"
  /\ ~ (forall ethereum log,
          exists result log',
            switchToBlockDAG ethereum log = (Fulfilled result, log')).
Proof.
  split; [reflexivity|]. split; [reflexivity|].
  intros H. destruct (H (Some Scenarios.carelessWallet) [])
    as (result & log' & E).
  discriminate.
Qed.

End BlockDAGProofs.

(** ** Further properties of the camera component *)
Module CameraExtras.
Import CameraView CameraViewProofs CameraControls.

Ltac run_cases HR :=
  induction HR as [b l a s s1 Ht | b l a s err s1 s' Ht Ha HR IH
                  | b l a s err s1 s' Ht Ha Hl HR IH | b l a s err s1 Ht Ha Hl].

Lemma startCamera_try_done r browser level attempt s u s1 :
  startCamera_try r browser level attempt s = (Normal u, s1) ->
  retryCount s1 = 0 /\ isRetrying s1 = false.
Proof.
  unfold startCamera_try, bind at 1 2 3 4.
  unfold setError, emit, bind, modify, setIsRetrying. simpl.
  rewrite releaseStream_run. simpl.
  unfold clearVideo, gets, sleep, emit, getUserMedia, bind, modify. simpl.
  destruct browser as [[[[tracks]|]|e] load]; simpl;
    destruct s as [sr vr st er rc rt ef]; simpl;
    destruct vr as [v|]; simpl.
  all: try (destruct tracks as [|t tracks]; simpl).
  all: try (destruct load; simpl).
  all: intros H; inversion H; subst; clear H; simpl.
  all: split; reflexivity.
Qed.

(** *** Leaving [startCamera] *)

Lemma Run_indicators r browser level attempt s s' :
  Run r browser level attempt s s' ->
  retryCount s' = 0 /\ isRetrying s' = false.
Proof.
  intros HR. run_cases HR; auto.
  - eapply startCamera_try_done; eauto.
  - rewrite failed_eq. now split.
Qed.

Lemma Run_streaming r browser level attempt s s' :
  Run r browser level attempt s s' ->
  isStreaming s' = true ->
  let n := count isActivation (since s s') in
  1 <= n
  /\ (exists stream,
         userMedia (browser (n - 1)) = Resolved (Some stream)
         /\ getTracks stream <> []
         /\ streamRef s' = Some stream
         /\ videoRef s' = Some (mkVideo (Some stream)))
  /\ (forall t, In t (heldTracks s) -> In (TrackStop t) (since s s'))
  /\ (forall i stream t,
         i < n - 1 ->
         userMedia (browser i) = Resolved (Some stream) ->
         In t (getTracks stream) ->
         In (TrackStop t) (since s s')).
Proof.
  intros HR. run_cases HR; intros Hs; cbv zeta.
  - rewrite (since_success _ _ _ _ _ _ Ht).
    apply startCamera_try_inv in Ht.
    destruct Ht as (_ & _ & _ & _ & stream & Hu & Hne & Hsr & Hv).
    assert (Hn : count isActivation (tryEffects r l a s) = 1) by now counting.
    rewrite Hn. split; [lia|]. split; [|split].
    + exists stream. now repeat split.
    + intros t Hin. unfold tryEffects. right. right.
      apply in_or_app. left. now apply in_map.
    + intros i stream' t Hi. lia.
  - rewrite (since_retry _ _ _ _ _ _ _ _ _ _ _ Ht HR).
    destruct (IH Hs) as (Hn & (stream & Hu & Hne & Hsr & Hv) & _ & Hall).
    cbv zeta in *.
    set (m := count isActivation (since (retrying a s1) s')) in *.
    assert (E : count isActivation
                  (tryEffects r l a s ++ map TrackStop (heldTracks s1)
                     ++ Sleep 1000 :: since (retrying a s1) s') = S m)
      by (subst m; counting; lia).
    rewrite E. split; [lia|]. split; [|split].
    + exists stream. replace (S m - 1) with (S (m - 1)) by lia.
      now repeat split.
    + intros t Hin. unfold tryEffects. apply in_or_app. left. right. right.
      apply in_or_app. left. now apply in_map.
    + intros i stream' t Hi Hu' Hin.
      apply in_or_app. right. apply in_or_app.
      destruct i as [|j].
      * left. apply startCamera_try_inv in Ht.
        destruct Ht as (_ & _ & _ & _ & Hh & _). rewrite Hh, Hu'.
        now apply in_map.
      * right. right. apply (Hall j stream' t); auto. lia.
  - rewrite (since_retry _ _ _ _ _ _ _ _ _ _ _ Ht HR).
    destruct (IH Hs) as (Hn & (stream & Hu & Hne & Hsr & Hv) & _ & Hall).
    cbv zeta in *.
    set (m := count isActivation (since (retrying 0 s1) s')) in *.
    assert (E : count isActivation
                  (tryEffects r l a s ++ map TrackStop (heldTracks s1)
                     ++ Sleep 1000 :: since (retrying 0 s1) s') = S m)
      by (subst m; counting; lia).
    rewrite E. split; [lia|]. split; [|split].
    + exists stream. replace (S m - 1) with (S (m - 1)) by lia.
      now repeat split.
    + intros t Hin. unfold tryEffects. apply in_or_app. left. right. right.
      apply in_or_app. left. now apply in_map.
    + intros i stream' t Hi Hu' Hin.
      apply in_or_app. right. apply in_or_app.
      destruct i as [|j].
      * left. apply startCamera_try_inv in Ht.
        destruct Ht as (_ & _ & _ & _ & Hh & _). rewrite Hh, Hu'.
        now apply in_map.
      * right. right. apply (Hall j stream' t); auto. lia.
  - rewrite failed_eq in Hs. discriminate.
Qed.

(** X1. When [startCamera] ends streaming, the stream it keeps is the one
    the browser handed out in the last activation: it has tracks, it is in
    [streamRef.current] and in the video element's [srcObject], [error] is
    clear; and nothing else is left open: [stop()] has been called on every
    track of the stream held on entry and of every stream handed out in an
    earlier activation. *)
Theorem startCamera_keeps_last_stream r browser level attempt s s' :
  startCamera r browser level attempt s = (Normal tt, s') ->
  isStreaming s' = true ->
  let n := count isGetUserMedia (since s s') in
  1 <= n
  /\ error s' = None
  /\ (exists stream,
         userMedia (browser (n - 1)) = Resolved (Some stream)
         /\ getTracks stream <> []
         /\ streamRef s' = Some stream
         /\ videoRef s' = Some (mkVideo (Some stream)))
  /\ (forall t, In t (heldTracks s) -> In (TrackStop t) (since s s'))
  /\ (forall i stream t,
         i < n - 1 ->
         userMedia (browser i) = Resolved (Some stream) ->
         In t (getTracks stream) ->
         In (TrackStop t) (since s s')).
Proof.
  intros E Hs.
  destruct (startCamera_Run r browser level attempt s) as (s2 & E2 & HR).
  rewrite E in E2. inversion E2; subst s2.
  cbv zeta. rewrite (Run_requests _ _ _ _ _ _ HR).
  destruct (Run_streaming _ _ _ _ _ _ HR Hs) as (H1 & H2 & H3 & H4).
  destruct (Run_outcome _ _ _ _ _ _ HR) as [(_ & He & _)|(Hf & _)];
    [|congruence].
  repeat split; auto.
Qed.

Lemma startCamera_keeps_last_stream_witness :
  exists s',
    (startCamera Scenarios.view Scenarios.fifth 0 1 Scenarios.streaming
     = (Normal tt, s')
     /\ isStreaming s' = true)
    /\ count isGetUserMedia (since Scenarios.streaming s') = 5
    /\ streamRef s' = Some Scenarios.backCamera
    /\ In (TrackStop (mkMediaTrack "t0" "video" "Back Camera"))
          (since Scenarios.streaming s').
Proof.
  eexists.
  assert (H1 : startCamera Scenarios.view Scenarios.fifth 0 1
                 Scenarios.streaming = (Normal tt, _))
    by (vm_compute; reflexivity).
  match type of H1 with
  | _ = (_, ?s') => assert (H2 : isStreaming s' = true) by reflexivity
  end.
  split; [exact (conj H1 H2)|].
  destruct (startCamera_keeps_last_stream _ _ _ _ _ _ H1 H2)
    as (_ & _ & _ & Hheld & _).
  split; [vm_compute; reflexivity|]. split; [reflexivity|].
  apply Hheld. left. reflexivity.
Defined.

(** X2. However [startCamera] ends, the retry indicators are reset: it
    always returns with [retryCount] at 0 and [isRetrying] false. *)
Theorem startCamera_resets_indicators r browser level attempt s :
  exists s',
    startCamera r browser level attempt s = (Normal tt, s')
    /\ retryCount s' = 0 /\ isRetrying s' = false.
Proof.
  destruct (startCamera_Run r browser level attempt s) as (s' & E & HR).
  exists s'. split; [exact E|]. eapply Run_indicators; eauto.
Qed.

Lemma slept_app (l1 l2 : list Effect) :
  slept (l1 ++ l2) = (slept l1 + slept l2)%N.
Proof.
  induction l1 as [|e l1 IH]; [reflexivity|].
  destruct e; simpl; rewrite IH; lia.
Qed.

Lemma slept_stops (tracks : list MediaStreamTrack) :
  slept (map TrackStop tracks) = 0%N.
Proof. induction tracks; simpl; auto. Qed.

Lemma slept_try r level attempt s :
  slept (tryEffects r level attempt s) = N.of_nat (delay attempt).
Proof.
  unfold tryEffects. cbn [slept].
  rewrite slept_app, slept_stops. cbn [slept]. lia.
Qed.

(** The waits of a run that fails from [attempt] at the last level. *)
Lemma delay_millis :
  N.of_nat (delay 1) = 100%N /\ N.of_nat (delay 2) = 900%N
  /\ N.of_nat (delay 3) = 1100%N.
Proof. repeat split; reflexivity. Qed.

Lemma Run_exhausted r browser level attempt s s' :
  Run r browser level attempt s s' ->
  error s' <> None ->
  1 <= attempt <= maxAttempts -> level <= maxConstraintLevels - 1 ->
  count isGetUserMedia (since s s')
  = (maxAttempts + 1 - attempt) + maxAttempts * (maxConstraintLevels - 1 - level)
  /\ slept (since s s')
     = (match attempt with
        | S O => 4100
        | S (S O) => 3000
        | _ => 1100
        end
        + N.of_nat (maxConstraintLevels - 1 - level) * 5100)%N.
Proof.
  unfold maxAttempts, maxConstraintLevels.
  destruct delay_millis as (D1 & D2 & D3).
  intros HR. run_cases HR; intros Herr Hat Hlv.
  - exfalso. apply startCamera_try_inv in Ht. now apply Herr, Ht.
  - unfold maxAttempts in Ha.
    rewrite (since_retry _ _ _ _ _ _ _ _ _ _ _ Ht HR).
    destruct (IH Herr) as [C W]; [lia|lia|].
    rewrite !slept_app, slept_try, slept_stops. cbn [slept].
    rewrite W. split; [counting; lia|].
    assert (a = 1 \/ a = 2) as [-> | ->] by lia; cbn [Nat.add]; lia.
  - unfold maxAttempts in Ha. unfold maxConstraintLevels in Hl.
    rewrite (since_retry _ _ _ _ _ _ _ _ _ _ _ Ht HR).
    destruct (IH Herr) as [C W]; [lia|lia|].
    rewrite !slept_app, slept_try, slept_stops. cbn [slept].
    rewrite W. assert (a = 3) as -> by lia. split; [counting; lia|]. lia.
  - unfold maxAttempts in Ha. unfold maxConstraintLevels in Hl.
    assert (a = 3) as -> by lia. assert (l = 4) as -> by lia.
    rewrite (since_failure _ _ _ _ _ _ _ Ht).
    rewrite !slept_app, slept_try, slept_stops. split.
    + counting. destruct (onError r); now counting.
    + destruct (onError r); cbn [slept]; lia.
Qed.

Lemma Run_refused r browser level attempt s s' :
  Run r browser level attempt s s' ->
  (forall i, refuses (browser i) = true) ->
  error s' <> None.
Proof.
  intros HR. run_cases HR; intros Hb.
  - exfalso. apply startCamera_try_inv in Ht.
    destruct Ht as (_ & _ & _ & _ & stream & Hu & Hne & _).
    specialize (Hb 0). unfold refuses in Hb. rewrite Hu in Hb.
    apply Nat.eqb_eq in Hb. now destruct (getTracks stream).
  - apply IH. intros i. apply Hb.
  - apply IH. intros i. apply Hb.
  - rewrite failed_eq. discriminate.
Qed.



Lemma Run_without_video r browser level attempt s s' :
  Run r browser level attempt s s' ->
  videoRef s = None ->
  isStreaming s' = false /\ videoRef s' = None.
Proof.
  intros HR. run_cases HR; intros Hv.
  - exfalso. apply startCamera_try_inv in Ht.
    destruct Ht as (_ & _ & Hiff & _ & stream & _ & _ & _ & Hsome).
    apply Hiff in Hv. congruence.
  - apply IH. rewrite retrying_eq. simpl.
    apply startCamera_try_inv in Ht. destruct Ht as (_ & _ & Hiff & _).
    apply Hiff in Hv. now rewrite Hv.
  - apply IH. rewrite retrying_eq. simpl.
    apply startCamera_try_inv in Ht. destruct Ht as (_ & _ & Hiff & _).
    apply Hiff in Hv. now rewrite Hv.
  - rewrite failed_eq. simpl.
    apply startCamera_try_inv in Ht. destruct Ht as (_ & _ & Hiff & _).
    apply Hiff in Hv. now rewrite Hv.
Qed.

(** X4. Without a video element the camera cannot start.  When
    [videoRef.current] is null, [startCamera] still asks the browser for
    the camera (15 times from level 0, attempt 1), but whatever the
    browser answers it ends not streaming, with [error] set and no stream
    kept. *)
Theorem startCamera_needs_video_element r browser s s' :
  videoRef s = None ->
  startCamera r browser 0 1 s = (Normal tt, s') ->
  isStreaming s' = false /\ error s' <> None /\ streamRef s' = None
  /\ count isGetUserMedia (since s s') = 15.
Proof.
  intros Hv E.
  destruct (startCamera_Run r browser 0 1 s) as (s2 & E2 & HR).
  rewrite E in E2. inversion E2; subst s2.
  destruct (Run_without_video _ _ _ _ _ _ HR Hv) as [Hs _].
  destruct (Run_outcome _ _ _ _ _ _ HR) as [(Ht & _)|(_ & He & Hr & _)];
    [congruence|].
  repeat split; auto.
  now apply (Run_exhausted _ _ _ _ _ _ HR He);
    [unfold maxAttempts; lia|unfold maxConstraintLevels; lia].
Qed.

Lemma startCamera_needs_video_element_witness :
  exists s',
    (videoRef (mkState None None false None 0 false []) = None
     /\ startCamera Scenarios.view Scenarios.fifth 0 1
          (mkState None None false None 0 false [])
        = (Normal tt, s'))
    /\ isStreaming s' = false
    /\ error s' = Some "Camera error: Video element not available".
Proof.
  eexists.
  assert (H1 : videoRef (mkState None None false None 0 false []) = None)
    by reflexivity.
  assert (H2 : startCamera Scenarios.view Scenarios.fifth 0 1
                 (mkState None None false None 0 false [])
               = (Normal tt, _)) by (vm_compute; reflexivity).
  split; [exact (conj H1 H2)|].
  split; [|reflexivity].
  exact (proj1 (startCamera_needs_video_element _ _ _ _ H1 H2)).
Defined.

(** X5. [stopCamera] stops what is held, once.  It calls [stop()] on the
    tracks of the stream held in [streamRef.current], each once and in
    their order, and on nothing else, and makes no other call; a second
    call right after the first finds nothing to release, calls nothing
    and leaves the state as it is. *)
Theorem stopCamera_twice (s : State) :
  exists s1,
    stopCamera s = (Normal tt, s1)
    /\ since s s1 = map TrackStop (heldTracks s)
    /\ heldTracks s1 = []
    /\ stopCamera s1 = (Normal tt, s1)
    /\ since s1 s1 = [].
Proof.
  eexists. split; [apply stopCamera_run|]. split.
  - now apply since_app.
  - split; [reflexivity|]. split.
    + rewrite stopCamera_run. unfold heldTracks. simpl.
      rewrite app_nil_r. now destruct (videoRef s).
    + apply since_app. now rewrite app_nil_r.
Qed.

(** *** What is asked of the browser *)

Lemma getConstraints_video_only (f : FacingMode) (level : nat) :
  exists c,
    getConstraints f level = Some c
    /\ audio c = false
    /\ (video c = VideoBool true
        \/ exists t, video c = VideoObject t /\ facingMode t = Some f).
Proof.
  do 5 (destruct level as [|level];
        [eexists; split; [reflexivity|]; split; [reflexivity|];
         first [left; reflexivity | right; eexists; split; reflexivity]|]).
  eexists; split; [reflexivity|]; split; [reflexivity|].
  right; eexists; split; reflexivity.
Qed.

Lemma In_request_stops c (tracks : list MediaStreamTrack) :
  ~ In (GetUserMedia c) (map TrackStop tracks).
Proof. intros H. apply in_map_iff in H. destruct H as (t & H & _). discriminate. Qed.

Lemma In_request_try r level attempt s c :
  In (GetUserMedia c) (tryEffects r level attempt s) ->
  c = getConstraints (cameraFacing r) level.
Proof.
  unfold tryEffects. intros [H|[H|H]]; try discriminate.
  apply in_app_or in H. destruct H as [H|[H|[H|[]]]]; try discriminate.
  - now apply In_request_stops in H.
  - now inversion H.
Qed.

Lemma Run_requests_levels r browser level attempt s s' :
  Run r browser level attempt s s' ->
  forall c, In (GetUserMedia c) (since s s') ->
            exists l, c = getConstraints (cameraFacing r) l.
Proof.
  intros HR. run_cases HR; intros c Hin.
  - rewrite (since_success _ _ _ _ _ _ Ht) in Hin.
    eexists. eapply In_request_try; eauto.
  - rewrite (since_retry _ _ _ _ _ _ _ _ _ _ _ Ht HR) in Hin.
    apply in_app_or in Hin. destruct Hin as [Hin|Hin].
    { eexists. eapply In_request_try; eauto. }
    apply in_app_or in Hin. destruct Hin as [Hin|[Hin|Hin]]; try discriminate.
    { now apply In_request_stops in Hin. }
    now apply IH.
  - rewrite (since_retry _ _ _ _ _ _ _ _ _ _ _ Ht HR) in Hin.
    apply in_app_or in Hin. destruct Hin as [Hin|Hin].
    { eexists. eapply In_request_try; eauto. }
    apply in_app_or in Hin. destruct Hin as [Hin|[Hin|Hin]]; try discriminate.
    { now apply In_request_stops in Hin. }
    now apply IH.
  - rewrite (since_failure _ _ _ _ _ _ _ Ht) in Hin.
    apply in_app_or in Hin. destruct Hin as [Hin|Hin].
    { eexists. eapply In_request_try; eauto. }
    apply in_app_or in Hin. destruct Hin as [Hin|[Hin|Hin]]; try discriminate.
    { now apply In_request_stops in Hin. }
    destruct (onError r); [destruct Hin as [Hin|[]]; discriminate|destruct Hin].
Qed.

(** X6. [startCamera] asks for video only.  Every constraint set it passes
    to [getUserMedia] is defined, has [audio: false], and either is the
    bare [video: true] or asks for the facing mode of the render that
    called it. *)
Theorem startCamera_requests_video_only r browser level attempt s s' :
  startCamera r browser level attempt s = (Normal tt, s') ->
  forall c,
    In (GetUserMedia c) (since s s') ->
    exists c',
      c = Some c' /\ audio c' = false
      /\ (video c' = VideoBool true
          \/ exists t, video c' = VideoObject t
                       /\ facingMode t = Some (cameraFacing r)).
Proof.
  intros E c Hin.
  destruct (startCamera_Run r browser level attempt s) as (s2 & E2 & HR).
  rewrite E in E2. inversion E2; subst s2.
  destruct (Run_requests_levels _ _ _ _ _ _ HR c Hin) as [l ->].
  apply getConstraints_video_only.
Qed.

Lemma startCamera_requests_video_only_witness :
  exists s',
    (startCamera Scenarios.view Scenarios.fifth 0 1 Scenarios.idle
     = (Normal tt, s')
     /\ In (GetUserMedia (getConstraints environment 1))
           (since Scenarios.idle s'))
    /\ exists c',
        getConstraints environment 1 = Some c' /\ audio c' = false
        /\ (video c' = VideoBool true
            \/ exists t, video c' = VideoObject t
                         /\ facingMode t = Some environment).
Proof.
  eexists.
  assert (H1 : startCamera Scenarios.view Scenarios.fifth 0 1 Scenarios.idle
               = (Normal tt, _)) by (vm_compute; reflexivity).
  match type of H1 with
  | _ = (_, ?s') =>
      assert (H2 : In (GetUserMedia (getConstraints environment 1))
                      (since Scenarios.idle s'))
        by (vm_compute; repeat (first [left; reflexivity | right]))
  end.
  split; [exact (conj H1 H2)|].
  exact (startCamera_requests_video_only _ _ _ _ _ _ H1 _ H2).
Defined.

(** *** The message shown to the user *)

Lemma getCameraErrorMessage_nonempty (err : JsError) :
  getCameraErrorMessage err <> "".
Proof.
  unfold getCameraErrorMessage.
  repeat match goal with
         | |- context [if ?c then _ else _] => destruct c
         end; discriminate.
Qed.

Lemma startCamera_try_rejected r browser level attempt s e :
  userMedia browser = Rejected e ->
  exists s1, startCamera_try r browser level attempt s = (Throw e, s1).
Proof.
  intros Hu.
  unfold startCamera_try, bind at 1 2 3 4.
  unfold setError, emit, bind, modify, setIsRetrying. simpl.
  rewrite releaseStream_run. simpl.
  unfold clearVideo, gets, sleep, emit, getUserMedia, bind, modify. simpl.
  rewrite Hu.
  destruct s as [sr [v|] st er rc rt ef]; simpl; eexists; reflexivity.
Qed.

Lemma Run_activated r browser level attempt s s' :
  Run r browser level attempt s s' ->
  1 <= count isActivation (since s s').
Proof.
  intros HR. destruct HR as [b l a s s1 Ht | b l a s err s1 s' Ht Ha HR
                            | b l a s err s1 s' Ht Ha Hl HR
                            | b l a s err s1 Ht Ha Hl].
  - rewrite (since_success _ _ _ _ _ _ Ht). counting. lia.
  - rewrite (since_retry _ _ _ _ _ _ _ _ _ _ _ Ht HR). counting. lia.
  - rewrite (since_retry _ _ _ _ _ _ _ _ _ _ _ Ht HR). counting. lia.
  - rewrite (since_failure _ _ _ _ _ _ _ Ht). counting. lia.
Qed.

Lemma Run_reported r browser level attempt s s' :
  Run r browser level attempt s s' ->
  error s' <> None ->
  let n := count isActivation (since s s') in
  (exists err, error s' = Some (getCameraErrorMessage err))
  /\ forall e,
      userMedia (browser (n - 1)) = Rejected e ->
      error s' = Some (getCameraErrorMessage e)
      /\ (onError r = true -> In (OnError e) (since s s')).
Proof.
  intros HR. run_cases HR; intros Herr; cbv zeta.
  - exfalso. apply startCamera_try_inv in Ht. now apply Herr, Ht.
  - rewrite (since_retry _ _ _ _ _ _ _ _ _ _ _ Ht HR).
    destruct (IH Herr) as [H1 H2]. cbv zeta in H2.
    set (m := count isActivation (since (retrying a s1) s')) in *.
    assert (Hm : 1 <= m) by (subst m; eapply Run_activated; eauto).
    assert (E : count isActivation
                  (tryEffects r l a s ++ map TrackStop (heldTracks s1)
                     ++ Sleep 1000 :: since (retrying a s1) s') = S m)
      by (subst m; counting; lia).
    rewrite E. split; [exact H1|].
    intros e He. replace (S m - 1) with (S (m - 1)) in He by lia.
    destruct (H2 e He) as [H3 H4]. split; [exact H3|].
    intros Hon. apply in_or_app; right. apply in_or_app; right. right. auto.
  - rewrite (since_retry _ _ _ _ _ _ _ _ _ _ _ Ht HR).
    destruct (IH Herr) as [H1 H2]. cbv zeta in H2.
    set (m := count isActivation (since (retrying 0 s1) s')) in *.
    assert (Hm : 1 <= m) by (subst m; eapply Run_activated; eauto).
    assert (E : count isActivation
                  (tryEffects r l a s ++ map TrackStop (heldTracks s1)
                     ++ Sleep 1000 :: since (retrying 0 s1) s') = S m)
      by (subst m; counting; lia).
    rewrite E. split; [exact H1|].
    intros e He. replace (S m - 1) with (S (m - 1)) in He by lia.
    destruct (H2 e He) as [H3 H4]. split; [exact H3|].
    intros Hon. apply in_or_app; right. apply in_or_app; right. right. auto.
  - rewrite (since_failure _ _ _ _ _ _ _ Ht).
    assert (E : count isActivation
                  (tryEffects r l a s ++ map TrackStop (heldTracks s1)
                     ++ SetError (Some (getCameraErrorMessage err))
                     :: (if onError r then [OnError err] else [])) = 1)
      by (counting; destruct (onError r); now counting).
    rewrite E. rewrite failed_eq. cbn [error]. split; [now exists err|].
    intros e He.
    destruct (startCamera_try_rejected r (b 0) l a s e He) as [s2 Ht2].
    rewrite Ht in Ht2. inversion Ht2; subst. split; [reflexivity|].
    intros ->. apply in_or_app; right. apply in_or_app; right.
    right. now left.
Qed.

(** X7. The message of a final failure.  When [startCamera] ends with
    [error] set, the text stored is never empty (so the error banner,
    rendered when [error] is truthy, shows), and when the browser rejected
    the last request with [e] the text is [getCameraErrorMessage e] and
    [onError], if given, received [e]: it is the last failure that is
    reported, whatever the earlier ones were. *)
Theorem startCamera_reports_last_failure r browser level attempt s s' :
  startCamera r browser level attempt s = (Normal tt, s') ->
  error s' <> None ->
  (exists message, error s' = Some message /\ message <> "")
  /\ forall e,
      userMedia (browser (count isGetUserMedia (since s s') - 1)) = Rejected e ->
      error s' = Some (getCameraErrorMessage e)
      /\ (onError r = true -> In (OnError e) (since s s')).
Proof.
  intros E Herr.
  destruct (startCamera_Run r browser level attempt s) as (s2 & E2 & HR).
  rewrite E in E2. inversion E2; subst s2.
  rewrite (Run_requests _ _ _ _ _ _ HR).
  destruct (Run_reported _ _ _ _ _ _ HR Herr) as [[err H1] H2].
  split; [|exact H2].
  exists (getCameraErrorMessage err). split; [exact H1|].
  apply getCameraErrorMessage_nonempty.
Qed.

Lemma startCamera_reports_last_failure_witness :
  exists s',
    (startCamera Scenarios.view Scenarios.refusing 0 1 Scenarios.idle
     = (Normal tt, s')
     /\ error s' <> None)
    /\ error s' = Some (getCameraErrorMessage Scenarios.busy)
    /\ In (OnError Scenarios.busy) (since Scenarios.idle s').
Proof.
  eexists.
  assert (H1 : startCamera Scenarios.view Scenarios.refusing 0 1
                 Scenarios.idle = (Normal tt, _))
    by (vm_compute; reflexivity).
  match type of H1 with
  | _ = (_, ?s') => assert (H2 : error s' <> None) by discriminate
  end.
  split; [exact (conj H1 H2)|].
  destruct (proj2 (startCamera_reports_last_failure _ _ _ _ _ _ H1 H2)
              Scenarios.busy eq_refl) as [A B].
  split; [exact A|exact (B eq_refl)].
Defined.

Lemma prefix_append (sub post : string) :
  String.prefix sub (String.append sub post) = true.
Proof.
  induction sub as [|c sub IH]; simpl.
  - now destruct post.
  - destruct (ascii_dec c c); [exact IH|congruence].
Qed.

Lemma prefix_split (sub s : string) :
  String.prefix sub s = true -> exists post, s = String.append sub post.
Proof.
  revert s. induction sub as [|c sub IH]; intros s H.
  - now exists s.
  - destruct s as [|d s]; simpl in H; [discriminate|].
    destruct (ascii_dec c d) as [->|]; [|discriminate].
    destruct (IH s H) as [post ->]. now exists post.
Qed.

Lemma includes_cons (sub : string) (c : ascii) (s : string) :
  includes sub (String c s)
  = if String.prefix sub (String c s) then true else includes sub s.
Proof. reflexivity. Qed.

(** [includes] is the substring test of [String.prototype.includes]. *)
Lemma includes_spec (sub s : string) :
  includes sub s = true <->
  exists pre post, s = String.append pre (String.append sub post).
Proof.
  split.
  - induction s as [|c s IH].
    + destruct sub as [|d sub]; simpl; [|discriminate].
      intros _. now exists "", "".
    + rewrite includes_cons.
      destruct (String.prefix sub (String c s)) eqn:P.
      * intros _. apply prefix_split in P. destruct P as [post P].
        now exists "", post.
      * intros H. destruct (IH H) as (pre & post & ->).
        now exists (String c pre), post.
  - intros (pre & post & ->). induction pre as [|c pre IH].
    + cbn [String.append]. pose proof (prefix_append sub post) as P.
      destruct (String.append sub post) as [|d rest].
      * destruct sub; [reflexivity|discriminate].
      * rewrite includes_cons. now rewrite P.
    + cbn [String.append]. rewrite includes_cons, IH.
      now destruct (String.prefix sub _).
Qed.

(** X8. Which failures read as a busy camera.  For an error whose name is
    none of the four names tested first, [getCameraErrorMessage] answers
    with the camera-is-busy text exactly when the error's message contains
    'already in use'. *)
Theorem busy_message_by_substring (err : JsError) :
  err_name err <> "NotAllowedError" ->
  err_name err <> "NotFoundError" ->
  err_name err <> "NotSupportedError" ->
  err_name err <> "NotReadableError" ->
  getCameraErrorMessage err
  = "Camera is busy. Please close other apps using the camera and try again."
  <-> exists pre post,
      err_message err
      = String.append pre (String.append "already in use" post).
Proof.
  intros N1 N2 N3 N4. unfold getCameraErrorMessage.
  apply String.eqb_neq in N1, N2, N3, N4. rewrite N1, N2, N3, N4.
  rewrite <- includes_spec. cbn [orb].
  destruct (includes "already in use" (err_message err)).
  - split; reflexivity.
  - split; [|discriminate].
    destruct (String.eqb (err_name err) "OverconstrainedError");
      [discriminate|].
    destruct (includes "Video element failed" (err_message err));
      [discriminate|].
    simpl. discriminate.
Qed.

Lemma busy_message_by_substring_witness :
  (err_name (Error "Device already in use by another app") <> "NotAllowedError"
   /\ err_name (Error "Device already in use by another app") <> "NotFoundError"
   /\ err_name (Error "Device already in use by another app")
      <> "NotSupportedError"
   /\ err_name (Error "Device already in use by another app")
      <> "NotReadableError"
   /\ exists pre post,
       err_message (Error "Device already in use by another app")
       = String.append pre (String.append "already in use" post))
  /\ getCameraErrorMessage (Error "Device already in use by another app")
     = "Camera is busy. Please close other apps using the camera and try again.".
Proof.
  assert (H1 : err_name (Error "Device already in use by another app")
               <> "NotAllowedError") by discriminate.
  assert (H2 : err_name (Error "Device already in use by another app")
               <> "NotFoundError") by discriminate.
  assert (H3 : err_name (Error "Device already in use by another app")
               <> "NotSupportedError") by discriminate.
  assert (H4 : err_name (Error "Device already in use by another app")
               <> "NotReadableError") by discriminate.
  assert (H5 : exists pre post,
             err_message (Error "Device already in use by another app")
             = String.append pre (String.append "already in use" post))
    by (exists "Device ", " by another app"; reflexivity).
  split; [exact (conj H1 (conj H2 (conj H3 (conj H4 H5))))|].
  exact (proj2 (busy_message_by_substring _ H1 H2 H3 H4) H5).
Defined.

(** *** The controls *)

Lemma lift_run {A} (c : M State A) (k : Component) result s :
  c (camera k) = (result, s) ->
  lift c k = (result, mkComponent s (facing k) (toggles k)).
Proof. intros H. unfold lift. now rewrite H. Qed.

Lemma requestedFacing_level (f : FacingMode) (level : nat) :
  requestedFacing (getConstraints f level) = None
  \/ requestedFacing (getConstraints f level) = Some f.
Proof.
  do 5 (destruct level as [|level];
        [first [left; reflexivity | right; reflexivity]|]).
  right; reflexivity.
Qed.

Lemma toggleCamera_run h browser k :
  exists k',
    toggleCamera h browser k = (Normal tt, k')
    /\ facing k' = facing k
    /\ toggles k'
       = toggles k ++ (if onToggle h then [negb (streamingSeen h)] else [])
    /\ (streamingSeen h = false ->
        startCamera (view h) browser 0 1 (camera k) = (Normal tt, camera k'))
    /\ (streamingSeen h = true ->
        stopCamera (camera k) = (Normal tt, camera k')
        /\ isStreaming (camera k') = false
        /\ streamRef (camera k') = None
        /\ count isGetUserMedia (since (camera k) (camera k')) = 0).
Proof.
  unfold toggleCamera, callOnToggle. destruct (streamingSeen h) eqn:Hs.
  - pose proof (stopCamera_run (camera k)) as E.
    unfold bind. rewrite (lift_run _ _ _ _ E).
    assert (C : count isGetUserMedia
                  (map TrackStop (heldTracks (camera k))) = 0)
      by now counting.
    destruct (onToggle h); cbn [when modify ret camera facing toggles negb];
      eexists; (split; [reflexivity|]); cbn [camera facing toggles];
      rewrite ?app_nil_r;
      (split; [reflexivity|]); (split; [reflexivity|]);
      (split; [discriminate|]); intros _;
      (split; [exact E|]); (split; [reflexivity|]); (split; [reflexivity|]);
      rewrite (since_app (camera k) _ (map TrackStop (heldTracks (camera k))))
        by reflexivity;
      exact C.
  - destruct (startCamera_Run (view h) browser 0 1 (camera k)) as (s' & E & _).
    unfold bind. rewrite (lift_run _ _ _ _ E).
    destruct (onToggle h); cbn [when modify ret camera facing toggles negb];
      eexists; (split; [reflexivity|]); cbn [camera facing toggles];
      rewrite ?app_nil_r;
      (split; [reflexivity|]); (split; [reflexivity|]);
      (split; [|discriminate]); intros _; exact E.
Qed.

(** X9. The toggle button reports what it tried, not what happened.  Pressed
    while the render saw the camera off, [toggleCamera] runs [startCamera]
    and then calls [onToggle(true)], also when the camera did not start;
    pressed while the render saw it on, it releases the camera without
    asking the browser for anything and calls [onToggle(false)].  It never
    throws. *)
Theorem toggleCamera_reports_intent h browser k :
  (exists k', toggleCamera h browser k = (Normal tt, k'))
  /\ forall k',
      toggleCamera h browser k = (Normal tt, k') ->
      facing k' = facing k
      /\ toggles k'
         = toggles k ++ (if onToggle h then [negb (streamingSeen h)] else [])
      /\ (streamingSeen h = false ->
          startCamera (view h) browser 0 1 (camera k) = (Normal tt, camera k'))
      /\ (streamingSeen h = true ->
          stopCamera (camera k) = (Normal tt, camera k')
          /\ isStreaming (camera k') = false
          /\ streamRef (camera k') = None
          /\ count isGetUserMedia (since (camera k) (camera k')) = 0).
Proof.
  destruct (toggleCamera_run h browser k) as (k0 & E0 & H).
  split; [now exists k0|].
  intros k' E. rewrite E0 in E. inversion E; subst k'. exact H.
Qed.

Lemma toggleCamera_reports_intent_witness :
  exists k',
    (toggleCamera (mkHandlers Scenarios.view false false true)
       Scenarios.refusing (mkComponent Scenarios.idle environment [])
     = (Normal tt, k'))
    /\ isStreaming (camera k') = false
    /\ toggles k' = [true].
Proof.
  eexists.
  assert (H1 : toggleCamera (mkHandlers Scenarios.view false false true)
                 Scenarios.refusing (mkComponent Scenarios.idle environment [])
               = (Normal tt, _)) by (vm_compute; reflexivity).
  split; [exact H1|]. split; [reflexivity|].
  exact (proj1 (proj2 (proj2 (toggleCamera_reports_intent _ _ _) _ H1))).
Defined.

Lemma switchCamera_run h browser k :
  exists k',
    switchCamera h browser k = (Normal tt, k')
    /\ facing k' <> cameraFacing (view h)
    /\ toggles k' = toggles k
    /\ (streamingSeen h = false -> camera k' = camera k)
    /\ (streamingSeen h = true ->
        (exists rest,
            since (camera k) (camera k')
            = map TrackStop (heldTracks (camera k))
                ++ Sleep 300 :: Activation 0 1 :: rest)
        /\ forall c,
            In (GetUserMedia c) (since (camera k) (camera k')) ->
            requestedFacing c <> Some (facing k')).
Proof.
  assert (Hflip : forall f,
             (if facing_eqb f environment then user else environment) <> f)
    by (intros [|]; discriminate).
  unfold switchCamera, setCameraFacing. unfold bind at 1. unfold modify.
  destruct (streamingSeen h) eqn:Hs.
  - pose proof (stopCamera_run (camera k)) as E1.
    set (k1 := mkComponent (camera k) _ (toggles k)).
    unfold bind at 1. rewrite (lift_run _ k1 _ _ E1).
    unfold bind at 1. unfold lift at 1, sleep, emit, modify.
    cbn [camera facing toggles].
    match goal with
    | |- context [lift _ (mkComponent ?s2 _ _)] =>
        destruct (startCamera_Run (view h) browser 0 1 s2) as (s' & E & HR);
        set (s2' := s2) in *
    end.
    rewrite (lift_run _ (mkComponent s2' (facing k1) (toggles k1)) _ _ E).
    cbn [camera facing toggles].
    eexists. split; [reflexivity|]. subst k1. cbn [camera facing toggles].
    split; [apply Hflip|]. split; [reflexivity|]. split; [discriminate|].
    intros _.
    assert (Es : effects s'
                 = effects (camera k)
                     ++ (map TrackStop (heldTracks (camera k)) ++ [Sleep 300])
                     ++ since s2' s').
    { rewrite (Run_effects _ _ _ _ _ _ HR). subst s2'. cbn [effects].
      now rewrite !app_assoc. }
    rewrite (since_app _ _ _ Es). split.
    + assert (exists rest, since s2' s' = Activation 0 1 :: rest) as [rest ->].
      { inversion HR; subst;
          match goal with
          | H : startCamera_try _ _ _ _ _ = _ |- _ =>
              first [ rewrite (since_success _ _ _ _ _ _ H)
                    | rewrite (since_failure _ _ _ _ _ _ _ H)
                    | erewrite since_retry by eauto ]
          end; unfold tryEffects; eexists; reflexivity. }
      exists rest. now rewrite <- app_assoc.
    + intros c Hin. apply in_app_or in Hin. destruct Hin as [Hin|Hin].
      * apply in_app_or in Hin. destruct Hin as [Hin|[Hin|[]]];
          [now apply In_request_stops in Hin|discriminate].
      * destruct (Run_requests_levels _ _ _ _ _ _ HR c Hin) as [l ->].
        destruct (requestedFacing_level (cameraFacing (view h)) l) as [-> | ->];
          [discriminate|].
        intros [= H]. symmetry in H. now apply Hflip in H.
  - eexists. split; [reflexivity|]. cbn [camera facing toggles].
    split; [apply Hflip|]. split; [reflexivity|]. split; [reflexivity|].
    discriminate.
Qed.

(** X10. The switch button restarts the camera with the facing mode it is
    switching away from.  [switchCamera] sets [cameraFacing] to the other
    mode; when the render saw the camera on it then stops it, waits 300 ms
    and runs the [startCamera] of the same render, so no request of that
    run asks for the new facing mode.  When the render saw the camera off
    only [cameraFacing] changes.  It never throws. *)
Theorem switchCamera_requests_old_facing h browser k :
  (exists k', switchCamera h browser k = (Normal tt, k'))
  /\ forall k',
      switchCamera h browser k = (Normal tt, k') ->
      facing k' <> cameraFacing (view h)
      /\ toggles k' = toggles k
      /\ (streamingSeen h = false -> camera k' = camera k)
      /\ (streamingSeen h = true ->
          (exists rest,
              since (camera k) (camera k')
              = map TrackStop (heldTracks (camera k))
                  ++ Sleep 300 :: Activation 0 1 :: rest)
          /\ forall c,
              In (GetUserMedia c) (since (camera k) (camera k')) ->
              requestedFacing c <> Some (facing k')).
Proof.
  destruct (switchCamera_run h browser k) as (k0 & E0 & H).
  split; [now exists k0|].
  intros k' E. rewrite E0 in E. inversion E; subst k'. exact H.
Qed.

Lemma switchCamera_requests_old_facing_witness :
  exists k',
    (switchCamera (mkHandlers Scenarios.view true true true)
       Scenarios.fifth (mkComponent Scenarios.streaming environment [])
     = (Normal tt, k')
     /\ streamingSeen (mkHandlers Scenarios.view true true true) = true)
    /\ facing k' = user
    /\ forall c,
        In (GetUserMedia c) (since Scenarios.streaming (camera k')) ->
        requestedFacing c <> Some (facing k').
Proof.
  eexists.
  assert (H1 : switchCamera (mkHandlers Scenarios.view true true true)
                 Scenarios.fifth
                 (mkComponent Scenarios.streaming environment [])
               = (Normal tt, _)) by (vm_compute; reflexivity).
  assert (H2 : streamingSeen (mkHandlers Scenarios.view true true true) = true)
    by reflexivity.
  split; [exact (conj H1 H2)|]. split; [reflexivity|].
  exact (proj2 (proj2 (proj2 (proj2
           (proj2 (switchCamera_requests_old_facing _ _ _) _ H1))) H2)).
Defined.

(** *** A call that nobody awaits *)

Lemma unmount_run (s : State) :
  unmount s
  = (Normal tt,
     mkState None None false (error s) (retryCount s) (isRetrying s)
       (effects s ++ map TrackStop (heldTracks s))).
Proof.
  unfold unmount, bind. rewrite stopCamera_run. reflexivity.
Qed.

Lemma suspended_run (u : bool) (s : State) :
  suspended u s
  = (Normal tt,
     if u then
       mkState None None false (error s) (retryCount s) (isRetrying s)
         (effects s ++ map TrackStop (heldTracks s))
     else s).
Proof. destruct u; [apply unmount_run|reflexivity]. Qed.

Lemma resumed_eq (u : bool) (n : nat) (s : State) :
  resumed u n s
  = mkState None
      (if u then None
       else match videoRef s with
            | Some _ => Some (mkVideo None)
            | None => None
            end)
      (if u then false else isStreaming s) (error s) n (isRetrying s)
      (effects s ++ map TrackStop (heldTracks s) ++ [Sleep 1000]).
Proof.
  unfold resumed. rewrite suspended_run, retrying_eq.
  destruct u; cbn [snd]; [|reflexivity].
  unfold heldTracks at 1. cbn. now rewrite app_nil_r.
Qed.

(** Everything one [try] block does when the component can be unmounted
    under it. *)
Lemma try_unawaited_inv r browser u level attempt s res s1 :
  startCamera_try_unawaited r browser u level attempt s = (res, s1) ->
  exists tr,
    effects s1 = effects s ++ Activation level attempt :: tr
    /\ count isActivation tr = 0
    /\ count isGetUserMedia tr = 1
    /\ (videoRef s = None \/ u delayWait = true \/ u requestWait = true ->
        videoRef s1 = None /\ exists err, res = Throw err)
    /\ (forall track, In track (heldTracks s) -> In (TrackStop track) tr)
    /\ (forall stream track,
          userMedia browser = Resolved (Some stream) ->
          In track (getTracks stream) ->
          In (TrackStop track) tr \/ streamRef s1 = Some stream)
    /\ (res = Normal tt -> videoRef s1 = None -> streamRef s1 = None).
Proof.
  unfold startCamera_try_unawaited, bind at 1 2 3 4.
  unfold setError, emit, bind, modify, setIsRetrying. simpl.
  rewrite releaseStream_run. simpl.
  unfold clearVideo, gets, sleep, emit, bind, modify. simpl.
  destruct s as [sr vr st er rc rt ef]; simpl.
  destruct vr as [v|]; simpl; rewrite !suspended_run; simpl.
  all: destruct (u delayWait); simpl; rewrite ?suspended_run; simpl.
  all: destruct (u requestWait); simpl.
  all: destruct browser as [[[[tracks]|]|e] load]; simpl.
  all: try (destruct tracks as [|t tracks]; simpl).
  all: rewrite ?suspended_run; simpl.
  all: try (destruct (u videoWait); simpl).
  all: try (destruct load; simpl).
  all: intros H; inversion H; subst; clear H; simpl.
  all: unfold heldTracks; simpl.
  all: eexists; split;
    [repeat (rewrite <- app_assoc; simpl); reflexivity|].
  all: split; [now counting|].
  all: split; [now counting|].
  all: split;
    [first [ intros _; split; [reflexivity|eexists; reflexivity]
           | intros [H|[H|H]]; discriminate ]|].
  all: split;
    [intros track Hin; right; apply in_or_app; left; now apply in_map|].
  all: split; [|try reflexivity; try discriminate].
  all: try (intros stream track Hs Hin; inversion Hs; subst; simpl in Hin).
  all: try tauto.
  all: try (right; reflexivity).
  all: left; right; apply in_or_app; right; do 2 right;
    change (In (TrackStop track) (map TrackStop (t :: tracks)));
    now apply in_map.
Qed.

Lemma startCamera_unawaited_step r browser u level attempt s :
  startCamera_unawaited r browser u level attempt s
  = match startCamera_try_unawaited r (browser 0) (u 0) level attempt s with
    | (Normal a, s1) => (Normal a, s1)
    | (Throw err, s1) =>
        if attempt <? maxAttempts then
          startCamera_unawaited r (fun i => browser (S i)) (fun i => u (S i))
            level (attempt + 1)
            (resumed (u 0 retryWait) attempt s1)
        else if level <? maxConstraintLevels - 1 then
          startCamera_unawaited r (fun i => browser (S i)) (fun i => u (S i))
            (level + 1) 1
            (resumed (u 0 retryWait) 0 s1)
        else (Normal tt, failed r err s1)
    end.
Proof.
  rewrite startCamera_unawaited_equation_1. unfold try_catch.
  destruct (startCamera_try_unawaited r (browser 0) (u 0) level attempt s)
    as [[a|err] s1]; [reflexivity|].
  unfold bind at 1. rewrite releaseStream_run.
  unfold bind at 1.
  assert (Hc : forall s0, clearVideo s0
               = (Normal tt,
                  mkState (streamRef s0)
                    (match videoRef s0 with
                     | Some _ => Some (mkVideo None) | None => None end)
                    (isStreaming s0) (error s0) (retryCount s0)
                    (isRetrying s0) (effects s0)))
    by (intros [sr [v|] st er rc rt ef]; reflexivity).
  rewrite Hc; simpl.
  change (maxConstraintLevels - 1) with 4.
  destruct (lt_dec attempt maxAttempts) as [Ha|Ha].
  - apply Nat.ltb_lt in Ha. rewrite Ha.
    unfold resumed. rewrite retrying_eq.
    unfold bind at 1 2, setRetryCount, sleep, emit, modify; simpl.
    rewrite <- app_assoc. unfold bind. rewrite suspended_run. reflexivity.
  - apply Nat.ltb_nlt in Ha. rewrite Ha.
    destruct (lt_dec level 4) as [Hl|Hl].
    + apply Nat.ltb_lt in Hl. rewrite Hl.
      unfold resumed. rewrite retrying_eq.
      unfold bind at 1 2, setRetryCount, sleep, emit, modify; simpl.
      rewrite <- app_assoc. unfold bind. rewrite suspended_run. reflexivity.
    + apply Nat.ltb_nlt in Hl. rewrite Hl.
      unfold failed. rewrite cleaned_eq.
      destruct (allAttemptsFailed r err _) as [c s2] eqn:E.
      assert (c = Normal tt) as ->.
      { revert E. unfold allAttemptsFailed, when, bind, setError, emit,
                    setIsStreaming, setRetryCount, setIsRetrying, modify, ret.
        simpl. destruct (onError r); intros E; now inversion E. }
      reflexivity.
Qed.


Lemma startCamera_unawaited_Run r browser u level attempt s :
  exists s', startCamera_unawaited r browser u level attempt s = (Normal tt, s')
             /\ RunUnawaited r browser u level attempt s s'.
Proof.
  remember (remaining level attempt) as n eqn:Hn.
  revert browser u level attempt s Hn.
  induction n as [n IH] using lt_wf_ind; intros browser u level attempt s Hn.
  rewrite startCamera_unawaited_step.
  destruct (startCamera_try_unawaited r (browser 0) (u 0) level attempt s)
    as [[[]|err] s1] eqn:E.
  - exists s1. split; [reflexivity|]. now apply Unawaited_success.
  - destruct (attempt <? maxAttempts) eqn:Ha.
    + apply Nat.ltb_lt in Ha.
      destruct (IH (remaining level (attempt + 1))) with
        (browser := fun i => browser (S i)) (u := fun i => u (S i))
        (level := level) (attempt := attempt + 1)
        (s := resumed (u 0 retryWait) attempt s1)
        as [s' [Hs' HR]]; [|reflexivity|].
      { subst n. unfold remaining, maxAttempts, maxConstraintLevels in *. lia. }
      exists s'. split; [exact Hs'|]. eapply Unawaited_retry; eauto.
    + apply Nat.ltb_nlt in Ha.
      destruct (level <? maxConstraintLevels - 1) eqn:Hl.
      * apply Nat.ltb_lt in Hl.
        destruct (IH (remaining (level + 1) 1)) with
          (browser := fun i => browser (S i)) (u := fun i => u (S i))
          (level := level + 1) (attempt := 1)
          (s := resumed (u 0 retryWait) 0 s1)
          as [s' [Hs' HR]]; [|reflexivity|].
        { subst n. unfold remaining, maxAttempts, maxConstraintLevels in *. lia. }
        exists s'. split; [exact Hs'|]. eapply Unawaited_fallback; eauto.
      * apply Nat.ltb_nlt in Hl.
        exists (failed r err s1). split; [reflexivity|].
        now apply Unawaited_failure.
Qed.

Ltac unawaited_cases HR :=
  induction HR as [b u l a s s1 Ht | b u l a s err s1 s' Ht Ha HR IH
                  | b u l a s err s1 s' Ht Ha Hl HR IH
                  | b u l a s err s1 Ht Ha Hl].

Lemma since_trans (s s1 s' : State) (tr1 tr2 : list Effect) :
  effects s1 = effects s ++ tr1 ->
  effects s' = effects s1 ++ tr2 ->
  since s s' = tr1 ++ tr2.
Proof.
  intros H1 H2. apply since_app. rewrite H2, H1. now rewrite app_assoc.
Qed.

Lemma resumed_effects (u : bool) (n : nat) (s1 s' : State) tr :
  effects s' = effects (resumed u n s1) ++ tr ->
  effects s'
  = effects s1 ++ map TrackStop (heldTracks s1) ++ Sleep 1000 :: tr.
Proof.
  intros H. rewrite H, resumed_eq. cbn [effects].
  rewrite <- !app_assoc. reflexivity.
Qed.

Lemma failed_effects (r : Render) (err : JsError) (s1 : State) :
  effects (failed r err s1)
  = effects s1 ++ map TrackStop (heldTracks s1)
      ++ SetError (Some (getCameraErrorMessage err))
      :: (if onError r then [OnError err] else []).
Proof. rewrite failed_eq. reflexivity. Qed.

(** The effects of a run, activation by activation. *)
Lemma RunUnawaited_effects r browser u level attempt s s' :
  RunUnawaited r browser u level attempt s s' ->
  effects s' = effects s ++ since s s'.
Proof.
  intros HR. unawaited_cases HR.
  - apply try_unawaited_inv in Ht. destruct Ht as (tr & E & _).
    now rewrite (since_app _ _ _ E).
  - apply try_unawaited_inv in Ht. destruct Ht as (tr & E & _).
    apply resumed_effects in IH.
    rewrite (since_trans s s1 s' _ _ E IH). rewrite IH, E.
    now rewrite !app_assoc.
  - apply try_unawaited_inv in Ht. destruct Ht as (tr & E & _).
    apply resumed_effects in IH.
    rewrite (since_trans s s1 s' _ _ E IH). rewrite IH, E.
    now rewrite !app_assoc.
  - apply try_unawaited_inv in Ht. destruct Ht as (tr & E & _).
    pose proof (failed_effects r err s1) as E2.
    rewrite (since_trans s s1 _ _ _ E E2). rewrite E2, E.
    now rewrite !app_assoc.
Qed.

Lemma unawaited_since_retry r browser u level attempt s err s1 n
    b' u' l' a' s' :
  startCamera_try_unawaited r browser u level attempt s = (Throw err, s1) ->
  RunUnawaited r b' u' l' a' (resumed (u retryWait) n s1) s' ->
  since s s'
  = since s s1 ++ map TrackStop (heldTracks s1)
      ++ Sleep 1000 :: since (resumed (u retryWait) n s1) s'.
Proof.
  intros Ht HR. apply try_unawaited_inv in Ht. destruct Ht as (tr & E & _).
  apply RunUnawaited_effects, resumed_effects in HR.
  rewrite (since_trans s s1 s' _ _ E HR). now rewrite (since_app _ _ _ E).
Qed.

Lemma unawaited_since_failure r browser u level attempt s err s1 :
  startCamera_try_unawaited r browser u level attempt s = (Throw err, s1) ->
  since s (failed r err s1)
  = since s s1 ++ map TrackStop (heldTracks s1)
      ++ SetError (Some (getCameraErrorMessage err))
      :: (if onError r then [OnError err] else []).
Proof.
  intros Ht. apply try_unawaited_inv in Ht. destruct Ht as (tr & E & _).
  rewrite (since_trans s s1 _ _ _ E (failed_effects r err s1)).
  now rewrite (since_app _ _ _ E).
Qed.

(** One [try] block, in terms of the effects it adds. *)
Lemma try_unawaited_since r browser u level attempt s res s1 :
  startCamera_try_unawaited r browser u level attempt s = (res, s1) ->
  count isActivation (since s s1) = 1
  /\ count isGetUserMedia (since s s1) = 1
  /\ (videoRef s = None \/ u delayWait = true \/ u requestWait = true ->
      videoRef s1 = None /\ exists err, res = Throw err)
  /\ (forall track, In track (heldTracks s) ->
                    In (TrackStop track) (since s s1))
  /\ (forall stream track,
        userMedia browser = Resolved (Some stream) ->
        In track (getTracks stream) ->
        In (TrackStop track) (since s s1) \/ streamRef s1 = Some stream)
  /\ (res = Normal tt -> videoRef s1 = None -> streamRef s1 = None).
Proof.
  intros Ht. apply try_unawaited_inv in Ht.
  destruct Ht as (tr & E & C1 & C2 & V & H & T & N).
  rewrite (since_app _ _ _ E).
  split; [counting; lia|]. split; [counting; lia|]. split; [exact V|].
  split; [intros t Hin; right; now apply H|]. split; [|exact N].
  intros stream t Hu Hin. destruct (T stream t Hu Hin) as [Hs|Hs];
    [left; now right|now right].
Qed.

(** As many requests as activations, and at least one. *)
Lemma RunUnawaited_requests r browser u level attempt s s' :
  RunUnawaited r browser u level attempt s s' ->
  count isGetUserMedia (since s s') = count isActivation (since s s')
  /\ 1 <= count isActivation (since s s').
Proof.
  intros HR. unawaited_cases HR.
  - apply try_unawaited_since in Ht. destruct Ht as (C1 & C2 & _). lia.
  - rewrite (unawaited_since_retry _ _ _ _ _ _ _ _ _ _ _ _ _ _ Ht HR).
    apply try_unawaited_since in Ht. destruct Ht as (C1 & C2 & _).
    counting. lia.
  - rewrite (unawaited_since_retry _ _ _ _ _ _ _ _ _ _ _ _ _ _ Ht HR).
    apply try_unawaited_since in Ht. destruct Ht as (C1 & C2 & _).
    counting. lia.
  - rewrite (unawaited_since_failure _ _ _ _ _ _ _ _ Ht).
    apply try_unawaited_since in Ht. destruct Ht as (C1 & C2 & _).
    counting. destruct (onError r); counting; lia.
Qed.

(** Once the video element is gone the camera cannot start any more: the
    run takes the whole schedule and ends by reporting the error. *)
Lemma RunUnawaited_gone r browser u level attempt s s' :
  RunUnawaited r browser u level attempt s s' ->
  videoRef s = None \/ u 0 delayWait = true \/ u 0 requestWait = true ->
  videoRef s' = None
  /\ (exists err,
         In (SetError (Some (getCameraErrorMessage err))) (since s s')
         /\ (onError r = true -> In (OnError err) (since s s')))
  /\ (1 <= attempt <= maxAttempts -> level <= maxConstraintLevels - 1 ->
      count isActivation (since s s')
      = (maxAttempts + 1 - attempt)
        + maxAttempts * (maxConstraintLevels - 1 - level)).
Proof.
  unfold maxAttempts, maxConstraintLevels.
  intros HR. unawaited_cases HR; intros Hg.
  - exfalso. apply try_unawaited_since in Ht.
    destruct Ht as (_ & _ & V & _). destruct (V Hg) as (_ & e & He).
    discriminate.
  - unfold maxAttempts in Ha.
    rewrite (unawaited_since_retry _ _ _ _ _ _ _ _ _ _ _ _ _ _ Ht HR).
    apply try_unawaited_since in Ht. destruct Ht as (C1 & _ & V & _).
    destruct (V Hg) as (V1 & _).
    destruct IH as (I1 & (e & I2 & I3) & I4).
    { left. rewrite resumed_eq. cbn [videoRef]. rewrite V1.
      now destruct (u 0 retryWait). }
    split; [exact I1|]. split.
    + exists e. split; [|intros Ho]; apply in_or_app; right;
        apply in_or_app; right; right; auto.
    + intros Hat Hlv. counting. rewrite I4; lia.
  - unfold maxAttempts in Ha. unfold maxConstraintLevels in Hl.
    rewrite (unawaited_since_retry _ _ _ _ _ _ _ _ _ _ _ _ _ _ Ht HR).
    apply try_unawaited_since in Ht. destruct Ht as (C1 & _ & V & _).
    destruct (V Hg) as (V1 & _).
    destruct IH as (I1 & (e & I2 & I3) & I4).
    { left. rewrite resumed_eq. cbn [videoRef]. rewrite V1.
      now destruct (u 0 retryWait). }
    split; [exact I1|]. split.
    + exists e. split; [|intros Ho]; apply in_or_app; right;
        apply in_or_app; right; right; auto.
    + intros Hat Hlv. counting. rewrite I4; lia.
  - unfold maxAttempts in Ha. unfold maxConstraintLevels in Hl.
    rewrite (unawaited_since_failure _ _ _ _ _ _ _ _ Ht).
    apply try_unawaited_since in Ht. destruct Ht as (C1 & _ & V & _).
    destruct (V Hg) as (V1 & _). rewrite failed_eq. cbn [videoRef].
    rewrite V1. split; [reflexivity|]. split.
    + exists err. split.
      * apply in_or_app; right. apply in_or_app; right. now left.
      * intros Ho. rewrite Ho. apply in_or_app; right. apply in_or_app; right.
        right. now left.
    + intros Hat Hlv. counting. destruct (onError r); counting; lia.
Qed.

(** Nothing is left open behind an unmounted component. *)
Lemma RunUnawaited_closed r browser u level attempt s s' :
  RunUnawaited r browser u level attempt s s' ->
  (videoRef s' = None -> streamRef s' = None)
  /\ (forall track, In track (heldTracks s) ->
                    In (TrackStop track) (since s s'))
  /\ (forall i stream track,
        i < count isActivation (since s s') ->
        userMedia (browser i) = Resolved (Some stream) ->
        In track (getTracks stream) ->
        In (TrackStop track) (since s s') \/ streamRef s' = Some stream).
Proof.
  intros HR. unawaited_cases HR.
  - apply try_unawaited_since in Ht.
    destruct Ht as (C1 & _ & _ & H & T & N).
    split; [now apply N|]. split; [exact H|].
    intros i stream t Hi. rewrite C1 in Hi.
    assert (i = 0) as -> by lia. apply T.
  - rewrite (unawaited_since_retry _ _ _ _ _ _ _ _ _ _ _ _ _ _ Ht HR).
    apply try_unawaited_since in Ht.
    destruct Ht as (C1 & _ & _ & H & T & _).
    destruct IH as (I1 & _ & I3).
    split; [exact I1|]. split.
    { intros t Hin. apply in_or_app. left. now apply H. }
    intros i stream t Hi Hu Hin. revert Hi. counting. intros Hi.
    destruct i as [|j].
    + left. destruct (T stream t Hu Hin) as [Hs|Hs].
      * apply in_or_app. now left.
      * apply in_or_app. right. apply in_or_app. left.
        unfold heldTracks. rewrite Hs. now apply in_map.
    + destruct (I3 j stream t) as [Hs|Hs]; auto; [lia|].
      left. apply in_or_app. right. apply in_or_app. right. now right.
  - rewrite (unawaited_since_retry _ _ _ _ _ _ _ _ _ _ _ _ _ _ Ht HR).
    apply try_unawaited_since in Ht.
    destruct Ht as (C1 & _ & _ & H & T & _).
    destruct IH as (I1 & _ & I3).
    split; [exact I1|]. split.
    { intros t Hin. apply in_or_app. left. now apply H. }
    intros i stream t Hi Hu Hin. revert Hi. counting. intros Hi.
    destruct i as [|j].
    + left. destruct (T stream t Hu Hin) as [Hs|Hs].
      * apply in_or_app. now left.
      * apply in_or_app. right. apply in_or_app. left.
        unfold heldTracks. rewrite Hs. now apply in_map.
    + destruct (I3 j stream t) as [Hs|Hs]; auto; [lia|].
      left. apply in_or_app. right. apply in_or_app. right. now right.
  - rewrite (unawaited_since_failure _ _ _ _ _ _ _ _ Ht).
    apply try_unawaited_since in Ht.
    destruct Ht as (C1 & _ & _ & H & T & _).
    split; [intros _; now rewrite failed_eq|]. split.
    { intros t Hin. apply in_or_app. left. now apply H. }
    intros i stream t Hi Hu Hin. revert Hi. counting.
    assert (Hz : count isActivation
                   (if onError r then [OnError err] else []) = 0)
      by (destruct (onError r); reflexivity).
    rewrite Hz. intros Hi. assert (i = 0) as -> by lia.
    left. destruct (T stream t Hu Hin) as [Hs|Hs].
    + apply in_or_app. now left.
    + apply in_or_app. right. apply in_or_app. left.
      unfold heldTracks. rewrite Hs. now apply in_map.
Qed.


(** While the component stays mounted the unawaited call is the plain
    one. *)
Lemma try_unawaited_mounted r browser u level attempt s :
  (forall w, u w = false) ->
  startCamera_try_unawaited r browser u level attempt s
  = startCamera_try r browser level attempt s.
Proof.
  intros Hu.
  unfold startCamera_try_unawaited, startCamera_try, bind at 1 2 3 4.
  unfold bind at 5 6 7 8.
  unfold setError, emit, bind, modify, setIsRetrying. simpl.
  rewrite !releaseStream_run. simpl.
  unfold clearVideo, gets, sleep, emit, getUserMedia, bind, modify. simpl.
  rewrite !Hu. unfold suspended, when, ret.
  destruct s as [sr vr st er rc rt ef]; simpl.
  destruct vr as [v|]; simpl.
  all: destruct browser as [[[[tracks]|]|e] load]; simpl; try reflexivity.
  all: destruct tracks as [|t tracks]; simpl; try reflexivity.
  all: destruct load; reflexivity.
Qed.

Lemma startCamera_unawaited_mounted r browser u level attempt s :
  (forall i w, u i w = false) ->
  startCamera_unawaited r browser u level attempt s
  = startCamera r browser level attempt s.
Proof.
  remember (remaining level attempt) as n eqn:Hn.
  revert browser u level attempt s Hn.
  induction n as [n IH] using lt_wf_ind; intros browser u level attempt s Hn Hu.
  rewrite startCamera_unawaited_step, startCamera_step.
  rewrite (try_unawaited_mounted _ _ _ _ _ _ (Hu 0)).
  destruct (startCamera_try r (browser 0) level attempt s) as [[a|err] s1];
    [reflexivity|].
  unfold resumed. rewrite Hu. cbn [suspended when ret snd].
  destruct (attempt <? maxAttempts) eqn:Ha.
  - apply Nat.ltb_lt in Ha.
    apply (IH (remaining level (attempt + 1))); [|reflexivity|auto].
    subst n. unfold remaining, maxAttempts, maxConstraintLevels in *. lia.
  - apply Nat.ltb_nlt in Ha.
    destruct (level <? maxConstraintLevels - 1) eqn:Hl; [|reflexivity].
    apply Nat.ltb_lt in Hl.
    apply (IH (remaining (level + 1) 1)); [|reflexivity|auto].
    subst n. unfold remaining, maxAttempts, maxConstraintLevels in *. lia.
Qed.

(** X11. Unmounting while the camera starts leaves nothing open, but
    does not stop the retries.  The effect calls [startCamera()] without
    awaiting it, so the component can be unmounted at any await of the
    run.  The run still ends.  With the component mounted throughout it
    is the run of [startCamera].  When the video element is gone at the
    end (the component was unmounted), no stream is kept and [stop()]
    has been called on every track of the stream held on entry and of
    every stream the browser handed out during the run.  When the
    component is unmounted before the first request is answered, the
    function goes on without it: from level 0, attempt 1 it asks the
    browser for the camera all 15 times, and then calls
    [setError(message)] and [onError]. *)
Theorem unmount_leaves_nothing_open r browser unmounted level attempt s :
  (exists s',
      startCamera_unawaited r browser unmounted level attempt s
      = (Normal tt, s'))
  /\ forall s',
      startCamera_unawaited r browser unmounted level attempt s
      = (Normal tt, s') ->
      ((forall i w, unmounted i w = false) ->
       startCamera r browser level attempt s = (Normal tt, s'))
      /\ (videoRef s' = None ->
          streamRef s' = None
          /\ (forall track, In track (heldTracks s) ->
                            In (TrackStop track) (since s s'))
          /\ forall i stream track,
               i < count isGetUserMedia (since s s') ->
               userMedia (browser i) = Resolved (Some stream) ->
               In track (getTracks stream) ->
               In (TrackStop track) (since s s'))
      /\ (unmounted 0 delayWait = true \/ unmounted 0 requestWait = true ->
          videoRef s' = None
          /\ (level = 0 -> attempt = 1 ->
              count isGetUserMedia (since s s') = 15)
          /\ exists err,
               In (SetError (Some (getCameraErrorMessage err))) (since s s')
               /\ (onError r = true -> In (OnError err) (since s s'))).
Proof.
  destruct (startCamera_unawaited_Run r browser unmounted level attempt s)
    as (s0 & E0 & HR).
  split; [now exists s0|].
  intros s' E. rewrite E0 in E. inversion E; subst s'. clear E.
  destruct (RunUnawaited_requests _ _ _ _ _ _ _ HR) as (Hc & _).
  split; [|split].
  - intros Hu. now rewrite <- (startCamera_unawaited_mounted _ _ _ _ _ _ Hu).
  - intros Hv. destruct (RunUnawaited_closed _ _ _ _ _ _ _ HR) as (C1 & C2 & C3).
    split; [now apply C1|]. split; [exact C2|].
    intros i stream t Hi Hu Hin. rewrite Hc in Hi.
    destruct (C3 i stream t Hi Hu Hin) as [H|H]; [exact H|].
    rewrite (C1 Hv) in H. discriminate.
  - intros Hg.
    destruct (RunUnawaited_gone _ _ _ _ _ _ _ HR) as (G1 & G2 & G3);
      [now right|].
    split; [exact G1|]. split; [|exact G2].
    intros -> ->. rewrite Hc. apply G3.
    + unfold maxAttempts; lia.
    + unfold maxConstraintLevels; lia.
Qed.

Lemma unmount_leaves_nothing_open_witness :
  exists s',
    (startCamera_unawaited Scenarios.view Scenarios.fifth Scenarios.leavingAtFifth 0 1
       Scenarios.idle = (Normal tt, s')
     /\ videoRef s' = None
     /\ userMedia (Scenarios.fifth 4) = Resolved (Some Scenarios.backCamera)
     /\ In (mkMediaTrack "t0" "video" "Back Camera")
           (getTracks Scenarios.backCamera))
    /\ streamRef s' = None
    /\ In (TrackStop (mkMediaTrack "t0" "video" "Back Camera"))
          (since Scenarios.idle s').
Proof.
  eexists.
  assert (H1 : startCamera_unawaited Scenarios.view Scenarios.fifth
                 Scenarios.leavingAtFifth 0 1 Scenarios.idle = (Normal tt, _))
    by (vm_compute; reflexivity).
  match type of H1 with
  | _ = (_, ?s') =>
      assert (H2 : videoRef s' = None) by reflexivity;
      assert (H5 : 4 < count isGetUserMedia (since Scenarios.idle s'))
        by (vm_compute; lia)
  end.
  assert (H3 : userMedia (Scenarios.fifth 4)
               = Resolved (Some Scenarios.backCamera)) by reflexivity.
  assert (H4 : In (mkMediaTrack "t0" "video" "Back Camera")
                  (getTracks Scenarios.backCamera)) by (left; reflexivity).
  split; [exact (conj H1 (conj H2 (conj H3 H4)))|].
  destruct (proj1 (proj2 (proj2 (unmount_leaves_nothing_open _ _ _ _ _ _)
                            _ H1)) H2) as (A & _ & B).
  split; [exact A|]. exact (B 4 _ _ H5 H3 H4).
Defined.

End CameraExtras.

(** ** Properties of the agent and payment modals *)
Module AgentModalsProofs.
Import AgentModals.

Section Events.
Context {Agent PaymentData : Type}.
Variable onAgentInteraction : bool.

Lemma handle_keeps_agent (e : Event Agent PaymentData)
    (s : State Agent PaymentData) :
  modalHasAgent s ->
  fromOpenModal e s = true ->
  modalHasAgent (handle onAgentInteraction e s).
Proof.
  unfold modalHasAgent. intros Hs He.
  destruct e as [a|a|a d|]; simpl in *.
  - discriminate.
  - discriminate.
  - intros _. apply Hs. now right.
  - intros [H|H]; discriminate.
Qed.

(** X12. An open modal has an agent to show, as long as each modal calls
    back only while it is open.  Starting from a state in which this holds
    (for instance with both modals closed), after any sequence of agent
    clicks, payment requests coming from the open agent modal, payment
    completions coming from the open payment modal and closings,
    [selectedAgent] is set whenever one of the two modals is shown.  The
    condition is needed: a completion that arrives after [closeModals]
    shows the agent modal with no agent selected. *)
Theorem open_modal_has_agent (events : list (Event Agent PaymentData))
    (s : State Agent PaymentData) :
  (modalHasAgent s ->
   allFromOpenModal onAgentInteraction events s = true ->
   modalHasAgent (replay onAgentInteraction events s))
  /\ (forall agent paymentData,
         let late := handlePaymentComplete onAgentInteraction agent paymentData
                       (closeModals s) in
         showAgentModal late = true /\ selectedAgent late = None).
Proof.
  split.
  - revert s. induction events as [|e events IH]; intros s Hs Hall.
    + exact Hs.
    + simpl in Hall. apply andb_true_iff in Hall. destruct Hall as [He Hrest].
      simpl. apply IH; [|exact Hrest]. now apply handle_keeps_agent.
  - intros agent paymentData. split; reflexivity.
Qed.

End Events.

Lemma open_modal_has_agent_witness :
  (modalHasAgent (closed (Agent:=string) (PaymentData:=nat))
   /\ allFromOpenModal true
        [AgentClick "guide"; PaymentRequest "guide";
         PaymentComplete "guide" 5; AgentClick "tutor"]
        closed = true)
  /\ modalHasAgent
       (replay true
          [AgentClick "guide"; PaymentRequest "guide";
           PaymentComplete "guide" 5; AgentClick "tutor"]
          closed).
Proof.
  assert (H1 : modalHasAgent (closed (Agent:=string) (PaymentData:=nat)))
    by (intros [H|H]; discriminate).
  assert (H2 : allFromOpenModal true
                 [AgentClick "guide"; PaymentRequest "guide";
                  PaymentComplete "guide" 5; AgentClick "tutor"]
                 (closed (Agent:=string) (PaymentData:=nat)) = true)
    by reflexivity.
  split; [exact (conj H1 H2)|].
  exact (proj1 (open_modal_has_agent true _ _) H1 H2).
Defined.

End AgentModalsProofs.

(** ** Further properties of chain switching *)
Module BlockDAGExtras.
Import BlockDAG BlockDAGProofs.

(** X13. What [switchToBlockDAG] sends.  Earlier requests stay as they
    were; with a provider the first request sent is the switch to chain
    ["0x413"], and the only thing that can follow it is one request to add
    that same chain, with the name, currency, RPC and explorer URLs of
    [BlockDAGTestnet]; without a provider nothing is sent.  This holds for
    every provider, also one that rejects with [undefined] or [null]; for
    every other provider the function resolves to a boolean. *)
Theorem switchToBlockDAG_requests (ethereum : option Provider)
    (log : list Request) :
  exists settled sent,
    switchToBlockDAG ethereum log = (settled, log ++ sent)
    /\ (switchErrorReadable ethereum = true ->
        exists result, settled = Fulfilled result)
    /\ (ethereum = None -> sent = [])
    /\ (ethereum <> None ->
        sent = [wallet_switchEthereumChain "0x413"]
        \/ sent = [wallet_switchEthereumChain "0x413";
                   wallet_addEthereumChain "0x413"
                     "BlockDAG Primordial Testnet"
                     (mkCurrency "BDAG" "BDAG" 18)
                     ["https://test-rpc.primordial.bdagscan.com/"]
                     ["https://explorer-testnet.blockdag.org"]]).
Proof.
  destruct ethereum as [p|].
  2: { exists (Fulfilled false), []. split; [unfold switchToBlockDAG, resolve;
                                             now rewrite app_nil_r|].
       split; [now exists false|]. split; [reflexivity|].
       intros H. now elim H. }
  rewrite switchToBlockDAG_run.
  destruct p as [[[]|[| |e]] ad]; cbn [switchErrorReadable switchChain addChain].
  - do 2 eexists. split; [reflexivity|]. split; [now exists true|].
    split; [discriminate|]. intros _. now left.
  - do 2 eexists. split; [reflexivity|]. split; [discriminate|].
    split; [discriminate|]. intros _. now left.
  - do 2 eexists. split; [reflexivity|]. split; [discriminate|].
    split; [discriminate|]. intros _. now left.
  - destruct (isUnrecognizedChain (err_code e)).
    + do 2 eexists. split; [reflexivity|].
      split; [destruct ad; eexists; reflexivity|].
      split; [discriminate|]. intros _. now right.
    + do 2 eexists. split; [reflexivity|]. split; [now exists false|].
      split; [discriminate|]. intros _. now left.
Qed.

Lemma switchToBlockDAG_requests_witness :
  exists settled sent,
    (Some Scenarios.refusingWallet <> None
     /\ switchErrorReadable (Some Scenarios.refusingWallet) = true
     /\ switchToBlockDAG (Some Scenarios.refusingWallet) []
        = (settled, sent))
    /\ (exists result, settled = Fulfilled result)
    /\ (sent = [wallet_switchEthereumChain "0x413"]
        \/ sent = [wallet_switchEthereumChain "0x413";
                   wallet_addEthereumChain "0x413"
                     "BlockDAG Primordial Testnet"
                     (mkCurrency "BDAG" "BDAG" 18)
                     ["https://test-rpc.primordial.bdagscan.com/"]
                     ["https://explorer-testnet.blockdag.org"]]).
Proof.
  destruct (switchToBlockDAG_requests (Some Scenarios.refusingWallet) [])
    as (settled & sent & E & R & _ & H).
  exists settled, sent.
  assert (H1 : Some Scenarios.refusingWallet <> None) by discriminate.
  assert (H2 : switchErrorReadable (Some Scenarios.refusingWallet) = true)
    by reflexivity.
  split; [exact (conj H1 (conj H2 E))|]. split; [exact (R H2)|exact (H H1)].
Defined.

End BlockDAGExtras.

(** ** Further properties of the initialization sequence *)
Module ARViewerExtras.
Import ARViewer ARViewerProofs.

Section Frames.
Context {NearbyObject : Type}.
Variable b : Browser NearbyObject.

(** What the later steps leave alone. *)
Lemma sleep_frame (i ms : nat) (s : State NearbyObject) :
  currentLocation (snd (sleep b i ms s)) = currentLocation s.
Proof. now destruct s. Qed.

Lemma initializeCamera_result (s : State NearbyObject) :
  initializeCamera b s
  = (Normal (match cameraPermission b with
             | Resolved (Some _) => true
             | _ => false
             end),
     mkState (currentLocation s) (locationError s) 2 (isInitialized s)
       (nearbyObjects s)
       (match cameraPermission b with
        | Resolved (Some _) => true
        | _ => false
        end)
       (rtkStatus s) (mountedAfter b 2)
       (effects s
          ++ [Enter InitializeCamera; SetInitializationStep 2;
              GetUserMedia permissionConstraints]
          ++ map TrackStop
               (match cameraPermission b with
                | Resolved (Some stream) => CameraView.getTracks stream
                | _ => []
                end)
          ++ [Leave InitializeCamera])).
Proof.
  destruct s as [cl le st ii no ca rs mo ef].
  destruct b as [el nw [[[tracks]|]|e] cn ob ma]; run;
    try rewrite (stop_granted_tracks (NearbyObject := NearbyObject)); run;
    cbn [map app CameraView.getTracks]; rewrite <- ?app_assoc; reflexivity.
Qed.

Lemma initializeCamera_frame (s : State NearbyObject) :
  currentLocation (snd (initializeCamera b s)) = currentLocation s
  /\ nearbyObjects (snd (initializeCamera b s)) = nearbyObjects s
  /\ initializationStep (snd (initializeCamera b s)) = 2.
Proof. rewrite initializeCamera_result. repeat split; reflexivity. Qed.

Lemma refreshConnection_frame (s : State NearbyObject) :
  currentLocation (snd (refreshConnection b s)) = currentLocation s.
Proof.
  destruct s as [cl le st ii no ca rs mo ef].
  destruct b as [el nw cp [[]|e] ob ma]; reflexivity.
Qed.

Lemma loadNearbyObjects_frame (location : Location) (s : State NearbyObject) :
  currentLocation (snd (loadNearbyObjects b location s)) = currentLocation s
  /\ cameraActive (snd (loadNearbyObjects b location s)) = cameraActive s
  /\ initializationStep (snd (loadNearbyObjects b location s)) = 3
  /\ nearbyObjects (snd (loadNearbyObjects b location s))
     = match objects b with
       | Resolved (Some rows) => rows
       | _ => []
       end
  /\ fst (loadNearbyObjects b location s)
     = Normal (match objects b with
               | Resolved rows => rows
               | Rejected _ => Some []
               end).
Proof.
  destruct s as [cl le st ii no ca rs mo ef].
  destruct b as [el nw cp cn [[rows|]|e] ma]; repeat split; reflexivity.
Qed.

Lemma complete_frame (s : State NearbyObject) :
  let s1 := snd ((setInitializationStep NearbyObject 4 ;;
                  setIsInitialized NearbyObject true) s) in
  currentLocation s1 = currentLocation s /\ isMountedRef s1 = isMountedRef s.
Proof. now destruct s. Qed.

Lemma setIsInitialized_frame (s : State NearbyObject) :
  let s1 := snd (setIsInitialized NearbyObject true s) in
  currentLocation s1 = currentLocation s /\ isMountedRef s1 = isMountedRef s.
Proof. now destruct s. Qed.

End Frames.

(** Transport a fact about [snd (f s)] along [f s = (r, s1)]. *)
Ltac along E H := rewrite E in H; cbn [snd fst] in H.

Lemma initializeApp_shown {NearbyObject} (b : Browser NearbyObject)
    (s : State NearbyObject) :
  isInitialized s = false ->
  exists s',
    initializeApp b s = (Normal tt, s')
    /\ (isMountedRef s = false -> s' = s)
    /\ (isInitialized s' = true ->
        currentLocation s' = Some (located b)
        /\ isMountedRef s' = true
        /\ (progress (since s s') = firstn 8 fullSequence
            \/ progress (since s s') = fullSequence)).
Proof.
  intros I0.
  unfold initializeApp, try_catch, initializeApp_try.
  destruct (isMountedRef s) eqn:M0.
  2: { walk. exists s. split; [reflexivity|]. split; [reflexivity|].
       congruence. }
  destruct (initializeLocation_run b s) as (s1 & E1 & F1 & M1 & I1 & C1 & _).
  destruct (mountedAfter b 0) eqn:B0.
  2: { walk. exists s1. split; [reflexivity|]. split; [discriminate|].
       congruence. }
  destruct (sleep_run b 1 1000 s1) as (s2 & E2 & F2 & M2 & I2).
  pose proof (sleep_frame b 1 1000 s1) as C2. along E2 C2.
  destruct (mountedAfter b 1) eqn:B1.
  2: { walk. exists s2. split; [reflexivity|]. split; [discriminate|].
       congruence. }
  destruct (initializeCamera_run b s2) as (g & s3 & E3 & F3 & M3 & I3 & _).
  pose proof (initializeCamera_frame b s2) as (C3 & _). along E3 C3.
  destruct (mountedAfter b 2) eqn:B2.
  2: { walk. exists s3. split; [reflexivity|]. split; [discriminate|].
       congruence. }
  destruct (sleep_run b 3 1000 s3) as (s4 & E4 & F4 & M4 & I4).
  pose proof (sleep_frame b 3 1000 s3) as C4. along E4 C4.
  destruct (mountedAfter b 3) eqn:B3.
  2: { walk. exists s4. split; [reflexivity|]. split; [discriminate|].
       congruence. }
  destruct (refreshConnection_run b s4) as (s5 & E5 & F5 & M5 & I5).
  pose proof (refreshConnection_frame b s4) as C5. along E5 C5.
  destruct (connection b) as [[]|e] eqn:C.
  2: { walk. destruct (mountedAfter b 4) eqn:B4; walk.
       - destruct (setIsInitialized_run s5) as (s6 & E6 & F6 & I6).
         pose proof (setIsInitialized_frame s5) as (C6 & M6).
         along E6 C6. along E6 M6.
         rewrite E6. exists s6. split; [reflexivity|]. split; [discriminate|].
         intros _. split; [congruence|]. split; [congruence|]. left.
         rewrite (since_append s s6 _ ltac:(collect)).
         normalize_progress. reflexivity.
       - exists s5. split; [reflexivity|]. split; [discriminate|].
         congruence. }
  destruct (loadNearbyObjects_run b (located b) s5)
    as (o & s6 & E6 & F6 & M6 & I6).
  pose proof (loadNearbyObjects_frame b (located b) s5) as (C6 & _).
  along E6 C6.
  destruct (mountedAfter b 5) eqn:B5.
  2: { walk. exists s6. split; [reflexivity|]. split; [discriminate|].
       congruence. }
  destruct (sleep_run b 6 800 s6) as (s7 & E7 & F7 & M7 & I7).
  pose proof (sleep_frame b 6 800 s6) as C7. along E7 C7.
  destruct (mountedAfter b 6) eqn:B6.
  2: { walk. exists s7. split; [reflexivity|]. split; [discriminate|].
       congruence. }
  destruct (complete_run s7) as (s8 & E8 & F8 & I8 & St8).
  pose proof (complete_frame s7) as (C8 & M8). cbv zeta in C8, M8.
  along E8 C8. along E8 M8.
  walk. rewrite E8. exists s8. split; [reflexivity|]. split; [discriminate|].
  intros _. split; [congruence|]. split; [congruence|]. right.
  rewrite (since_append s s8 _ ltac:(collect)).
  normalize_progress. reflexivity.
Qed.

(** X15. The permission probe keeps nothing open.  [initializeCamera]
    never throws; it asks the browser once, for the back camera at
    1280x720, stops every track of the stream it is given, and sets
    [cameraActive] (and returns) true exactly when the browser resolved
    with a stream.  It leaves [initializationStep] at 2. *)
Theorem initializeCamera_probe {NearbyObject} (b : Browser NearbyObject)
    (s : State NearbyObject) :
  exists granted s1,
    initializeCamera b s = (Normal granted, s1)
    /\ cameraActive s1 = granted
    /\ (granted = true <->
        exists stream, cameraPermission b = Resolved (Some stream))
    /\ since s s1
       = [Enter InitializeCamera; SetInitializationStep 2;
          GetUserMedia permissionConstraints]
           ++ map TrackStop
                (match cameraPermission b with
                 | Resolved (Some stream) => CameraView.getTracks stream
                 | _ => []
                 end)
           ++ [Leave InitializeCamera]
    /\ initializationStep s1 = 2
    /\ isInitialized s1 = isInitialized s.
Proof.
  do 2 eexists. split; [apply initializeCamera_result|].
  cbn [cameraActive initializationStep isInitialized].
  split; [reflexivity|]. split.
  - destruct (cameraPermission b) as [[stream|]|e].
    + split; [intros _; now exists stream|reflexivity].
    + split; [discriminate|intros [stream H]; discriminate].
    + split; [discriminate|intros [stream H]; discriminate].
  - split; [|split; reflexivity].
    apply since_append. reflexivity.
Qed.

(** X16. Loading nearby objects never fails and never stores null.
    [loadNearbyObjects] asks once, for the location's coordinates with a
    radius of 100 m and a limit of 10; it stores the rows it gets, or the
    empty list when the query resolves with null or rejects, and returns
    what the query resolved with (the empty list when it rejected).  It
    sets [initializationStep] to 3 and does not touch [isInitialized]. *)
Theorem loadNearbyObjects_never_fails {NearbyObject}
    (b : Browser NearbyObject) (location : Location) (s : State NearbyObject) :
  exists rows s1,
    loadNearbyObjects b location s = (Normal rows, s1)
    /\ rows = match objects b with
              | Resolved answer => answer
              | Rejected _ => Some []
              end
    /\ nearbyObjects s1 = match objects b with
                          | Resolved (Some answer) => answer
                          | _ => []
                          end
    /\ since s s1
       = [Enter LoadNearbyObjects; SetInitializationStep 3;
          GetNearbyObjects (latitude location) (longitude location) 100 10;
          Leave LoadNearbyObjects]
    /\ initializationStep s1 = 3
    /\ isInitialized s1 = isInitialized s.
Proof.
  destruct (loadNearbyObjects_run b location s) as (rows & s1 & E & F & _ & I).
  pose proof (loadNearbyObjects_frame b location s) as (_ & _ & St & No & R).
  rewrite E in St, No, R. cbn [fst snd] in St, No, R.
  exists rows, s1. split; [exact E|].
  split; [now inversion R|]. split; [exact No|].
  split; [now apply since_append|]. now split.
Qed.



Lemma source_or_nonempty (v : option string) :
  source_or v "Standard GPS" <> "".
Proof. destruct v as [[|c rest]|]; discriminate. Qed.


Lemma initializeCamera_probe_witness :
  exists granted s1,
    (initializeCamera
       (mkBrowser (Rejected Scenarios.denied) 0%Z
          (Resolved (Some Scenarios.backCamera)) (Resolved tt)
          (Resolved (Some ["kiosk"])) (fun _ => true))
       mountState = (Normal granted, s1)
     /\ exists stream,
         cameraPermission
           (mkBrowser (Rejected Scenarios.denied) 0%Z
              (Resolved (Some Scenarios.backCamera)) (Resolved tt)
              (Resolved (Some ["kiosk"])) (fun _ => true))
         = Resolved (Some stream))
    /\ granted = true.
Proof.
  destruct (initializeCamera_probe
              (mkBrowser (Rejected Scenarios.denied) 0%Z
                 (Resolved (Some Scenarios.backCamera)) (Resolved tt)
                 (Resolved (Some ["kiosk"])) (fun _ => true))
              mountState) as (granted & s1 & E & _ & G & _).
  exists granted, s1.
  assert (H : exists stream,
             cameraPermission
               (mkBrowser (Rejected Scenarios.denied) 0%Z
                  (Resolved (Some Scenarios.backCamera)) (Resolved tt)
                  (Resolved (Some ["kiosk"])) (fun _ => true))
             = Resolved (Some stream))
    by (exists Scenarios.backCamera; reflexivity).
  split; [exact (conj E H)|]. exact (proj2 G H).
Defined.


End ARViewerExtras.
